(** * Armada inventory: category / product consistency and navigation history

    A shallow embedding of the client-side logic of [src/index.tsx]:
    the save / delete / sell handlers of [App], the CSV export of
    [ProductStockView] and the history synchronisation effect.

    Conventions of the embedding.
    - JavaScript strings are [string]s, read as UTF-8 text; [===] on strings
      is Leibniz equality.
    - Stock quantities are integers ([Z]); the form produces them with
      [parseInt].  A price is only ever copied, it is a rational ([Q]).
    - An optional field ([description?], [imageUrl?]) is an [option].
    - The [updates] object of a handler (path -> value, later handed to
      Firebase [update]) is a [gmap Path Value]; assigning to a key that is
      already present overwrites it, as in JavaScript.
    - [alert], [console.log] and the modal are presentation and are left out;
      what a handler does to the store and to the view selection is kept. *)

From Stdlib Require Import QArith Ascii.
From stdpp Require Import base decidable option list strings pretty gmap fin_maps sorting.

Local Open Scope Z_scope.

(** ** Data model *)

(** [const SIZES = ["XS", "S", "M", "L", "XL", "XXL", "3XL"]] *)
Inductive Size := SzXS | SzS | SzM | SzL | SzXL | SzXXL | Sz3XL.

Definition SIZES : list Size := [SzXS; SzS; SzM; SzL; SzXL; SzXXL; Sz3XL].

Definition size_label (s : Size) : string :=
  match s with
  | SzXS => "XS" | SzS => "S" | SzM => "M" | SzL => "L"
  | SzXL => "XL" | SzXXL => "XXL" | Sz3XL => "3XL"
  end.

Definition size_code (s : Size) : nat :=
  match s with
  | SzXS => 0 | SzS => 1 | SzM => 2 | SzL => 3
  | SzXL => 4 | SzXXL => 5 | Sz3XL => 6
  end%nat.

Definition size_of_code (n : nat) : option Size :=
  match n with
  | 0 => Some SzXS | 1 => Some SzS | 2 => Some SzM | 3 => Some SzL
  | 4 => Some SzXL | 5 => Some SzXXL | 6 => Some Sz3XL | _ => None
  end%nat.

#[global] Instance Size_eq_dec : EqDecision Size.
Proof. solve_decision. Defined.

#[global] Instance Size_countable : Countable Size.
Proof.
  apply (inj_countable size_code size_of_code).
  intros []; reflexivity.
Defined.

(** [interface CategoryDefinition { id; name; subcategories }] *)
Record CategoryDefinition := mkCategory {
  cat_id : string;
  cat_name : string;
  cat_subcategories : list string;
}.

(** [interface InventoryItem].  [item_sizes] is the [Record<Size, number>]
    object; a size key may be missing in data read back from the store. *)
Record InventoryItem := mkItem {
  item_id : string;
  item_name : string;
  item_sku : string;
  item_category : string;
  item_subcategory : string;
  item_sizes : gmap Size Z;
  item_price : Q;
  item_description : option string;
  item_imageUrl : option string;
}.

(** [Omit<InventoryItem, 'id'>]: the record stored under [/products/{id}]. *)
Record ProductData := mkProduct {
  pd_name : string;
  pd_sku : string;
  pd_category : string;
  pd_subcategory : string;
  pd_sizes : gmap Size Z;
  pd_price : Q;
  pd_description : option string;
  pd_imageUrl : string;
}.

(** ** Store paths and batches *)

(** The path templates used by the handlers.  A Firebase key holds no [/],
    so a template and its key determine the path. *)
Inductive Path :=
| CategoryPath (id : string)               (* /categories/${id} *)
| CategorySubcategoriesPath (id : string)  (* /categories/${id}/subcategories *)
| ProductPath (id : string)                (* /products/${id} *)
| ProductCategoryPath (id : string)        (* /products/${id}/category *)
| ProductSubcategoryPath (id : string)     (* /products/${id}/subcategory *)
| ProductSizePath (id : string) (s : Size). (* products/${id}/sizes/${size} *)

Definition path_string (p : Path) : string :=
  match p with
  | CategoryPath id => "/categories/" +:+ id
  | CategorySubcategoriesPath id => "/categories/" +:+ id +:+ "/subcategories"
  | ProductPath id => "/products/" +:+ id
  | ProductCategoryPath id => "/products/" +:+ id +:+ "/category"
  | ProductSubcategoryPath id => "/products/" +:+ id +:+ "/subcategory"
  | ProductSizePath id s => "/products/" +:+ id +:+ "/sizes/" +:+ size_label s
  end.

Definition path_code (p : Path) : nat * string * nat :=
  match p with
  | CategoryPath id => (0, id, 0)
  | CategorySubcategoriesPath id => (1, id, 0)
  | ProductPath id => (2, id, 0)
  | ProductCategoryPath id => (3, id, 0)
  | ProductSubcategoryPath id => (4, id, 0)
  | ProductSizePath id s => (5, id, size_code s)
  end%nat.

Definition path_of_code (c : nat * string * nat) : option Path :=
  match c with
  | (0, id, _) => Some (CategoryPath id)
  | (1, id, _) => Some (CategorySubcategoriesPath id)
  | (2, id, _) => Some (ProductPath id)
  | (3, id, _) => Some (ProductCategoryPath id)
  | (4, id, _) => Some (ProductSubcategoryPath id)
  | (5, id, n) => ProductSizePath id <$> size_of_code n
  | _ => None
  end%nat.

#[global] Instance Path_eq_dec : EqDecision Path.
Proof. solve_decision. Defined.

#[global] Instance Path_countable : Countable Path.
Proof.
  apply (inj_countable path_code path_of_code).
  intros [| | | | |? []]; reflexivity.
Defined.

(** The values the handlers put in a batch; [VNull] deletes the path. *)
Inductive Value :=
| VNull
| VString (s : string)
| VNumber (n : Z)
| VStrings (l : list string)
| VCategory (name : string) (subcategories : list string)
| VProduct (d : ProductData).

Abbreviation Updates := (gmap Path Value).

(** What a handler did with the store. *)
Inductive Outcome :=
| Returned                   (* returned without calling the store *)
| Issued (updates : Updates) (* update(dbRef(rtdb), updates), or one set *)
| Threw.                     (* an exception was raised before the call:
                                rethrown by handleSaveItem, caught and
                                reported by the delete handlers *)

(** ** JavaScript helpers *)

(** [array.includes(x)] *)
Definition includes (l : list string) (x : string) : bool :=
  bool_decide (x ∈ l).

(** [[...new Set(l)]]: the first occurrence of each element, in order. *)
Fixpoint set_spread (l : list string) : list string :=
  match l with
  | [] => []
  | x :: r => x :: filter (λ y, y ≠ x) (set_spread r)
  end.

(** The order of [Array.prototype.sort] without a comparator: strings are
    compared unit by unit.  On UTF-8 text this is the order of code points,
    which is the order of UTF-16 code units except between a supplementary
    character and one of U+E000..U+FFFF. *)
Definition js_le (a b : string) : Prop := String.leb a b = true.

#[global] Instance js_le_dec : RelDecision js_le.
Proof. intros a b. unfold js_le. apply _. Defined.

Definition js_sort (l : list string) : list string := merge_sort js_le l.

(** [[...new Set([...subs, 'Default'])].sort()] *)
Definition with_default (subs : list string) : list string :=
  js_sort (set_spread (subs ++ ["Default"])).

(** A generated key counts when it is a non-empty string ([if (ref.key)]). *)
Definition usable_key (k : option string) : option string :=
  match k with
  | Some k => if decide (k = "") then None else Some k
  | None => None
  end.

(** [push(dbRef(rtdb, collection)).key], by collection name. *)
Abbreviation KeyGen := (string → option string).

(** A key generator that always yields a non-empty key, as Firebase
    [push] does. *)
Definition generates_keys (push : KeyGen) : Prop :=
  ∀ collection, ∃ key, push collection = Some key ∧ key ≠ "".

(** ** Saving a product: [handleSaveItem] *)

(** Lines 705-738: the validated (category, subcategory) and the category
    repair scheduled with it; [None] when no key could be generated for a
    new "Uncategorized" category (the handler throws). *)
Definition reconcile (categories : list CategoryDefinition) (push : KeyGen)
    (itemToSave : InventoryItem) : option (string * string * Updates) :=
  let categoryDef :=
    List.find (λ c, bool_decide (cat_name c = item_category itemToSave))
              categories in
  let uncategorizedCatDef :=
    List.find (λ c, bool_decide (cat_name c = "Uncategorized")) categories in
  match categoryDef with
  | None =>
      match uncategorizedCatDef with
      | None =>
          match usable_key (push "categories") with
          | Some key =>
              Some ("Uncategorized", "Default",
                    {[ CategoryPath key := VCategory "Uncategorized" ["Default"] ]})
          | None => None
          end
      | Some uncat =>
          if negb (includes (cat_subcategories uncat) "Default") then
            Some ("Uncategorized", "Default",
                  {[ CategorySubcategoriesPath (cat_id uncat) :=
                       VStrings (with_default (cat_subcategories uncat)) ]})
          else Some ("Uncategorized", "Default", ∅)
      end
  | Some categoryDef =>
      let subcategoryExists :=
        includes (cat_subcategories categoryDef) (item_subcategory itemToSave) in
      if negb subcategoryExists then
        if negb (includes (cat_subcategories categoryDef) "Default") then
          Some (item_category itemToSave, "Default",
                {[ CategorySubcategoriesPath (cat_id categoryDef) :=
                     VStrings (with_default (cat_subcategories categoryDef)) ]})
        else Some (item_category itemToSave, "Default", ∅)
      else Some (item_category itemToSave, item_subcategory itemToSave, ∅)
  end.

(** [String.prototype.trim] on UTF-8 text: the white space and line
    terminator characters of ECMAScript, by their encodings. *)
Definition bytes (codes : list nat) : string :=
  String.string_of_list_ascii (map Ascii.ascii_of_nat codes).

Definition WHITE_SPACE : list string :=
  map bytes
    [ [9]; [10]; [11]; [12]; [13]; [32]; [194; 160]; [225; 154; 128];
      [226; 128; 128]; [226; 128; 129]; [226; 128; 130]; [226; 128; 131];
      [226; 128; 132]; [226; 128; 133]; [226; 128; 134]; [226; 128; 135];
      [226; 128; 136]; [226; 128; 137]; [226; 128; 138]; [226; 128; 168];
      [226; 128; 169]; [226; 128; 175]; [226; 129; 159]; [227; 128; 128];
      [239; 187; 191] ]%nat.

Fixpoint drop_prefix (p s : string) : option string :=
  match p, s with
  | EmptyString, _ => Some s
  | String a p', String b s' => if decide (a = b) then drop_prefix p' s' else None
  | String _ _, EmptyString => None
  end.

(** The text after one leading white space character, if there is one. *)
Definition drop_space (tokens : list string) (s : string) : option string :=
  List.fold_right
    (λ t acc, match drop_prefix t s with Some r => Some r | None => acc end)
    None tokens.

Fixpoint drop_spaces (fuel : nat) (tokens : list string) (s : string) : string :=
  match fuel with
  | O => s
  | S fuel' =>
      match drop_space tokens s with
      | Some r => drop_spaces fuel' tokens r
      | None => s
      end
  end.

Definition trimStart (s : string) : string :=
  drop_spaces (String.length s) WHITE_SPACE s.

Definition trimEnd (s : string) : string :=
  String.rev
    (drop_spaces (String.length s) (map String.rev WHITE_SPACE) (String.rev s)).

Definition trim (s : string) : string := trimEnd (trimStart s).

(** Lines 740-749. *)
Definition finalItemData (itemToSave : InventoryItem)
    (validatedCategory validatedSubcategory : string) : ProductData :=
  {| pd_name := item_name itemToSave;
     pd_sku := item_sku itemToSave;
     pd_category := validatedCategory;
     pd_subcategory := validatedSubcategory;
     pd_sizes := item_sizes itemToSave;
     pd_price := item_price itemToSave;
     pd_description := item_description itemToSave;
     pd_imageUrl := match item_imageUrl itemToSave with
                    | Some url => trim url
                    | None => ""
                    end |}.

(** Lines 693-784.  [itemToSave = None] is the [!itemToSave] guard. *)
Definition handleSaveItem (categories : list CategoryDefinition) (push : KeyGen)
    (itemToSave : option InventoryItem) : Outcome :=
  match itemToSave with
  | None => Threw
  | Some itemToSave =>
      match reconcile categories push itemToSave with
      | None => Threw
      | Some (validatedCategory, validatedSubcategory, updates) =>
          let final :=
            finalItemData itemToSave validatedCategory validatedSubcategory in
          let scheduled : option Updates :=
            if decide (item_id itemToSave ≠ "") then
              Some (<[ProductPath (item_id itemToSave) := VProduct final]> updates)
            else
              match usable_key (push "products") with
              | Some key => Some (<[ProductPath key := VProduct final]> updates)
              | None => None
              end in
          match scheduled with
          | None => Threw
          | Some updates =>
              if bool_decide (0 < size updates)%nat then Issued updates else Returned
          end
      end
  end.

(** ** The view selection *)

Inductive ViewMode := admin | stock.

#[global] Instance ViewMode_eq_dec : EqDecision ViewMode.
Proof. solve_decision. Defined.

Record ViewState := mkView {
  viewMode : ViewMode;
  selectedCategoryForView : option string;
  selectedSubcategoryForView : option string;
}.

#[global] Instance ViewState_eq_dec : EqDecision ViewState.
Proof. solve_decision. Defined.

(** ** Deleting a category: [handleDeleteCategory] (lines 906-943) *)

(** The [forEach] of lines 925-928. *)
Definition reassign_to_uncategorized (updates : Updates)
    (itemsToReassign : list InventoryItem) : Updates :=
  foldl (λ u item,
           <[ProductSubcategoryPath (item_id item) := VString "Default"]>
             (<[ProductCategoryPath (item_id item) := VString "Uncategorized"]> u))
        updates itemsToReassign.

(** The batch built inside the [try]; [None] when the key for a new
    "Uncategorized" category is missing (thrown and caught). *)
Definition deleteCategoryUpdates (categories : list CategoryDefinition)
    (items : list InventoryItem) (push : KeyGen)
    (categoryId categoryName : string) : option Updates :=
  let itemsToReassign :=
    filter (λ item, item_category item = categoryName) items in
  let uncategorizedCat :=
    List.find (λ c, bool_decide (cat_name c = "Uncategorized")) categories in
  let fixed : option Updates :=
    match uncategorizedCat with
    | None =>
        match usable_key (push "categories") with
        | Some key =>
            Some ({[ CategoryPath key := VCategory "Uncategorized" ["Default"] ]})
        | None => None
        end
    | Some uncat =>
        if negb (includes (cat_subcategories uncat) "Default") then
          Some ({[ CategorySubcategoriesPath (cat_id uncat) :=
                     VStrings (with_default (cat_subcategories uncat)) ]})
        else Some ∅
    end in
  match fixed with
  | None => None
  | Some updates =>
      Some (<[CategoryPath categoryId := VNull]>
              (reassign_to_uncategorized updates itemsToReassign))
  end.

(** [accepted] tells whether the store carried out the batch; the view
    selection is only touched after a successful [await update]. *)
Definition handleDeleteCategory (categories : list CategoryDefinition)
    (items : list InventoryItem) (push : KeyGen) (accepted : Updates → bool)
    (view : ViewState) (categoryId categoryName : string) : Outcome * ViewState :=
  if bool_decide (categoryName = "Uncategorized") || bool_decide (categoryId = "") then
    (Returned, view)
  else
    match deleteCategoryUpdates categories items push categoryId categoryName with
    | None => (Threw, view)
    | Some updates =>
        if accepted updates
           && bool_decide (selectedCategoryForView view = Some categoryName)
        then (Issued updates,
              {| viewMode := viewMode view;
                 selectedCategoryForView := None;
                 selectedSubcategoryForView := None |})
        else (Issued updates, view)
    end.

(** ** Deleting a subcategory: [handleDeleteSubcategory] (lines 971-1027) *)

(** Lines 989-1001 and 1007-1009: the subcategory list left for the parent. *)
Definition updatedSubcategoriesFor (parentCategory : CategoryDefinition)
    (itemsToReassign : list InventoryItem)
    (categoryName subcategoryName : string) : list string :=
  let updatedSubcategories :=
    filter (λ sub, sub ≠ subcategoryName) (cat_subcategories parentCategory) in
  let updatedSubcategories :=
    if bool_decide (0 < length itemsToReassign)%nat then
      if bool_decide (subcategoryName ≠ "Default")
         && negb (includes updatedSubcategories "Default")
      then js_sort (updatedSubcategories ++ ["Default"])
      else if bool_decide (subcategoryName = "Default")
              && bool_decide (length updatedSubcategories = 0%nat)
              && bool_decide (categoryName ≠ "Uncategorized")
      then updatedSubcategories ++ ["Default"]
      else updatedSubcategories
    else updatedSubcategories in
  if bool_decide (categoryName ≠ "Uncategorized")
     && bool_decide (length updatedSubcategories = 0%nat)
  then updatedSubcategories ++ ["Default"]
  else updatedSubcategories.

(** The [forEach] of lines 1002-1004; [targetSubcategory] is 'Default'. *)
Definition reassign_to_default (updates : Updates)
    (itemsToReassign : list InventoryItem) : Updates :=
  foldl (λ u item, <[ProductSubcategoryPath (item_id item) := VString "Default"]> u)
        updates itemsToReassign.

(** Lines 986-1014: the batch built inside the [try]. *)
Definition deleteSubcategoryUpdates (parentCategory : CategoryDefinition)
    (items : list InventoryItem)
    (categoryId categoryName subcategoryName : string) : Updates :=
  let itemsToReassign :=
    filter (λ item, item_category item = categoryName
                    ∧ item_subcategory item = subcategoryName) items in
  let updatedSubcategories :=
    updatedSubcategoriesFor parentCategory itemsToReassign
      categoryName subcategoryName in
  let updates := reassign_to_default ∅ itemsToReassign in
  let updates :=
    <[CategorySubcategoriesPath categoryId :=
        if bool_decide (0 < length updatedSubcategories)%nat
        then VStrings updatedSubcategories else VNull]> updates in
  if bool_decide (categoryName = "Uncategorized")
     && bool_decide (length updatedSubcategories = 0%nat)
     && bool_decide (subcategoryName = "Default")
  then <[CategorySubcategoriesPath categoryId := VStrings ["Default"]]> updates
  else updates.

Definition handleDeleteSubcategory (categories : list CategoryDefinition)
    (items : list InventoryItem) (accepted : Updates → bool) (view : ViewState)
    (categoryId categoryName subcategoryName : string) : Outcome * ViewState :=
  if (bool_decide (categoryName = "Uncategorized")
      && bool_decide (subcategoryName = "Default"))
     || bool_decide (categoryId = "") then
    (Returned, view)
  else
    match List.find (λ c, bool_decide (cat_id c = categoryId)) categories with
    | None => (Returned, view)
    | Some parentCategory =>
        if bool_decide (subcategoryName = "Default")
           && bool_decide (length (cat_subcategories parentCategory) = 1%nat)
           && bool_decide (categoryName ≠ "Uncategorized")
        then (Returned, view)
        else
          let updates :=
            deleteSubcategoryUpdates parentCategory items
              categoryId categoryName subcategoryName in
          if accepted updates
             && bool_decide (selectedCategoryForView view = Some categoryName)
             && bool_decide (selectedSubcategoryForView view = Some subcategoryName)
          then (Issued updates,
                {| viewMode := viewMode view;
                   selectedCategoryForView := selectedCategoryForView view;
                   selectedSubcategoryForView := None |})
          else (Issued updates, view)
    end.

(** ** Selling one unit: [handleSellItemSize] (lines 806-829) *)

(** [sizes[size] || 0] *)
Definition quantity (sizes : gmap Size Z) (size : Size) : Z :=
  default 0 (sizes !! size).

Definition handleSellItemSize (items : list InventoryItem)
    (itemId : string) (sizeToSell : Size) : Outcome :=
  if bool_decide (itemId = "") then Returned
  else
    match List.find (λ i, bool_decide (item_id i = itemId)) items with
    | Some item =>
        let currentQuantity := quantity (item_sizes item) sizeToSell in
        if bool_decide (currentQuantity > 0) then
          let newQuantity := currentQuantity - 1 in
          Issued {[ ProductSizePath itemId sizeToSell := VNumber newQuantity ]}
        else Returned
    | None => Returned
    end.

(** Line 84: total stock of a product. *)
Definition calculateTotalQuantity (sizes : gmap Size Z) : Z :=
  foldl (λ sum size, sum + quantity sizes size) 0 SIZES.

(** ** The store as the client sees it *)

(** Modelled from the spec: the remote store is an external service, only
    its contract is given (4.1 [writeBatch]: a mapping from path to
    value-or-null, null deletes, applied as one multi-path update; 4.2: on
    each snapshot the in-memory list is rebuilt wholesale from the keyed
    mapping [id -> fields]).  A collection is represented by the list the
    snapshot handler (lines 622-631, 655-668) builds from it, and
    [categories_after] / [items_after] give the list of the next snapshot
    once a batch has been carried out: a record is dropped, replaced or
    patched in place by the paths that address it, and a record written
    under a key not yet present is added. *)
Definition category_after (u : Updates) (c : CategoryDefinition)
    : option CategoryDefinition :=
  match u !! CategoryPath (cat_id c) with
  | Some VNull => None
  | Some (VCategory name subs) => Some (mkCategory (cat_id c) name subs)
  | Some _ => Some c
  | None =>
      match u !! CategorySubcategoriesPath (cat_id c) with
      | Some (VStrings subs) => Some (mkCategory (cat_id c) (cat_name c) subs)
      | Some VNull => Some (mkCategory (cat_id c) (cat_name c) [])
      | _ => Some c
      end
  end.

Definition created_category (categories : list CategoryDefinition)
    (w : Path * Value) : option CategoryDefinition :=
  match w with
  | (CategoryPath key, VCategory name subs) =>
      if bool_decide (key ∈ cat_id <$> categories) then None
      else Some (mkCategory key name subs)
  | _ => None
  end.

Definition categories_after (u : Updates) (categories : list CategoryDefinition)
    : list CategoryDefinition :=
  omap (category_after u) categories
  ++ omap (created_category categories) (map_to_list u).

Definition item_of_product (id : string) (d : ProductData) : InventoryItem :=
  {| item_id := id;
     item_name := pd_name d;
     item_sku := pd_sku d;
     item_category := pd_category d;
     item_subcategory := pd_subcategory d;
     item_sizes := pd_sizes d;
     item_price := pd_price d;
     item_description := pd_description d;
     item_imageUrl := Some (pd_imageUrl d) |}.

Definition sizes_after (u : Updates) (id : string) (sizes : gmap Size Z)
    : gmap Size Z :=
  foldr (λ size m,
           match u !! ProductSizePath id size with
           | Some (VNumber n) => <[size := n]> m
           | Some VNull => delete size m
           | _ => m
           end)
        sizes SIZES.

Definition item_after (u : Updates) (i : InventoryItem) : option InventoryItem :=
  match u !! ProductPath (item_id i) with
  | Some VNull => None
  | Some (VProduct d) => Some (item_of_product (item_id i) d)
  | Some _ => Some i
  | None =>
      Some {| item_id := item_id i;
              item_name := item_name i;
              item_sku := item_sku i;
              item_category :=
                match u !! ProductCategoryPath (item_id i) with
                | Some (VString c) => c
                | _ => item_category i
                end;
              item_subcategory :=
                match u !! ProductSubcategoryPath (item_id i) with
                | Some (VString s) => s
                | _ => item_subcategory i
                end;
              item_sizes := sizes_after u (item_id i) (item_sizes i);
              item_price := item_price i;
              item_description := item_description i;
              item_imageUrl := item_imageUrl i |}
  end.

Definition created_item (items : list InventoryItem)
    (w : Path * Value) : option InventoryItem :=
  match w with
  | (ProductPath key, VProduct d) =>
      if bool_decide (key ∈ item_id <$> items) then None
      else Some (item_of_product key d)
  | _ => None
  end.

Definition items_after (u : Updates) (items : list InventoryItem)
    : list InventoryItem :=
  omap (item_after u) items ++ omap (created_item items) (map_to_list u).

(** The lists of the next snapshots after a handler has run and the store
    has carried out what it issued. *)
Definition categories_after_outcome (o : Outcome)
    (categories : list CategoryDefinition) : list CategoryDefinition :=
  match o with
  | Issued updates => categories_after updates categories
  | _ => categories
  end.

Definition items_after_outcome (o : Outcome) (items : list InventoryItem)
    : list InventoryItem :=
  match o with
  | Issued updates => items_after updates items
  | _ => items
  end.

(** ** Navigation history *)

Definition APP_HISTORY_KEY : string := "inventory-app".

(** [interface AppHistoryState].  An entry found in the browser need not
    have been written by this code: [historyIndex = None] stands for a
    field that is not a number. *)
Record AppHistoryState := mkHistoryState {
  __app : string;
  hs_viewMode : ViewMode;
  hs_selectedCategoryForView : option string;
  hs_selectedSubcategoryForView : option string;
  historyIndex : option Z;
}.

(** The view state of [App] with the four refs of lines 532-535. *)
Record App := mkApp {
  view : ViewState;
  isHandlingPopStateRef : bool;
  isInitialHistoryRef : bool;
  historyIndexRef : Z;
  hasSeededHistoryRef : bool;
}.

Definition initialApp : App :=
  {| view := mkView stock None None;
     isHandlingPopStateRef := false;
     isInitialHistoryRef := true;
     historyIndexRef := 0;
     hasSeededHistoryRef := false |}.

(** Modelled from the spec: [window.history] is the platform's session
    history (4.4 "the platform history stack"; 6 "Browser history
    entries").  It is a list of entry states ([None] for [null]) with a
    cursor on the current entry: [pushState] drops the entries after the
    cursor and appends, [replaceState] overwrites the current entry. *)
Record History := mkHistory {
  entries : list (option AppHistoryState);
  cursor : nat;
}.

Definition history_state (h : History) : option AppHistoryState :=
  default None (entries h !! cursor h).

Definition pushState (s : AppHistoryState) (h : History) : History :=
  {| entries := take (S (cursor h)) (entries h) ++ [Some s];
     cursor := S (cursor h) |}.

Definition replaceState (s : AppHistoryState) (h : History) : History :=
  {| entries := <[cursor h := Some s]> (entries h);
     cursor := cursor h |}.

(** Lines 552-558. *)
Definition buildHistoryState (v : ViewState) (index : Z) : AppHistoryState :=
  {| __app := APP_HISTORY_KEY;
     hs_viewMode := viewMode v;
     hs_selectedCategoryForView := selectedCategoryForView v;
     hs_selectedSubcategoryForView := selectedSubcategoryForView v;
     historyIndex := Some index |}.

(** Lines 561-578. *)
Definition handlePopState (state : option AppHistoryState) (a : App) : App :=
  match state with
  | None => a
  | Some state =>
      if bool_decide (__app state ≠ APP_HISTORY_KEY) then a
      else
        {| view :=
             match hs_viewMode state with
             | stock =>
                 mkView stock (hs_selectedCategoryForView state)
                              (hs_selectedSubcategoryForView state)
             | admin => mkView admin None None
             end;
           isHandlingPopStateRef := true;
           isInitialHistoryRef := isInitialHistoryRef a;
           historyIndexRef := default 0 (historyIndex state);
           hasSeededHistoryRef := hasSeededHistoryRef a |}
  end.

(** Lines 584-616: the body of the history effect. *)
Definition historyEffect (a : App) (h : History) : App * History :=
  let currentState := history_state h in
  if isInitialHistoryRef a then
    let hasAppState :=
      match currentState with
      | Some st => bool_decide (__app st = APP_HISTORY_KEY)
                   && bool_decide (is_Some (historyIndex st))
      | None => false
      end in
    let index :=
      if hasAppState then default 0 (currentState ≫= historyIndex) else 0 in
    let h := replaceState (buildHistoryState (view a) index) h in
    if negb (hasSeededHistoryRef a) && (negb hasAppState || bool_decide (index = 0)) then
      ({| view := view a;
          isHandlingPopStateRef := isHandlingPopStateRef a;
          isInitialHistoryRef := false;
          historyIndexRef := index + 1;
          hasSeededHistoryRef := true |},
       pushState (buildHistoryState (view a) (index + 1)) h)
    else
      ({| view := view a;
          isHandlingPopStateRef := isHandlingPopStateRef a;
          isInitialHistoryRef := false;
          historyIndexRef := index;
          hasSeededHistoryRef := true |}, h)
  else if isHandlingPopStateRef a then
    ({| view := view a;
        isHandlingPopStateRef := false;
        isInitialHistoryRef := isInitialHistoryRef a;
        historyIndexRef := historyIndexRef a;
        hasSeededHistoryRef := hasSeededHistoryRef a |},
     replaceState (buildHistoryState (view a) (historyIndexRef a)) h)
  else
    ({| view := view a;
        isHandlingPopStateRef := isHandlingPopStateRef a;
        isInitialHistoryRef := isInitialHistoryRef a;
        historyIndexRef := historyIndexRef a + 1;
        hasSeededHistoryRef := hasSeededHistoryRef a |},
     pushState (buildHistoryState (view a) (historyIndexRef a + 1)) h).

(** The effect has the dependency list [[viewMode, selectedCategoryForView,
    selectedSubcategoryForView]]: after the first render it runs again
    exactly when a render commits a different triple. *)
Definition commit (before : ViewState) (w : App * History) : App * History :=
  if decide (view w.1 = before) then w else historyEffect w.1 w.2.

(** First render of [App] on the browser history [h]. *)
Definition mount (h : History) : App * History := historyEffect initialApp h.

Definition with_view (a : App) (v : ViewState) : App :=
  {| view := v;
     isHandlingPopStateRef := isHandlingPopStateRef a;
     isInitialHistoryRef := isInitialHistoryRef a;
     historyIndexRef := historyIndexRef a;
     hasSeededHistoryRef := hasSeededHistoryRef a |}.

(** An event handler of the application sets the view state; the setters of
    one handler are batched in one render. *)
Definition navigate (nav : ViewState → ViewState) (w : App * History)
    : App * History :=
  commit (view w.1) (with_view w.1 (nav (view w.1)), w.2).

(** A native back / forward: the cursor moves by one entry when there is
    one, and [popstate] is delivered with the state of the entry reached. *)
Definition popTo (target : nat) (w : App * History) : App * History :=
  let h := {| entries := entries w.2; cursor := target |} in
  commit (view w.1) (handlePopState (history_state h) w.1, h).

Definition back (w : App * History) : App * History :=
  match cursor w.2 with
  | O => w
  | S n => popTo n w
  end.

Definition forward (w : App * History) : App * History :=
  if bool_decide (S (cursor w.2) < length (entries w.2))%nat
  then popTo (S (cursor w.2)) w else w.

(** Lines 1029-1037 and 879-888: the navigations of the user interface. *)
Definition handleSelectCategoryForView (categoryName : string) (v : ViewState)
    : ViewState :=
  mkView (viewMode v) (Some categoryName) None.

Definition handleSelectSubcategoryForView (categoryName subcategoryName : string)
    (v : ViewState) : ViewState :=
  mkView (viewMode v) (Some categoryName) (Some subcategoryName).

Definition toggleViewMode (v : ViewState) : ViewState :=
  match viewMode v with
  | admin => mkView stock None None
  | stock => mkView admin (selectedCategoryForView v) (selectedSubcategoryForView v)
  end.

(** Lines 1039-1050. *)
Definition truthy (s : option string) : bool :=
  match s with
  | Some s => bool_decide (s ≠ "")
  | None => false
  end.

Definition handleNavigateBackFromStockView (w : App * History) : App * History :=
  if bool_decide (historyIndexRef w.1 > 0) then back w
  else
    navigate (λ v,
      if truthy (selectedSubcategoryForView v) then
        mkView (viewMode v) (selectedCategoryForView v) None
      else if truthy (selectedCategoryForView v) then
        mkView (viewMode v) None (selectedSubcategoryForView v)
      else v) w.

(** ** CSV export (lines 88-130 and 158-170) *)

Definition QUOTE : ascii := Ascii.ascii_of_nat 34.
Definition COMMA : ascii := Ascii.ascii_of_nat 44.
Definition CR : ascii := Ascii.ascii_of_nat 13.
Definition LF : ascii := Ascii.ascii_of_nat 10.

(** [type CsvValue = string | number] *)
Inductive CsvValue :=
| CsvText (s : string)
| CsvNumber (n : Z).

(** [String(value ?? '')] *)
Definition csv_text (value : CsvValue) : string :=
  match value with
  | CsvText s => s
  | CsvNumber n => pretty n
  end.

(** Line 100: every double quote of the text is written twice. *)
Fixpoint double_quotes (text : string) : string :=
  match text with
  | EmptyString => EmptyString
  | String c rest =>
      if decide (c = QUOTE) then String QUOTE (String QUOTE (double_quotes rest))
      else String c (double_quotes rest)
  end.

(** Line 99: the text holds a double quote, a comma, a carriage return or
    a line feed. *)
Definition has_csv_special (text : string) : bool :=
  existsb (λ c, bool_decide (c ∈ [QUOTE; COMMA; CR; LF]))
          (String.list_ascii_of_string text).

Definition formatCsvValue (value : CsvValue) : string :=
  let text := csv_text value in
  if has_csv_special text
  then String QUOTE (double_quotes text +:+ String QUOTE EmptyString)
  else text.

Definition buildCsvContent (rows : list (list CsvValue)) : string :=
  String.concat (bytes [13; 10]%nat)
    ((λ row, String.concat "," (formatCsvValue <$> row)) <$> rows).

(** [value || fallback] on strings. *)
Definition or_else (value fallback : string) : string :=
  if decide (value = "") then fallback else value.

(** Line 92: the characters < > : / \ | ? * and the double quote, and the
    control characters below U+0020. *)
Definition unsafe_in_filename (c : ascii) : bool :=
  let n := Ascii.nat_of_ascii c in
  bool_decide (n ∈ [60; 62; 58; 34; 47; 92; 124; 63; 42]%nat)
  || bool_decide (n < 32)%nat.

Fixpoint remove_unsafe (s : string) : string :=
  match s with
  | EmptyString => EmptyString
  | String c rest =>
      if unsafe_in_filename c then remove_unsafe rest
      else String c (remove_unsafe rest)
  end.

(** [.replace(/\s+/g, '_')]: each maximal run of white space becomes one
    underscore. *)
Fixpoint collapse_spaces (fuel : nat) (s : string) : string :=
  match fuel with
  | O => s
  | S fuel' =>
      match drop_space WHITE_SPACE s with
      | Some r =>
          String "_" (collapse_spaces fuel'
                        (drop_spaces (String.length r) WHITE_SPACE r))
      | None =>
          match s with
          | EmptyString => EmptyString
          | String c rest => String c (collapse_spaces fuel' rest)
          end
      end
  end.

Definition sanitizeFilenamePart (value : string) : string :=
  let cleaned := remove_unsafe value in
  trim (collapse_spaces (String.length cleaned) cleaned).

Definition buildSubcategoryExportFilename (categoryName subcategoryName : string)
    : string :=
  let safeCategory := sanitizeFilenamePart categoryName in
  let safeSubcategory := sanitizeFilenamePart subcategoryName in
  let baseName :=
    String.concat "_"
      (filter (λ part, part ≠ "")
         [or_else safeCategory "category";
          or_else safeSubcategory "subcategory"; "stock"]) in
  or_else baseName "subcategory_stock" +:+ ".csv".

(** The file handed to the browser: its name and its text. *)
Record Download := mkDownload {
  download_filename : string;
  download_content : string;
}.

(** U+FEFF, the byte-order mark. *)
Definition BOM : string := bytes [239; 187; 191]%nat.

Definition downloadCsvFile (filename : string) (rows : list (list CsvValue))
    : Download :=
  {| download_filename := filename;
     download_content := BOM +:+ buildCsvContent rows |}.

Definition exportHeaderRow : list CsvValue :=
  CsvText "Name" :: CsvText "Image URL"
  :: ((λ size, CsvText (size_label size)) <$> SIZES).

Definition exportDataRow (item : InventoryItem) : list CsvValue :=
  CsvText (item_name item)
  :: CsvText (default "" (item_imageUrl item))
  :: ((λ size, CsvNumber (quantity (item_sizes item) size)) <$> SIZES).

(** [items] is the list given to [ProductStockView]: the products of the
    selected subcategory (line 836).  [None]: nothing is downloaded. *)
Definition handleExportSubcategory
    (selectedCategoryName selectedSubcategoryName : option string)
    (items : list InventoryItem) : option Download :=
  match selectedCategoryName, selectedSubcategoryName with
  | Some categoryName, Some subcategoryName =>
      if bool_decide (categoryName = "") || bool_decide (subcategoryName = "")
      then None
      else
        let filename := buildSubcategoryExportFilename categoryName subcategoryName in
        Some (downloadCsvFile filename
                (exportHeaderRow :: (exportDataRow <$> items)))
  | _, _ => None
  end.

(** Line 836: the products shown for the selection. *)
Definition itemsForProductStockView (items : list InventoryItem) (v : ViewState)
    : list InventoryItem :=
  filter (λ item, Some (item_category item) = selectedCategoryForView v
                  ∧ Some (item_subcategory item) = selectedSubcategoryForView v)
         items.

(** ** Predicates used in the statements *)

(** The product is found by name with its subcategory listed. *)
Definition valid_pair (categories : list CategoryDefinition) (item : InventoryItem)
    : Prop :=
  ∃ c, List.find (λ c, bool_decide (cat_name c = item_category item)) categories
       = Some c
       ∧ item_subcategory item ∈ cat_subcategories c.

Definition schedules_no_writes (o : Outcome) : Prop :=
  match o with
  | Issued updates => updates = ∅
  | _ => True
  end.

(** The view state that [handlePopState] sets from the entry recorded for
    a view state [v]: the selection is kept in stock mode and cleared in
    admin mode. *)
Definition restored (v : ViewState) : ViewState :=
  match viewMode v with
  | stock => v
  | admin => mkView admin None None
  end.

(** An entry that [handlePopState] ignores: [null] or without the tag. *)
Definition foreign (state : option AppHistoryState) : Prop :=
  match state with
  | None => True
  | Some st => __app st ≠ APP_HISTORY_KEY
  end.

(** ** The exported text as the specification words it

    These definitions follow section 6 of the specification ("CSV, UTF-8
    with byte-order-mark prefix, CRLF row separator, fields comma-joined,
    double-quote-escaped when containing comma/quote/newline; header row
    Name, Image URL, each Size; one row per product") and are compared with
    the functions of the source in the properties below.  A newline is
    either line-break character, carriage return or line feed. *)
Definition csv_needs_quotes (field : string) : Prop :=
  Exists (λ c, c = COMMA ∨ c = QUOTE ∨ c = CR ∨ c = LF)
         (String.list_ascii_of_string field).

#[global] Instance csv_needs_quotes_dec (field : string) :
  Decision (csv_needs_quotes field).
Proof. unfold csv_needs_quotes. apply _. Defined.

(** The field between double quotes, each inner double quote doubled. *)
Definition csv_quoted_spec (field : string) : string :=
  String.string_of_list_ascii
    ([QUOTE]
     ++ mjoin ((λ c, if decide (c = QUOTE) then [QUOTE; QUOTE] else [c])
               <$> String.list_ascii_of_string field)
     ++ [QUOTE]).

Definition csv_field_spec (field : string) : string :=
  if decide (csv_needs_quotes field) then csv_quoted_spec field else field.

(** The parts with the separator between each two of them. *)
Fixpoint joined_spec (sep : string) (parts : list string) : string :=
  match parts with
  | [] => ""
  | [part] => part
  | part :: rest => part +:+ sep +:+ joined_spec sep rest
  end.

Definition csv_header_spec : list string :=
  ["Name"; "Image URL"; "XS"; "S"; "M"; "L"; "XL"; "XXL"; "3XL"].

(** A quantity in decimal, 0 for a size that the product does not list. *)
Definition csv_quantity_spec (item : InventoryItem) (size : Size) : string :=
  match item_sizes item !! size with
  | Some n => pretty n
  | None => "0"
  end.

Definition csv_row_spec (item : InventoryItem) : list string :=
  [ item_name item;
    match item_imageUrl item with Some url => url | None => "" end;
    csv_quantity_spec item SzXS; csv_quantity_spec item SzS;
    csv_quantity_spec item SzM; csv_quantity_spec item SzL;
    csv_quantity_spec item SzXL; csv_quantity_spec item SzXXL;
    csv_quantity_spec item Sz3XL ].

Definition csv_line_spec (fields : list string) : string :=
  joined_spec "," (csv_field_spec <$> fields).

Definition csv_export_spec (items : list InventoryItem) : string :=
  BOM +:+ joined_spec (bytes [13; 10]%nat)
            (csv_line_spec <$> (csv_header_spec :: (csv_row_spec <$> items))).

(** ** Category management: [AdminCategoryManager] and the handlers of [App] *)

(** Lines 380-386. *)
Definition isCategoryInUse (items : list InventoryItem) (categoryName : string)
    : bool :=
  existsb (λ item, bool_decide (item_category item = categoryName)) items.

Definition isSubcategoryInUse (items : list InventoryItem)
    (categoryName subcategoryName : string) : bool :=
  existsb (λ item, bool_decide (item_category item = categoryName)
                   && bool_decide (item_subcategory item = subcategoryName))
          items.

(** Lines 1052-1054. *)
Definition getCategoryItemCount (items : list InventoryItem)
    (categoryName subcategoryName : string) : nat :=
  length (filter (λ item, item_category item = categoryName
                          ∧ item_subcategory item = subcategoryName) items).

Section CaseInsensitive.

(** [String.prototype.toLowerCase] is the platform's; the handlers are
    modelled over any such function. *)
Variable toLowerCase : string → string.

(** Lines 890-904.  The reference returned by [push] is written as it is;
    [push] always yields one with a key. *)
Definition handleAddCategory (categories : list CategoryDefinition)
    (push : KeyGen) (categoryName : string) : Outcome :=
  match List.find (λ c, bool_decide (toLowerCase (cat_name c)
                                     = toLowerCase categoryName)) categories with
  | Some _ => Returned
  | None =>
      match push "categories" with
      | Some key => Issued {[ CategoryPath key := VCategory categoryName ["Default"] ]}
      | None => Threw
      end
  end.


(** Lines 361-368: the "Add Category" button. *)
Definition handleAddCategoryInternal (categories : list CategoryDefinition)
    (push : KeyGen) (newCategoryName : string) : Outcome :=
  if bool_decide (trim newCategoryName ≠ "")
     && negb (bool_decide (is_Some
          (List.find (λ cat, bool_decide (toLowerCase (cat_name cat)
                                          = toLowerCase (trim newCategoryName)))
                     categories)))
  then handleAddCategory categories push (trim newCategoryName)
  else Returned.


End CaseInsensitive.

(** Lines 786-804.  [confirmed] is the answer to [window.confirm];
    [remove] writes null at the path. *)
Definition handleDeleteItem (confirmed : bool) (itemId : string) : Outcome :=
  if bool_decide (itemId = "") then Returned
  else if confirmed then Issued {[ ProductPath itemId := VNull ]}
  else Returned.

(** ** The stock browser: which cards are shown (lines 176-230) *)

Definition totalItemsInCategory (items : list InventoryItem)
    (category : CategoryDefinition) : nat :=
  foldl (λ sum subcat, (sum + getCategoryItemCount items (cat_name category) subcat)%nat)
        0%nat (cat_subcategories category).

(** Lines 180-187: [false] when the card of a category is left out. *)
Definition categoryCardShown (items : list InventoryItem)
    (category : CategoryDefinition) : bool :=
  let total := totalItemsInCategory items category in
  if bool_decide (cat_name category = "Uncategorized")
     && bool_decide (total = 0%nat)
     && negb (includes (cat_subcategories category) "Default")
  then false
  else if bool_decide (cat_name category = "Uncategorized")
          && bool_decide (total = 0%nat)
          && negb (bool_decide (length (cat_subcategories category) = 1%nat)
                   && bool_decide (head (cat_subcategories category) = Some "Default"))
  then false
  else true.

(** Lines 223-230: [false] when the card of a subcategory is left out. *)
Definition subcategoryCardShown (items : list InventoryItem)
    (category : CategoryDefinition) (subcategory : string) : bool :=
  let itemCount := getCategoryItemCount items (cat_name category) subcategory in
  if bool_decide (itemCount = 0%nat) && bool_decide (subcategory ≠ "Default")
  then false
  else if bool_decide (cat_name category = "Uncategorized")
          && bool_decide (subcategory = "Default")
          && bool_decide (itemCount = 0%nat)
          && bool_decide (1 < length (cat_subcategories category))%nat
          && existsb (λ s, bool_decide
                             (0 < getCategoryItemCount items (cat_name category) s)%nat)
                     (filter (λ s, s ≠ "Default") (cat_subcategories category))
  then false
  else true.

(** ** The product form: [ItemModal] (lines 1265-1491) *)

Record ItemModalFormData := mkForm {
  form_name : string;
  form_sku : string;
  form_category : string;
  form_subcategory : string;
  form_sizes : gmap Size Z;
  form_price : Q;
  form_description : option string;
  form_imageUrl : option string;
}.

(** [SIZES.reduce((acc, size) => { acc[size] = f(size); return acc; }, {})] *)
Definition sizesFrom (f : Size → Z) : gmap Size Z :=
  foldl (λ acc size, <[size := f size]> acc) ∅ SIZES.

(** [subs.includes('Default') ? 'Default' : (subs[0] || fallback)] *)
Definition defaultSubcategoryOf (category : CategoryDefinition) (fallback : string)
    : string :=
  if includes (cat_subcategories category) "Default" then "Default"
  else or_else (default "" (head (cat_subcategories category))) fallback.

(** [a || b] on the results of [find]. *)
Definition or_found {A} (a b : option A) : option A :=
  match a with
  | Some _ => a
  | None => b
  end.

(** Lines 1286-1342. *)
Definition getInitialFormData (item : option InventoryItem)
    (categories : list CategoryDefinition) : ItemModalFormData :=
  let uncategorizedCategory :=
    List.find (λ c, bool_decide (cat_name c = "Uncategorized")) categories in
  let firstAvailableCategory :=
    or_found (List.find (λ c, bool_decide (cat_name c ≠ "Uncategorized")) categories)
             (head categories) in
  match item with
  | Some item =>
      let selection :=
        match List.find (λ c, bool_decide (cat_name c = item_category item))
                        categories with
        | Some currentItemCategory =>
            (cat_name currentItemCategory,
             if includes (cat_subcategories currentItemCategory) (item_subcategory item)
             then item_subcategory item
             else defaultSubcategoryOf currentItemCategory "")
        | None =>
            match uncategorizedCategory with
            | Some uncat => (cat_name uncat, defaultSubcategoryOf uncat "Default")
            | None =>
                match firstAvailableCategory with
                | Some first => (cat_name first, defaultSubcategoryOf first "")
                | None => ("", "")
                end
            end
        end in
      {| form_name := item_name item;
         form_sku := item_sku item;
         form_category := selection.1;
         form_subcategory := selection.2;
         form_sizes := sizesFrom (quantity (item_sizes item));
         form_price := item_price item;
         form_description := Some (default "" (item_description item));
         form_imageUrl := Some (default "" (item_imageUrl item)) |}
  | None =>
      let selection :=
        if bool_decide (0 < length categories)%nat then
          match or_found (List.find (λ c, bool_decide (cat_name c ≠ "Uncategorized"))
                                    categories)
                         (or_found uncategorizedCategory (head categories)) with
          | Some preferred => (cat_name preferred, defaultSubcategoryOf preferred "")
          | None => ("", "")
          end
        else ("", "") in
      {| form_name := "";
         form_sku := "";
         form_category := selection.1;
         form_subcategory := selection.2;
         form_sizes := sizesFrom (λ _, 0);
         form_price := 0;
         form_description := Some "";
         form_imageUrl := Some "" |}
  end.

(** The keys of the [errors] object of [validate]. *)
Inductive FormField :=
| FieldName | FieldSku | FieldCategory | FieldSubcategory | FieldPrice
| FieldSize (size : Size).

(** Lines 1425-1454: the keys of [newErrors].  A quantity that is missing
    is not a number.  A price is a rational, so only its sign is tested. *)
Definition validationErrors (categories : list CategoryDefinition)
    (formData : ItemModalFormData) : list FormField :=
  (if bool_decide (trim (form_name formData) = "") then [FieldName] else [])
  ++ (if bool_decide (trim (form_sku formData) = "") then [FieldSku] else [])
  ++ (if bool_decide (form_category formData = "") then [FieldCategory]
      else
        match List.find (λ c, bool_decide (cat_name c = form_category formData))
                        categories with
        | None => [FieldCategory]
        | Some catDef =>
            if bool_decide (form_subcategory formData = "") then [FieldSubcategory]
            else if negb (includes (cat_subcategories catDef)
                                   (form_subcategory formData))
            then [FieldSubcategory]
            else []
        end)
  ++ (if negb (Qle_bool 0 (form_price formData)) then [FieldPrice] else [])
  ++ mjoin ((λ size,
               match form_sizes formData !! size with
               | Some sizeQuantity =>
                   if bool_decide (sizeQuantity < 0) then [FieldSize size] else []
               | None => [FieldSize size]
               end) <$> SIZES).

Definition validate (categories : list CategoryDefinition)
    (formData : ItemModalFormData) : bool :=
  bool_decide (length (validationErrors categories formData) = 0%nat).

(** Lines 1466-1476; [editingItemId || ''] is the id. *)
Definition itemDataForSave (editingItemId : option string)
    (formData : ItemModalFormData) : InventoryItem :=
  {| item_id := default "" editingItemId;
     item_name := trim (form_name formData);
     item_sku := trim (form_sku formData);
     item_category := form_category formData;
     item_subcategory := form_subcategory formData;
     item_sizes := form_sizes formData;
     item_price := form_price formData;
     item_description :=
       Some (match form_description formData with
             | Some d => trim d
             | None => ""
             end);
     item_imageUrl :=
       Some (match form_imageUrl formData with
             | Some url => trim url
             | None => ""
             end) |}.

(** Lines 1461-1491: [None] when validation stops the submission, else
    what [onSave], that is [handleSaveItem], did.  The 30 s race against a
    timer only decides what is reported, not what is written. *)
Definition handleSubmit (categories : list CategoryDefinition) (push : KeyGen)
    (editingItemId : option string) (formData : ItemModalFormData)
    : option Outcome :=
  if validate categories formData
  then Some (handleSaveItem categories push
               (Some (itemDataForSave editingItemId formData)))
  else None.

(** ** Snapshots (lines 645-681) *)

(** A product node as stored: the fields of a product, [sizes] possibly
    missing. *)
Record ProductNode := mkNode {
  node_name : string;
  node_sku : string;
  node_category : string;
  node_subcategory : string;
  node_sizes : option (gmap Size Z);
  node_price : Q;
  node_description : option string;
  node_imageUrl : option string;
}.

(** Lines 656-668: [data] is the keyed mapping of the snapshot, [None]
    for a null one. *)
Definition itemsFromSnapshot (data : option (list (string * ProductNode)))
    : list InventoryItem :=
  match data with
  | None => []
  | Some nodes =>
      (λ kv, {| item_id := kv.1;
                item_name := node_name kv.2;
                item_sku := node_sku kv.2;
                item_category := node_category kv.2;
                item_subcategory := node_subcategory kv.2;
                item_sizes := match node_sizes kv.2 with
                              | Some sizes => sizes
                              | None => sizesFrom (λ _, 0)
                              end;
                item_price := node_price kv.2;
                item_description := node_description kv.2;
                item_imageUrl := node_imageUrl kv.2 |}) <$> nodes
  end.

(** ** Sequences of navigation events *)

Inductive HistoryEvent :=
| EvNavigate (nav : ViewState → ViewState)  (* a handler of the application *)
| EvBack                                    (* native back *)
| EvForward.                                (* native forward *)

Definition step (e : HistoryEvent) (w : App * History) : App * History :=
  match e with
  | EvNavigate nav => navigate nav w
  | EvBack => back w
  | EvForward => forward w
  end.

Definition run (events : list HistoryEvent) (w : App * History) : App * History :=
  foldl (λ w e, step e w) w events.

(** ** The product form: the category effect and the category select *)

(** [{ ...prev, category, subcategory }] *)
Definition with_selection (formData : ItemModalFormData)
    (category subcategory : string) : ItemModalFormData :=
  {| form_name := form_name formData;
     form_sku := form_sku formData;
     form_category := category;
     form_subcategory := subcategory;
     form_sizes := form_sizes formData;
     form_price := form_price formData;
     form_description := form_description formData;
     form_imageUrl := form_imageUrl formData |}.

(** Lines 1355-1393: the form data after the effect that follows a change
    of [formData.category] or of the categories. *)
Definition categoryEffect (categories : list CategoryDefinition)
    (formData : ItemModalFormData) : ItemModalFormData :=
  let currentCategoryDef :=
    List.find (λ c, bool_decide (cat_name c = form_category formData)) categories in
  let chosen := bool_decide (form_category formData ≠ "") in
  let uncategorized :=
    List.find (λ c, bool_decide (cat_name c = "Uncategorized")) categories in
  match chosen, currentCategoryDef with
  | true, Some currentCategoryDef =>
      if negb (includes (cat_subcategories currentCategoryDef)
                        (form_subcategory formData))
      then with_selection formData (form_category formData)
             (defaultSubcategoryOf currentCategoryDef "")
      else formData
  | _, _ =>
      if chosen && bool_decide (0 < length categories)%nat then
        match or_found uncategorized (head categories) with
        | Some defaultCat =>
            with_selection formData (cat_name defaultCat)
              (defaultSubcategoryOf defaultCat "")
        | None => with_selection formData "" ""
        end
      else if bool_decide (length categories = 0%nat) then
        with_selection formData "" ""
      else
        match or_found (List.find (λ c, bool_decide (cat_name c ≠ "Uncategorized"))
                                  categories)
                       (or_found uncategorized (head categories)) with
        | Some preferredInitialCategory =>
            with_selection formData (cat_name preferredInitialCategory)
              (defaultSubcategoryOf preferredInitialCategory "")
        | None => formData
        end
  end.

(** Lines 1406-1414: [handleChange] for the category select. *)
Definition handleChangeCategory (categories : list CategoryDefinition)
    (value : string) (formData : ItemModalFormData) : ItemModalFormData :=
  with_selection formData value
    match List.find (λ c, bool_decide (cat_name c = value)) categories with
    | Some categoryObj => defaultSubcategoryOf categoryObj ""
    | None => ""
    end.

(** ** Further notions used in the statements *)

(** The subcategory list of the category with id [id] replaced by [subs]. *)
Definition with_subcategories (id : string) (subs : list string)
    (c : CategoryDefinition) : CategoryDefinition :=
  if decide (cat_id c = id) then mkCategory (cat_id c) (cat_name c) subs else c.

(** The generated category key is not the id of a category of the list. *)
Definition fresh_category_key (push : KeyGen)
    (categories : list CategoryDefinition) : Prop :=
  ∀ key, push "categories" = Some key → key ∉ cat_id <$> categories.

(** The generated product key is not the id of a product of the list. *)
Definition fresh_product_key (push : KeyGen) (items : list InventoryItem) : Prop :=
  ∀ key, push "products" = Some key → key ∉ item_id <$> items.

(** The paths of a batch are category paths only. *)
Definition category_paths_only (u : Updates) : Prop :=
  ∀ p, is_Some (u !! p) →
       ∃ key, p = CategoryPath key ∨ p = CategorySubcategoriesPath key.

(** The record of a product list with id [key] replaced by [d]. *)
Definition with_product (key : string) (d : ProductData) (i : InventoryItem)
    : InventoryItem :=
  if decide (item_id i = key) then item_of_product key d else i.

(** ** Consistency of the two collections

    What section 3 of the data model asks of the categories and of the
    products, on the lists of a snapshot. *)

(** Every category has a subcategory, and "Uncategorized" has "Default". *)
Definition category_list_ok (categories : list CategoryDefinition) : Prop :=
  ∀ c, c ∈ categories →
       cat_subcategories c ≠ []
       ∧ (cat_name c = "Uncategorized" → "Default" ∈ cat_subcategories c).

(** A product refers by name to a category of the list that lists the
    product's subcategory. *)
Definition refers_to_existing (categories : list CategoryDefinition)
    (item : InventoryItem) : Prop :=
  ∃ c, c ∈ categories
       ∧ cat_name c = item_category item
       ∧ item_subcategory item ∈ cat_subcategories c.

Definition consistent (categories : list CategoryDefinition)
    (items : list InventoryItem) : Prop :=
  NoDup (cat_id <$> categories)
  ∧ NoDup (cat_name <$> categories)
  ∧ category_list_ok categories
  ∧ NoDup (item_id <$> items)
  ∧ ∀ item, item ∈ items → refers_to_existing categories item.

(** The product with its category and subcategory set. *)
Definition relocated (category subcategory : string) (i : InventoryItem)
    : InventoryItem :=
  {| item_id := item_id i;
     item_name := item_name i;
     item_sku := item_sku i;
     item_category := category;
     item_subcategory := subcategory;
     item_sizes := item_sizes i;
     item_price := item_price i;
     item_description := item_description i;
     item_imageUrl := item_imageUrl i |}.

(** A later category list [after] extends [before]: it is well formed when
    [before] is, and a product that refers to an existing pair still does. *)
Definition extends (before after : list CategoryDefinition) : Prop :=
  (NoDup (cat_id <$> before) → NoDup (cat_id <$> after))
  ∧ (NoDup (cat_name <$> before) → NoDup (cat_name <$> after))
  ∧ (category_list_ok before → category_list_ok after)
  ∧ ∀ item, refers_to_existing before item → refers_to_existing after item.

(** The products that satisfy [P] relocated, the others as they are. *)
Definition relocated_if (P : InventoryItem → Prop) `{!∀ i, Decision (P i)}
    (category subcategory : string) (i : InventoryItem) : InventoryItem :=
  if decide (P i) then relocated category subcategory i else i.

(** [k] sales of one size of one product, each on the list of the
    snapshot that follows the one before. *)
Definition sellTimes (k : nat) (itemId : string) (sizeToSell : Size)
    (items : list InventoryItem) : list InventoryItem :=
  Nat.iter k
    (λ items, items_after_outcome (handleSellItemSize items itemId sizeToSell) items)
    items.

(** ** The browser history and the application *)

(** An entry that this code has written. *)
Definition written_by_app (e : option AppHistoryState) : Prop :=
  ∃ v i, e = Some (buildHistoryState v i).

(** The history agrees with the application: the first render is over, the
    cursor is on an entry, every entry was written by this code, and the
    current entry carries the index of the application and restores to the
    view that is shown. *)
Definition in_step (w : App * History) : Prop :=
  isInitialHistoryRef w.1 = false
  ∧ (cursor w.2 < length (entries w.2))%nat
  ∧ (∀ k e, entries w.2 !! k = Some e → written_by_app e)
  ∧ ∃ v, history_state w.2 = Some (buildHistoryState v (historyIndexRef w.1))
         ∧ restored v = restored (view w.1).

(** ** Concrete data used in the examples *)

(** A key generator: one fixed non-empty key per collection. *)
Definition examplePush : KeyGen := λ collection, Some ("-N" +:+ collection).

Definition shoes : CategoryDefinition := mkCategory "c1" "Shoes" ["Default"].

Definition hats : CategoryDefinition := mkCategory "c2" "Hats" ["Caps"; "Default"].

Definition bags : CategoryDefinition := mkCategory "c3" "Bags" ["Totes"].

(** The product of the end-to-end example of the specification. *)
Definition runner : InventoryItem :=
  {| item_id := "p1";
     item_name := "Runner";
     item_sku := "SH-1";
     item_category := "Shoes";
     item_subcategory := "Default";
     item_sizes := {[ SzM := 3 ]};
     item_price := 50 # 1;
     item_description := None;
     item_imageUrl := None |}.

Definition cap : InventoryItem :=
  {| item_id := "p2";
     item_name := "Cap";
     item_sku := "HT-1";
     item_category := "Hats";
     item_subcategory := "Caps";
     item_sizes := {[ SzS := 2; SzM := 0 ]};
     item_price := 12 # 1;
     item_description := Some "A cap";
     item_imageUrl := Some " http://img/cap.png " |}.

Definition tote : InventoryItem :=
  {| item_id := "p3";
     item_name := "Tote";
     item_sku := "BG-1";
     item_category := "Bags";
     item_subcategory := "Totes";
     item_sizes := ∅;
     item_price := 20 # 1;
     item_description := None;
     item_imageUrl := None |}.

(** The product of the export example: one unit left in size M. *)
Definition runnerSold : InventoryItem :=
  {| item_id := "p1";
     item_name := "Runner";
     item_sku := "SH-1";
     item_category := "Shoes";
     item_subcategory := "Default";
     item_sizes := {[ SzM := 1 ]};
     item_price := 50 # 1;
     item_description := None;
     item_imageUrl := None |}.

(** The product of the end-to-end example before it has a key. *)
Definition runnerForm : InventoryItem :=
  {| item_id := "";
     item_name := "Runner";
     item_sku := "SH-1";
     item_category := "Shoes";
     item_subcategory := "Default";
     item_sizes := {[ SzM := 3 ]};
     item_price := 50 # 1;
     item_description := Some "";
     item_imageUrl := Some "" |}.

Definition beanie : InventoryItem :=
  {| item_id := "p4";
     item_name := "Beanie";
     item_sku := "HT-2";
     item_category := "Hats";
     item_subcategory := "Default";
     item_sizes := {[ SzL := 4 ]};
     item_price := 9 # 1;
     item_description := None;
     item_imageUrl := None |}.

(** A product of a subcategory that Bags does not list. *)
Definition clutch : InventoryItem :=
  {| item_id := "p5";
     item_name := "Clutch";
     item_sku := "BG-2";
     item_category := "Bags";
     item_subcategory := "Clutches";
     item_sizes := {[ SzS := 1 ]};
     item_price := 30 # 1;
     item_description := None;
     item_imageUrl := None |}.

(** Lower case on the letters A-Z, as [toLowerCase] acts on ASCII text. *)
Definition asciiLower (c : Ascii.ascii) : Ascii.ascii :=
  let n := Ascii.N_of_ascii c in
  if ((65 <=? n) && (n <=? 90))%N then Ascii.ascii_of_N (n + 32) else c.

Fixpoint asciiLowerCase (s : string) : string :=
  match s with
  | EmptyString => EmptyString
  | String c r => String (asciiLower c) (asciiLowerCase r)
  end.

(** * Properties *)

(** ** Helper lemmas *)

Lemma find_none_iff {A} (f : A → bool) (l : list A) :
  List.find f l = None ↔ ∀ x, x ∈ l → f x = false.
Proof.
  induction l as [|a l IH]; simpl.
  - split; [intros _ x Hx; inversion Hx | done].
  - destruct (f a) eqn:Ha.
    + split; [done | intros H; specialize (H a (list_elem_of_here _ _)); congruence].
    + rewrite IH. split.
      * intros H x [->|Hx]%elem_of_cons; auto.
      * intros H x Hx. apply H. by right.
Qed.

Lemma find_some_elem {A} (f : A → bool) (l : list A) (x : A) :
  List.find f l = Some x → x ∈ l ∧ f x = true.
Proof.
  induction l as [|a l IH]; simpl; [done|].
  destruct (f a) eqn:Ha.
  - intros [= <-]. split; [left | done].
  - intros [? ?]%IH. split; [by right | done].
Qed.

Lemma elem_of_set_spread (x : string) (l : list string) :
  x ∈ set_spread l ↔ x ∈ l.
Proof.
  induction l as [|a l IH]; simpl; [done|].
  rewrite !elem_of_cons, list_elem_of_filter, IH.
  split.
  - intros [->|[_ Hx]]; [by left | by right].
  - intros [->|Hx]; [by left|].
    destruct (decide (x = a)) as [->|Hne]; [by left | by right].
Qed.

Lemma elem_of_js_sort (x : string) (l : list string) :
  x ∈ js_sort l ↔ x ∈ l.
Proof. unfold js_sort. by rewrite merge_sort_Permutation. Qed.

Lemma elem_of_with_default (x : string) (subs : list string) :
  x ∈ with_default subs ↔ x ∈ subs ∨ x = "Default".
Proof.
  unfold with_default.
  rewrite elem_of_js_sort, elem_of_set_spread, elem_of_app, list_elem_of_singleton.
  done.
Qed.

Lemma includes_true (l : list string) (x : string) :
  includes l x = true ↔ x ∈ l.
Proof. unfold includes. apply bool_decide_eq_true. Qed.

Lemma includes_false (l : list string) (x : string) :
  includes l x = false ↔ x ∉ l.
Proof. unfold includes. apply bool_decide_eq_false. Qed.

Lemma size_insert_pos (p : Path) (v : Value) (u : Updates) :
  bool_decide (0 < size (<[p := v]> u))%nat = true.
Proof.
  apply bool_decide_eq_true.
  destruct (u !! p) eqn:E.
  - rewrite map_size_insert_Some by eauto.
    assert (size u ≠ 0%nat); [|lia].
    intros ->%map_size_empty_inv. by rewrite lookup_empty in E.
  - rewrite map_size_insert_None by done. lia.
Qed.

Lemma usable_key_generated (push : KeyGen) (collection : string) :
  generates_keys push →
  ∃ key, usable_key (push collection) = Some key ∧ push collection = Some key ∧ key ≠ "".
Proof.
  intros H. destruct (H collection) as (key & -> & Hne).
  exists key. simpl. by rewrite decide_False.
Qed.

(** In a list built from a snapshot the keys are distinct, and looking a
    record up by its key finds that record. *)
Lemma find_by_key {A} (key : A → string) (l : list A) (x : A) :
  NoDup (key <$> l) → x ∈ l →
  List.find (λ y, bool_decide (key y = key x)) l = Some x.
Proof.
  induction l as [|a l IH]; [by intros _ ?%elem_of_nil|].
  rewrite fmap_cons, NoDup_cons. intros [Hfresh Hnodup] Hin. cbn [List.find].
  apply elem_of_cons in Hin as [->|Hin].
  - by rewrite bool_decide_eq_true_2.
  - rewrite bool_decide_eq_false_2; [by apply IH|].
    intros Heq. apply Hfresh. rewrite Heq. by apply list_elem_of_fmap_2.
Qed.

Lemma categories_after_kept (u : Updates) (categories : list CategoryDefinition)
    (c c' : CategoryDefinition) :
  c ∈ categories → category_after u c = Some c' → c' ∈ categories_after u categories.
Proof.
  intros Hc Hafter. unfold categories_after.
  apply elem_of_app. left. apply list_elem_of_omap. eauto.
Qed.

Lemma categories_after_written (u : Updates) (categories : list CategoryDefinition)
    (key name : string) (subs : list string) :
  u !! CategoryPath key = Some (VCategory name subs) →
  mkCategory key name subs ∈ categories_after u categories.
Proof.
  intros Hu. destruct (decide (key ∈ cat_id <$> categories)) as [Hin|Hout].
  - apply list_elem_of_fmap in Hin as (c & -> & Hc).
    apply (categories_after_kept u categories c); [done|].
    unfold category_after. by rewrite Hu.
  - unfold categories_after. apply elem_of_app. right.
    apply list_elem_of_omap. exists (CategoryPath key, VCategory name subs).
    split; [by apply elem_of_map_to_list|].
    simpl. by rewrite bool_decide_eq_false_2.
Qed.


(** The product write of [handleSaveItem], once the reconciliation has
    produced its part of the batch. *)
Lemma handleSaveItem_issued (categories : list CategoryDefinition) (push : KeyGen)
    (item : InventoryItem) (vc vs : string) (u : Updates) :
  generates_keys push →
  reconcile categories push item = Some (vc, vs, u) →
  ∃ productKey,
    handleSaveItem categories push (Some item)
    = Issued (<[ProductPath productKey := VProduct (finalItemData item vc vs)]> u)
    ∧ (item_id item ≠ "" → productKey = item_id item)
    ∧ (item_id item = "" → push "products" = Some productKey).
Proof.
  intros Hgen Hrec.
  destruct (usable_key_generated push "products" Hgen) as (pk & Hpk & Hpush & _).
  unfold handleSaveItem. rewrite Hrec. cbv zeta.
  destruct (decide (item_id item ≠ "")) as [Hid|Hid].
  - exists (item_id item). rewrite size_insert_pos. by split.
  - exists pk. rewrite Hpk, size_insert_pos. by split.
Qed.

(** The reconciliation of a product whose category is not in the list. *)
Lemma reconcile_unknown_category (categories : list CategoryDefinition)
    (push : KeyGen) (item : InventoryItem) :
  generates_keys push →
  (∀ c, c ∈ categories → cat_name c ≠ item_category item) →
  ∃ u, reconcile categories push item = Some ("Uncategorized", "Default", u)
       ∧ match List.find (λ c, bool_decide (cat_name c = "Uncategorized")) categories with
         | None =>
             ∃ key, push "categories" = Some key
                    ∧ u = {[ CategoryPath key := VCategory "Uncategorized" ["Default"] ]}
         | Some uncat =>
             if includes (cat_subcategories uncat) "Default" then u = ∅
             else u = {[ CategorySubcategoriesPath (cat_id uncat) :=
                           VStrings (with_default (cat_subcategories uncat)) ]}
         end.
Proof.
  intros Hgen Hmissing.
  assert (List.find (λ c, bool_decide (cat_name c = item_category item)) categories
          = None) as Hfind.
  { apply find_none_iff. intros c Hc. apply bool_decide_eq_false. auto. }
  destruct (usable_key_generated push "categories" Hgen) as (ck & Hck & Hpush & _).
  unfold reconcile. rewrite Hfind. clear Hfind.
  destruct (List.find _ categories) as [uncat|].
  - destruct (includes (cat_subcategories uncat) "Default") eqn:Hinc; cbn [negb];
      (eexists; split; [reflexivity|]); done.
  - rewrite Hck. eexists; split; [reflexivity|]. by exists ck.
Qed.

(** C1. A product whose category is not in the category list is written
    under "Uncategorized" / "Default"; the same batch creates the
    "Uncategorized" category with subcategories ["Default"] when the list has
    none, or rewrites the subcategories of the existing one with "Default"
    added when it lacks it; once the batch is carried out the category list
    holds an "Uncategorized" entry with "Default" among its subcategories. *)
Theorem save_unknown_category_goes_to_uncategorized
    (categories : list CategoryDefinition) (push : KeyGen) (item : InventoryItem) :
  generates_keys push →
  (∀ c, c ∈ categories → cat_name c ≠ item_category item) →
  ∃ updates productKey d,
    handleSaveItem categories push (Some item) = Issued updates
    ∧ updates !! ProductPath productKey = Some (VProduct d)
    ∧ (item_id item ≠ "" → productKey = item_id item)
    ∧ pd_category d = "Uncategorized"
    ∧ pd_subcategory d = "Default"
    ∧ match List.find (λ c, bool_decide (cat_name c = "Uncategorized")) categories with
      | None =>
          ∃ key, push "categories" = Some key
                 ∧ updates !! CategoryPath key
                   = Some (VCategory "Uncategorized" ["Default"])
      | Some uncat =>
          "Default" ∉ cat_subcategories uncat →
          ∃ subs, updates !! CategorySubcategoriesPath (cat_id uncat)
                  = Some (VStrings subs)
                  ∧ ∀ s, s ∈ subs ↔ s ∈ cat_subcategories uncat ∨ s = "Default"
      end
    ∧ ∃ c, c ∈ categories_after updates categories
           ∧ cat_name c = "Uncategorized"
           ∧ "Default" ∈ cat_subcategories c.
Proof.
  intros Hgen Hmissing.
  destruct (reconcile_unknown_category categories push item Hgen Hmissing)
    as (u & Hrec & Hu).
  destruct (handleSaveItem_issued categories push item _ _ u Hgen Hrec)
    as (productKey & Hsave & Hkey & _).
  eexists _, productKey, _. split; [exact Hsave|].
  split; [apply lookup_insert_eq|].
  do 3 (split; [done|]).
  destruct (List.find _ categories) as [uncat|] eqn:Huncat.
  - apply find_some_elem in Huncat as [Hin Hname].
    apply bool_decide_eq_true in Hname.
    destruct (includes (cat_subcategories uncat) "Default") eqn:Hinc; subst u.
    + apply includes_true in Hinc. split; [done|].
      exists uncat. split; [|done].
      apply (categories_after_kept _ _ uncat); [done|].
      unfold category_after.
      by rewrite !lookup_insert_ne, !lookup_empty by done.
    + apply includes_false in Hinc. split.
      * intros _. eexists. split.
        -- rewrite lookup_insert_ne by done. apply lookup_singleton_eq.
        -- intros s. apply elem_of_with_default.
      * exists (mkCategory (cat_id uncat) (cat_name uncat)
                  (with_default (cat_subcategories uncat))).
        split; [|split; [done|apply elem_of_with_default; by right]].
        apply (categories_after_kept _ _ uncat); [done|].
        unfold category_after.
        rewrite lookup_insert_ne, lookup_singleton_ne by done.
        by rewrite lookup_insert_ne, lookup_singleton_eq by done.
  - destruct Hu as (ck & Hpush & ->). split.
    + exists ck. split; [done|].
      rewrite lookup_insert_ne by done. apply lookup_singleton_eq.
    + exists (mkCategory ck "Uncategorized" ["Default"]).
      split; [|split; [done|by left]].
      apply categories_after_written.
      rewrite lookup_insert_ne by done. apply lookup_singleton_eq.
Qed.

(** The example key generator always yields a key. *)
Lemma examplePush_generates_keys : generates_keys examplePush.
Proof. intros collection. eexists. split; [reflexivity | discriminate]. Qed.

(** C1 on concrete data: a cap of the missing category Hats is saved. *)
Lemma save_unknown_category_witness :
  generates_keys examplePush
  ∧ (∀ c, c ∈ [shoes] → cat_name c ≠ item_category cap)
  ∧ ∃ c, c ∈ categories_after
             (match handleSaveItem [shoes] examplePush (Some cap) with
              | Issued updates => updates
              | _ => ∅
              end) [shoes]
         ∧ cat_name c = "Uncategorized"
         ∧ "Default" ∈ cat_subcategories c.
Proof.
  assert (∀ c, c ∈ [shoes] → cat_name c ≠ item_category cap) as Hmissing.
  { intros c ->%list_elem_of_singleton. discriminate. }
  split; [exact examplePush_generates_keys|].
  split; [exact Hmissing|].
  destruct (save_unknown_category_goes_to_uncategorized [shoes] examplePush cap
              examplePush_generates_keys Hmissing)
    as (updates & productKey & d & Hsave & _ & _ & _ & _ & _ & Hafter).
  rewrite Hsave. exact Hafter.
Defined.


(** ** Saving a product that is already valid *)

Lemma reconcile_valid_pair (categories : list CategoryDefinition) (push : KeyGen)
    (item : InventoryItem) :
  valid_pair categories item →
  reconcile categories push item
  = Some (item_category item, item_subcategory item, ∅).
Proof.
  intros (c & Hfind & Hsub). unfold reconcile. rewrite Hfind.
  apply includes_true in Hsub. by rewrite Hsub.
Qed.

Lemma omap_all_some {A} (f : A → option A) (l : list A) :
  (∀ x, x ∈ l → f x = Some x) → omap f l = l.
Proof.
  induction l as [|a l IH]; intros H; simpl; [done|].
  rewrite (H a) by left. f_equal. apply IH. intros x Hx. apply H. by right.
Qed.

(** C5 as stated fails: the save of a valid product still issues the write
    of its record. *)
Lemma save_valid_product_writes_it :
  ¬ (∀ categories push item,
       valid_pair categories item →
       schedules_no_writes (handleSaveItem categories push (Some item))).
Proof.
  intros H.
  assert (valid_pair [shoes] runner) as Hvalid.
  { exists shoes. split; [reflexivity | by left]. }
  specialize (H [shoes] examplePush runner Hvalid).
  destruct (handleSaveItem_issued [shoes] examplePush runner _ _ ∅
              examplePush_generates_keys
              (reconcile_valid_pair [shoes] examplePush runner Hvalid))
    as (productKey & Hsave & _).
  rewrite Hsave in H. cbn [schedules_no_writes] in H.
  by apply insert_non_empty in H.
Qed.

(** C5 (amended). Saving a product whose (category, subcategory) pair is
    valid schedules no category repair: the batch holds exactly one write,
    the product record itself, with its category and subcategory as given,
    and the category list is the same after the batch. *)
Theorem save_valid_product_writes_only_the_product
    (categories : list CategoryDefinition) (push : KeyGen) (item : InventoryItem) :
  generates_keys push →
  valid_pair categories item →
  ∃ productKey d,
    handleSaveItem categories push (Some item)
    = Issued {[ ProductPath productKey := VProduct d ]}
    ∧ (item_id item ≠ "" → productKey = item_id item)
    ∧ pd_category d = item_category item
    ∧ pd_subcategory d = item_subcategory item
    ∧ categories_after {[ ProductPath productKey := VProduct d ]} categories
      = categories.
Proof.
  intros Hgen Hvalid.
  pose proof (reconcile_valid_pair categories push item Hvalid) as Hrec.
  destruct (handleSaveItem_issued categories push item _ _ ∅ Hgen Hrec)
    as (productKey & Hsave & Hkey & _).
  exists productKey, (finalItemData item (item_category item) (item_subcategory item)).
  split; [exact Hsave|]. do 3 (split; [done|]).
  unfold categories_after. rewrite map_to_list_singleton. simpl.
  rewrite app_nil_r. apply omap_all_some. intros c _.
  unfold category_after. by rewrite !lookup_singleton_ne by done.
Qed.

(** C5 (amended) on concrete data. *)
Lemma save_valid_product_witness :
  generates_keys examplePush
  ∧ valid_pair [shoes] runner
  ∧ ∃ productKey d,
      handleSaveItem [shoes] examplePush (Some runner)
      = Issued {[ ProductPath productKey := VProduct d ]}
      ∧ productKey = "p1"
      ∧ pd_category d = "Shoes"
      ∧ pd_subcategory d = "Default".
Proof.
  assert (valid_pair [shoes] runner) as Hvalid.
  { exists shoes. split; [reflexivity | by left]. }
  split; [exact examplePush_generates_keys|]. split; [exact Hvalid|].
  destruct (save_valid_product_writes_only_the_product [shoes] examplePush runner
              examplePush_generates_keys Hvalid)
    as (productKey & d & Hsave & Hkey & Hcat & Hsub & _).
  exists productKey, d. split; [exact Hsave|].
  split; [apply Hkey; discriminate|]. by split.
Defined.

(** ** What a save writes of the product *)

(** The reconciliation step only ever schedules category paths. *)
Lemma reconcile_total (categories : list CategoryDefinition) (push : KeyGen)
    (item : InventoryItem) :
  generates_keys push →
  ∃ vc vs u,
    reconcile categories push item = Some (vc, vs, u)
    ∧ ∀ p, is_Some (u !! p) →
           ∃ key, p = CategoryPath key ∨ p = CategorySubcategoriesPath key.
Proof.
  intros Hgen.
  destruct (usable_key_generated push "categories" Hgen) as (ck & Hck & _ & _).
  assert (∀ (q : Path) (v : Value) (p : Path),
            (∃ key, q = CategoryPath key ∨ q = CategorySubcategoriesPath key) →
            is_Some (({[ q := v ]} : Updates) !! p) →
            ∃ key, p = CategoryPath key ∨ p = CategorySubcategoriesPath key)
    as Hone.
  { intros q v p Hq [w Hw]. apply lookup_singleton_Some in Hw as [<- _]. exact Hq. }
  assert (∀ p : Path, is_Some ((∅ : Updates) !! p) →
            ∃ key, p = CategoryPath key ∨ p = CategorySubcategoriesPath key)
    as Hnone.
  { intros p [w Hw]. by rewrite lookup_empty in Hw. }
  unfold reconcile.
  destruct (List.find (λ c, bool_decide (cat_name c = item_category item)) categories)
    as [categoryDef|].
  - destruct (includes (cat_subcategories categoryDef) (item_subcategory item));
      cbn [negb]; [by eexists _, _, _|].
    destruct (includes (cat_subcategories categoryDef) "Default");
      cbn [negb]; [by eexists _, _, _|].
    eexists _, _, _. split; [reflexivity|]. intros p. apply Hone. eauto.
  - destruct (List.find (λ c, bool_decide (cat_name c = "Uncategorized")) categories)
      as [uncat|].
    + destruct (includes (cat_subcategories uncat) "Default");
        cbn [negb]; [by eexists _, _, _|].
      eexists _, _, _. split; [reflexivity|]. intros p. apply Hone. eauto.
    + rewrite Hck. eexists _, _, _. split; [reflexivity|].
      intros p. apply Hone. eauto.
Qed.

(** C10. The product record written by a save has the name, sku, sizes,
    price and description of the item it was given; the image URL is the
    trimmed one, empty when absent.  Only the category and subcategory may
    differ, and besides this one record the batch holds category paths
    only: no quantity and no price is written anywhere else. *)
Theorem save_keeps_product_fields
    (categories : list CategoryDefinition) (push : KeyGen) (item : InventoryItem) :
  generates_keys push →
  ∃ updates productKey d,
    handleSaveItem categories push (Some item) = Issued updates
    ∧ updates !! ProductPath productKey = Some (VProduct d)
    ∧ (item_id item ≠ "" → productKey = item_id item)
    ∧ pd_name d = item_name item
    ∧ pd_sku d = item_sku item
    ∧ pd_sizes d = item_sizes item
    ∧ pd_price d = item_price item
    ∧ pd_description d = item_description item
    ∧ pd_imageUrl d = match item_imageUrl item with
                      | Some url => trim url
                      | None => ""
                      end
    ∧ ∀ p, is_Some (updates !! p) →
           p = ProductPath productKey
           ∨ ∃ key, p = CategoryPath key ∨ p = CategorySubcategoriesPath key.
Proof.
  intros Hgen.
  destruct (reconcile_total categories push item Hgen) as (vc & vs & u & Hrec & Hu).
  destruct (handleSaveItem_issued categories push item vc vs u Hgen Hrec)
    as (productKey & Hsave & Hkey & _).
  eexists _, productKey, _. split; [exact Hsave|].
  split; [apply lookup_insert_eq|].
  do 7 (split; [done|]).
  intros p Hp. destruct (decide (p = ProductPath productKey)) as [->|Hne].
  - by left.
  - right. apply Hu. by rewrite lookup_insert_ne in Hp.
Qed.

(** C10 on concrete data: the image URL is written trimmed. *)
Lemma save_keeps_product_fields_witness :
  generates_keys examplePush
  ∧ ∃ updates d,
      handleSaveItem [shoes] examplePush (Some cap) = Issued updates
      ∧ updates !! ProductPath "p2" = Some (VProduct d)
      ∧ pd_name d = "Cap"
      ∧ pd_sizes d = {[ SzS := 2; SzM := 0 ]}
      ∧ pd_imageUrl d = "http://img/cap.png".
Proof.
  split; [exact examplePush_generates_keys|].
  destruct (save_keeps_product_fields [shoes] examplePush cap
              examplePush_generates_keys)
    as (updates & productKey & d & Hsave & Hd & Hkey & Hname & _ & Hsizes & _ & _
        & Himg & _).
  exists updates, d. split; [exact Hsave|].
  specialize (Hkey ltac:(discriminate)). subst productKey. split; [exact Hd|].
  split; [exact Hname|]. split; [exact Hsizes|]. rewrite Himg. reflexivity.
Defined.

(** ** Deleting a category *)

Lemma reassign_to_uncategorized_snoc (u : Updates) (l : list InventoryItem)
    (item : InventoryItem) :
  reassign_to_uncategorized u (l ++ [item])
  = <[ProductSubcategoryPath (item_id item) := VString "Default"]>
      (<[ProductCategoryPath (item_id item) := VString "Uncategorized"]>
         (reassign_to_uncategorized u l)).
Proof. unfold reassign_to_uncategorized. by rewrite foldl_snoc. Qed.

(** Every reassigned product gets both fields written. *)
Lemma reassign_to_uncategorized_item (u : Updates) (l : list InventoryItem)
    (item : InventoryItem) :
  item ∈ l →
  reassign_to_uncategorized u l !! ProductCategoryPath (item_id item)
  = Some (VString "Uncategorized")
  ∧ reassign_to_uncategorized u l !! ProductSubcategoryPath (item_id item)
    = Some (VString "Default").
Proof.
  induction l as [|x l IH] using rev_ind; [by intros ?%elem_of_nil|].
  rewrite reassign_to_uncategorized_snoc.
  intros [Hin | ->%list_elem_of_singleton]%elem_of_app.
  - destruct (IH Hin) as [Hc Hs].
    destruct (decide (item_id x = item_id item)) as [->|Hne].
    + split.
      * rewrite lookup_insert_ne by done. apply lookup_insert_eq.
      * apply lookup_insert_eq.
    + split; rewrite !lookup_insert_ne by congruence; done.
  - split.
    + rewrite lookup_insert_ne by done. apply lookup_insert_eq.
    + apply lookup_insert_eq.
Qed.

(** The category paths of the batch are not touched by the reassignment. *)
Lemma reassign_to_uncategorized_other (u : Updates) (l : list InventoryItem)
    (p : Path) :
  (∀ id, p ≠ ProductCategoryPath id ∧ p ≠ ProductSubcategoryPath id) →
  reassign_to_uncategorized u l !! p = u !! p.
Proof.
  intros Hp. induction l as [|x l IH] using rev_ind; [done|].
  rewrite reassign_to_uncategorized_snoc.
  destruct (Hp (item_id x)) as [Hc Hs].
  by rewrite !lookup_insert_ne.
Qed.

Lemma category_after_id (u : Updates) (c c' : CategoryDefinition) :
  category_after u c = Some c' → cat_id c' = cat_id c.
Proof.
  unfold category_after. intros H.
  repeat case_match; by simplify_eq.
Qed.

Lemma created_category_Some (categories : list CategoryDefinition)
    (p : Path) (v : Value) (c : CategoryDefinition) :
  created_category categories (p, v) = Some c →
  p = CategoryPath (cat_id c) ∧ v = VCategory (cat_name c) (cat_subcategories c).
Proof.
  unfold created_category. intros H.
  repeat case_match; by simplify_eq.
Qed.

(** C2. Deleting a category other than "Uncategorized" issues one batch
    that moves every product of the category to "Uncategorized" / "Default"
    and writes null at the category's path, creating the "Uncategorized"
    category or adding "Default" to it in the same batch when needed; with
    the name "Uncategorized" the handler returns before any write. *)
Theorem delete_category_moves_products :
  (∀ (categories : list CategoryDefinition) (items : list InventoryItem)
     (push : KeyGen) (accepted : Updates → bool) (view : ViewState)
     (c : CategoryDefinition),
     generates_keys push →
     (∀ key, push "categories" = Some key → key ≠ cat_id c) →
     cat_name c ≠ "Uncategorized" →
     cat_id c ≠ "" →
     ∃ updates,
       (handleDeleteCategory categories items push accepted view
          (cat_id c) (cat_name c)).1 = Issued updates
       ∧ (∀ item, item ∈ items → item_category item = cat_name c →
            updates !! ProductCategoryPath (item_id item)
            = Some (VString "Uncategorized")
            ∧ updates !! ProductSubcategoryPath (item_id item)
              = Some (VString "Default"))
       ∧ updates !! CategoryPath (cat_id c) = Some VNull
       ∧ (∀ c', c' ∈ categories_after updates categories → cat_id c' ≠ cat_id c)
       ∧ match List.find (λ c, bool_decide (cat_name c = "Uncategorized")) categories with
         | None =>
             ∃ key, push "categories" = Some key
                    ∧ updates !! CategoryPath key
                      = Some (VCategory "Uncategorized" ["Default"])
         | Some uncat =>
             "Default" ∉ cat_subcategories uncat →
             ∃ subs, updates !! CategorySubcategoriesPath (cat_id uncat)
                     = Some (VStrings subs)
                     ∧ ∀ s, s ∈ subs ↔ s ∈ cat_subcategories uncat ∨ s = "Default"
         end)
  ∧ (∀ (categories : list CategoryDefinition) (items : list InventoryItem)
       (push : KeyGen) (accepted : Updates → bool) (view : ViewState)
       (categoryId : string),
       handleDeleteCategory categories items push accepted view
         categoryId "Uncategorized" = (Returned, view)).
Proof.
  split; [|done].
  intros categories items push accepted view c Hgen Hfresh Hname Hid.
  destruct (usable_key_generated push "categories" Hgen) as (ck & Hck & Hpush & _).
  unfold handleDeleteCategory.
  rewrite (bool_decide_eq_false_2 _ Hname), (bool_decide_eq_false_2 _ Hid).
  cbn [orb].
  assert (∃ fixed,
            deleteCategoryUpdates categories items push (cat_id c) (cat_name c)
            = Some (<[CategoryPath (cat_id c) := VNull]>
                      (reassign_to_uncategorized fixed
                         (filter (λ item, item_category item = cat_name c) items)))
            ∧ match List.find (λ c, bool_decide (cat_name c = "Uncategorized"))
                      categories with
              | None => fixed = {[ CategoryPath ck :=
                                     VCategory "Uncategorized" ["Default"] ]}
              | Some uncat =>
                  "Default" ∉ cat_subcategories uncat →
                  fixed = {[ CategorySubcategoriesPath (cat_id uncat) :=
                               VStrings (with_default (cat_subcategories uncat)) ]}
              end) as (fixed & Hupd & Hfixed).
  { unfold deleteCategoryUpdates.
    destruct (List.find _ categories) as [uncat|].
    - destruct (includes (cat_subcategories uncat) "Default") eqn:Hinc; cbn [negb];
        (eexists; split; [reflexivity|]); [|done].
      apply includes_true in Hinc. by intros ?.
    - rewrite Hck. by eexists. }
  rewrite Hupd.
  eexists. split.
  { by destruct (accepted _ && _). }
  split.
  { intros item Hin Hcat.
    rewrite !lookup_insert_ne by done.
    apply reassign_to_uncategorized_item. by apply list_elem_of_filter. }
  split; [apply lookup_insert_eq|].
  split.
  { intros c' [Hkept|Hnew]%elem_of_app Heq.
    - apply list_elem_of_omap in Hkept as (c0 & _ & Hc0).
      assert (cat_id c0 = cat_id c) as Hid0.
      { by rewrite <- (category_after_id _ _ _ Hc0). }
      unfold category_after in Hc0.
      by rewrite Hid0, lookup_insert_eq in Hc0.
    - apply list_elem_of_omap in Hnew as ([p v] & Hpv & Hcreated).
      apply elem_of_map_to_list in Hpv.
      apply created_category_Some in Hcreated as [-> ->].
      by rewrite Heq, lookup_insert_eq in Hpv. }
  destruct (List.find _ categories) as [uncat|].
  - intros Hno. rewrite (Hfixed Hno). eexists. split.
    + rewrite lookup_insert_ne by done.
      rewrite reassign_to_uncategorized_other by (by intros ?).
      apply lookup_singleton_eq.
    + intros s. apply elem_of_with_default.
  - exists ck. split; [done|]. subst fixed.
    rewrite lookup_insert_ne by (intros [= Heq]; by apply (Hfresh ck Hpush)).
    rewrite reassign_to_uncategorized_other by (by intros ?).
    apply lookup_singleton_eq.
Qed.

(** C2 on concrete data: Shoes is deleted, Runner moves. *)
Lemma delete_category_witness :
  generates_keys examplePush
  ∧ (∀ key, examplePush "categories" = Some key → key ≠ cat_id shoes)
  ∧ cat_name shoes ≠ "Uncategorized"
  ∧ cat_id shoes ≠ ""
  ∧ ∃ updates,
      (handleDeleteCategory [shoes; hats] [runner; cap] examplePush (λ _, true)
         (mkView stock None None) "c1" "Shoes").1 = Issued updates
      ∧ updates !! ProductCategoryPath "p1" = Some (VString "Uncategorized")
      ∧ updates !! ProductSubcategoryPath "p1" = Some (VString "Default")
      ∧ updates !! CategoryPath "c1" = Some VNull.
Proof.
  assert (∀ key, examplePush "categories" = Some key → key ≠ cat_id shoes) as Hfresh.
  { intros key [= <-]. discriminate. }
  assert (cat_name shoes ≠ "Uncategorized") as Hname by discriminate.
  assert (cat_id shoes ≠ "") as Hid by discriminate.
  do 4 (split; [done || exact examplePush_generates_keys|]).
  destruct (proj1 delete_category_moves_products [shoes; hats] [runner; cap]
              examplePush (λ _, true) (mkView stock None None) shoes
              examplePush_generates_keys Hfresh Hname Hid)
    as (updates & Hout & Hitems & Hnull & _).
  exists updates. split; [exact Hout|].
  destruct (Hitems runner) as [Hc Hs]; [left | reflexivity |].
  by repeat split.
Defined.

(** ** Deleting a subcategory *)

Lemma reassign_to_default_snoc (u : Updates) (l : list InventoryItem)
    (item : InventoryItem) :
  reassign_to_default u (l ++ [item])
  = <[ProductSubcategoryPath (item_id item) := VString "Default"]>
      (reassign_to_default u l).
Proof. unfold reassign_to_default. by rewrite foldl_snoc. Qed.

Lemma reassign_to_default_item (u : Updates) (l : list InventoryItem)
    (item : InventoryItem) :
  item ∈ l →
  reassign_to_default u l !! ProductSubcategoryPath (item_id item)
  = Some (VString "Default").
Proof.
  induction l as [|x l IH] using rev_ind; [by intros ?%elem_of_nil|].
  rewrite reassign_to_default_snoc.
  intros [Hin | ->%list_elem_of_singleton]%elem_of_app.
  - destruct (decide (item_id x = item_id item)) as [->|Hne].
    + apply lookup_insert_eq.
    + rewrite lookup_insert_ne by congruence. by apply IH.
  - apply lookup_insert_eq.
Qed.

(** For a category other than "Uncategorized" the list left behind is
    never empty. *)
Lemma updatedSubcategoriesFor_nonempty (parent : CategoryDefinition)
    (itemsToReassign : list InventoryItem) (categoryName subcategoryName : string) :
  categoryName ≠ "Uncategorized" →
  updatedSubcategoriesFor parent itemsToReassign categoryName subcategoryName ≠ [].
Proof.
  intros Hname. unfold updatedSubcategoriesFor. cbv zeta.
  match goal with
  | |- (if _ && bool_decide (length ?l = 0%nat) then _ else _) ≠ _ =>
      generalize l
  end.
  intros l. rewrite (bool_decide_eq_true_2 _ Hname). cbn [andb].
  case_bool_decide as Hlen.
  - by intros [_ ?]%app_eq_nil.
  - intros Hnil. apply Hlen. by rewrite Hnil.
Qed.

(** Deleting the only subcategory leaves exactly ["Default"]. *)
Lemma updatedSubcategoriesFor_only (parent : CategoryDefinition)
    (itemsToReassign : list InventoryItem) (categoryName subcategoryName : string) :
  categoryName ≠ "Uncategorized" →
  subcategoryName ≠ "Default" →
  cat_subcategories parent = [subcategoryName] →
  updatedSubcategoriesFor parent itemsToReassign categoryName subcategoryName
  = ["Default"].
Proof.
  intros Hname Hsub Hsubs. unfold updatedSubcategoriesFor.
  rewrite Hsubs, filter_cons_False, filter_nil by (by intros ?).
  rewrite (bool_decide_eq_true_2 _ Hname), (bool_decide_eq_true_2 _ Hsub).
  destruct (bool_decide (0 < length itemsToReassign)%nat); reflexivity.
Qed.

(** C3. A subcategory deletion that is not rejected writes subcategory
    "Default" on every product of that (category, subcategory); for a
    category other than "Uncategorized" the subcategory list written is
    never empty, and it is exactly ["Default"] when the deleted subcategory
    was the only one. *)
Theorem delete_subcategory_moves_products
    (categories : list CategoryDefinition) (items : list InventoryItem)
    (accepted : Updates → bool) (view : ViewState)
    (c : CategoryDefinition) (subcategoryName : string) :
  NoDup (cat_id <$> categories) →
  c ∈ categories →
  cat_id c ≠ "" →
  ¬ (cat_name c = "Uncategorized" ∧ subcategoryName = "Default") →
  ¬ (subcategoryName = "Default" ∧ length (cat_subcategories c) = 1%nat
     ∧ cat_name c ≠ "Uncategorized") →
  ∃ updates,
    (handleDeleteSubcategory categories items accepted view
       (cat_id c) (cat_name c) subcategoryName).1 = Issued updates
    ∧ (∀ item, item ∈ items →
         item_category item = cat_name c →
         item_subcategory item = subcategoryName →
         updates !! ProductSubcategoryPath (item_id item) = Some (VString "Default"))
    ∧ (cat_name c ≠ "Uncategorized" →
       ∃ subs, updates !! CategorySubcategoriesPath (cat_id c) = Some (VStrings subs)
               ∧ subs ≠ [])
    ∧ (cat_name c ≠ "Uncategorized" →
       cat_subcategories c = [subcategoryName] →
       updates !! CategorySubcategoriesPath (cat_id c) = Some (VStrings ["Default"])).
Proof.
  intros Hnodup Hc Hid Hprot1 Hprot2.
  pose proof (find_by_key cat_id categories c Hnodup Hc) as Hfind.
  unfold handleDeleteSubcategory.
  rewrite (bool_decide_eq_false_2 _ Hid), orb_false_r.
  replace (bool_decide (cat_name c = "Uncategorized")
           && bool_decide (subcategoryName = "Default")) with false; cycle 1.
  { symmetry. apply andb_false_iff.
    destruct (decide (cat_name c = "Uncategorized")) as [Hn|Hn];
      [right | left]; apply bool_decide_eq_false; [|done].
    intros Hs. by apply Hprot1. }
  rewrite Hfind.
  replace (bool_decide (subcategoryName = "Default")
           && bool_decide (length (cat_subcategories c) = 1%nat)
           && bool_decide (cat_name c ≠ "Uncategorized")) with false; cycle 1.
  { symmetry. apply not_true_is_false. intros Hb. apply Hprot2.
    apply andb_true_iff in Hb as [Hb H3]. apply andb_true_iff in Hb as [H1 H2].
    apply bool_decide_eq_true in H1, H2, H3. done. }
  cbv zeta.
  set (updates := deleteSubcategoryUpdates c items (cat_id c) (cat_name c) subcategoryName).
  exists updates. split.
  { by destruct (accepted updates && _ && _). }
  assert (cat_name c ≠ "Uncategorized" →
          updates = <[CategorySubcategoriesPath (cat_id c) :=
                        VStrings (updatedSubcategoriesFor c
                          (filter (λ item, item_category item = cat_name c
                                           ∧ item_subcategory item = subcategoryName)
                                  items)
                          (cat_name c) subcategoryName)]>
                      (reassign_to_default ∅
                         (filter (λ item, item_category item = cat_name c
                                          ∧ item_subcategory item = subcategoryName)
                                 items))) as Hshape.
  { intros Hname. subst updates. unfold deleteSubcategoryUpdates. cbv zeta.
    rewrite (bool_decide_eq_false_2 _ Hname). cbn [andb].
    rewrite bool_decide_eq_true_2; [done|].
    pose proof (updatedSubcategoriesFor_nonempty c
                  (filter (λ item, item_category item = cat_name c
                                   ∧ item_subcategory item = subcategoryName) items)
                  (cat_name c) subcategoryName Hname) as Hne.
    destruct (updatedSubcategoriesFor _ _ _ _); [done | simpl; lia]. }
  split.
  { intros item Hin Hcat Hsub.
    assert (reassign_to_default ∅
              (filter (λ item, item_category item = cat_name c
                               ∧ item_subcategory item = subcategoryName) items)
            !! ProductSubcategoryPath (item_id item) = Some (VString "Default"))
      as Hitem.
    { apply reassign_to_default_item. by apply list_elem_of_filter. }
    subst updates. unfold deleteSubcategoryUpdates. cbv zeta.
    match goal with
    | |- (if ?b then _ else _) !! _ = _ => destruct b
    end; by rewrite !lookup_insert_ne by done. }
  split.
  - intros Hname. rewrite (Hshape Hname). eexists. split; [apply lookup_insert_eq|].
    by apply updatedSubcategoriesFor_nonempty.
  - intros Hname Honly. rewrite (Hshape Hname), lookup_insert_eq.
    assert (subcategoryName ≠ "Default") as Hsub.
    { intros ->. apply Hprot2. by rewrite Honly. }
    by rewrite updatedSubcategoriesFor_only.
Qed.

(** C3 on concrete data: Totes, the only subcategory of Bags, is deleted. *)
Lemma delete_subcategory_witness :
  NoDup (cat_id <$> [shoes; bags])
  ∧ bags ∈ [shoes; bags]
  ∧ cat_id bags ≠ ""
  ∧ ¬ (cat_name bags = "Uncategorized" ∧ "Totes" = "Default")
  ∧ ¬ ("Totes" = "Default" ∧ length (cat_subcategories bags) = 1%nat
       ∧ cat_name bags ≠ "Uncategorized")
  ∧ ∃ updates,
      (handleDeleteSubcategory [shoes; bags] [runner; tote] (λ _, true)
         (mkView stock None None) "c3" "Bags" "Totes").1 = Issued updates
      ∧ updates !! ProductSubcategoryPath "p3" = Some (VString "Default")
      ∧ updates !! CategorySubcategoriesPath "c3" = Some (VStrings ["Default"]).
Proof.
  assert (NoDup (cat_id <$> [shoes; bags])) as Hnodup.
  { apply (bool_decide_unpack _). by vm_compute. }
  assert (bags ∈ [shoes; bags]) as Hin by (right; left).
  assert (cat_id bags ≠ "") as Hid by discriminate.
  assert (¬ (cat_name bags = "Uncategorized" ∧ "Totes" = "Default")) as Hp1.
  { intros [? ?]. discriminate. }
  assert (¬ ("Totes" = "Default" ∧ length (cat_subcategories bags) = 1%nat
             ∧ cat_name bags ≠ "Uncategorized")) as Hp2.
  { intros [? ?]. discriminate. }
  do 5 (split; [done|]).
  destruct (delete_subcategory_moves_products [shoes; bags] [runner; tote]
              (λ _, true) (mkView stock None None) bags "Totes"
              Hnodup Hin Hid Hp1 Hp2)
    as (updates & Hout & Hitems & _ & Honly).
  exists updates. split; [exact Hout|]. split.
  - apply (Hitems tote); [right; left | reflexivity | reflexivity].
  - apply Honly; [discriminate | reflexivity].
Defined.

(** C6. The subcategory deletion returns before any store call, (a) for
    "Default" of "Uncategorized" and (b) for "Default" of another category
    when it is the only subcategory of that category; the view selection,
    the category list and the product list are then as they were. *)
Theorem delete_subcategory_rejects_protected :
  (∀ (categories : list CategoryDefinition) (items : list InventoryItem)
     (accepted : Updates → bool) (view : ViewState) (categoryId : string),
     let r := handleDeleteSubcategory categories items accepted view
                categoryId "Uncategorized" "Default" in
     r = (Returned, view)
     ∧ categories_after_outcome r.1 categories = categories
     ∧ items_after_outcome r.1 items = items)
  ∧ (∀ (categories : list CategoryDefinition) (items : list InventoryItem)
       (accepted : Updates → bool) (view : ViewState)
       (categoryId categoryName : string) (parent : CategoryDefinition),
       List.find (λ c, bool_decide (cat_id c = categoryId)) categories = Some parent →
       cat_subcategories parent = ["Default"] →
       categoryName ≠ "Uncategorized" →
       let r := handleDeleteSubcategory categories items accepted view
                  categoryId categoryName "Default" in
       r = (Returned, view)
       ∧ categories_after_outcome r.1 categories = categories
       ∧ items_after_outcome r.1 items = items).
Proof.
  split; [done|].
  intros categories items accepted view categoryId categoryName parent
    Hfind Hsubs Hname.
  assert (handleDeleteSubcategory categories items accepted view
            categoryId categoryName "Default" = (Returned, view)) as Hr.
  { unfold handleDeleteSubcategory. rewrite Hfind, Hsubs.
    rewrite (bool_decide_eq_false_2 _ Hname), (bool_decide_eq_true_2 _ Hname).
    cbn. by case_bool_decide. }
  cbv zeta. by rewrite Hr.
Qed.

(** C6 on concrete data: Default is the only subcategory of Shoes. *)
Lemma delete_subcategory_rejects_witness :
  List.find (λ c, bool_decide (cat_id c = "c1")) [shoes; bags] = Some shoes
  ∧ cat_subcategories shoes = ["Default"]
  ∧ "Shoes" ≠ "Uncategorized"
  ∧ handleDeleteSubcategory [shoes; bags] [runner; tote] (λ _, true)
      (mkView stock (Some "Shoes") (Some "Default")) "c1" "Shoes" "Default"
    = (Returned, mkView stock (Some "Shoes") (Some "Default")).
Proof.
  assert ("Shoes" ≠ "Uncategorized") as Hname by discriminate.
  do 3 (split; [done|]).
  apply (proj2 delete_subcategory_rejects_protected [shoes; bags] [runner; tote]
           (λ _, true) _ "c1" "Shoes" shoes); done.
Defined.

(** ** Selling one unit *)

(** One size written for one product: the sizes of that product after the
    write. *)
Lemma sizes_after_sell_fold (itemId id : string) (size : Size) (n : Z)
    (sizes : gmap Size Z) (l : list Size) :
  foldr (λ s m,
           match ({[ ProductSizePath itemId size := VNumber n ]} : Updates)
                 !! ProductSizePath id s with
           | Some (VNumber q) => <[s := q]> m
           | Some VNull => delete s m
           | _ => m
           end) sizes l
  = if decide (id = itemId ∧ size ∈ l) then <[size := n]> sizes else sizes.
Proof.
  induction l as [|s l IH].
  - rewrite decide_False; [done|]. intros [_ ?%elem_of_nil]. done.
  - rewrite foldr_cons, IH. clear IH.
    destruct (decide (ProductSizePath itemId size = ProductSizePath id s))
      as [Heq|Hne].
    + injection Heq as -> ->. rewrite lookup_singleton_eq.
      rewrite (decide_True (P := id = id ∧ s ∈ s :: l)) by (split; [done | left]).
      case_decide; [apply insert_insert_eq | done].
    + rewrite lookup_singleton_ne by done.
      apply decide_ext. rewrite elem_of_cons.
      split; [intros [-> ?]; split; [done | by right]|].
      intros [-> [->|?]]; [done | by split].
Qed.

Lemma elem_of_SIZES (size : Size) : size ∈ SIZES.
Proof. unfold SIZES. destruct size; repeat constructor. Qed.

Lemma sizes_after_sell (itemId id : string) (size : Size) (n : Z)
    (sizes : gmap Size Z) :
  sizes_after {[ ProductSizePath itemId size := VNumber n ]} id sizes
  = if decide (id = itemId) then <[size := n]> sizes else sizes.
Proof.
  unfold sizes_after. rewrite sizes_after_sell_fold.
  apply decide_ext. split; [by intros [? _] | intros ?; split; [done|]].
  apply elem_of_SIZES.
Qed.

(** The product list after one size of one product has been written. *)
Lemma items_after_sell (items : list InventoryItem) (itemId : string)
    (size : Size) (n : Z) :
  items_after {[ ProductSizePath itemId size := VNumber n ]} items
  = (λ i, if decide (item_id i = itemId)
          then {| item_id := item_id i;
                  item_name := item_name i;
                  item_sku := item_sku i;
                  item_category := item_category i;
                  item_subcategory := item_subcategory i;
                  item_sizes := <[size := n]> (item_sizes i);
                  item_price := item_price i;
                  item_description := item_description i;
                  item_imageUrl := item_imageUrl i |}
          else i) <$> items.
Proof.
  unfold items_after. rewrite map_to_list_singleton. cbn [omap list_omap created_item].
  rewrite app_nil_r.
  induction items as [|i items IH]; [done|].
  cbn [omap list_omap fmap list_fmap]. fold (omap (item_after {[ ProductSizePath itemId size := VNumber n ]}) items).
  rewrite IH. unfold item_after at 1.
  rewrite !lookup_singleton_ne by done.
  rewrite sizes_after_sell.
  destruct (decide (item_id i = itemId)); [done|]. by destruct i.
Qed.

(** C4. Selling a size of a product of the list: when the quantity is 0
    or the size key is missing nothing is written; when it is N > 0 the
    one path of that product and size is set to N - 1, which is not
    negative, and after the write every other size and every other product
    is as before.  Whatever the arguments, a store call made by the handler
    is one set of a number that is not negative. *)
Theorem sell_decrements_one_size :
  (∀ (items : list InventoryItem) (item : InventoryItem) (size : Size),
     NoDup (item_id <$> items) →
     item ∈ items →
     item_id item ≠ "" →
     (item_sizes item !! size = None ∨ item_sizes item !! size = Some 0 →
      handleSellItemSize items (item_id item) size = Returned)
     ∧ (∀ n, item_sizes item !! size = Some n → n > 0 →
          handleSellItemSize items (item_id item) size
          = Issued {[ ProductSizePath (item_id item) size := VNumber (n - 1) ]}
          ∧ 0 ≤ n - 1
          ∧ ∀ i, i ∈ items_after
                       {[ ProductSizePath (item_id item) size := VNumber (n - 1) ]}
                       items →
                 ∃ i0, i0 ∈ items
                       ∧ item_id i = item_id i0
                       ∧ (item_id i0 ≠ item_id item → i = i0)
                       ∧ (item_id i0 = item_id item →
                          item_sizes i = <[size := n - 1]> (item_sizes i0))
                       ∧ (∀ other, other ≠ size →
                            item_sizes i !! other = item_sizes i0 !! other)))
  ∧ (∀ (items : list InventoryItem) (itemId : string) (size : Size)
       (updates : Updates),
       handleSellItemSize items itemId size = Issued updates →
       ∃ n, 0 ≤ n ∧ updates = {[ ProductSizePath itemId size := VNumber n ]}).
Proof.
  split.
  - intros items item size Hnodup Hin Hid.
    pose proof (find_by_key item_id items item Hnodup Hin) as Hfind.
    unfold handleSellItemSize.
    rewrite (bool_decide_eq_false_2 _ Hid), Hfind. cbv zeta. unfold quantity.
    split.
    + intros [-> | ->]; reflexivity.
    + intros n -> Hn. cbn [default from_option id].
      rewrite bool_decide_eq_true_2 by done.
      split; [done|]. split; [lia|].
      intros i Hi. rewrite items_after_sell in Hi.
      apply list_elem_of_fmap in Hi as (i0 & -> & Hi0).
      exists i0. split; [done|].
      destruct (decide (item_id i0 = item_id item)) as [Heq|Hne];
        cbn [item_id item_sizes].
      * do 3 (split; [done|]).
        intros other Hother. by rewrite lookup_insert_ne.
      * by repeat split.
  - intros items itemId size updates. unfold handleSellItemSize.
    case_bool_decide; [done|].
    destruct (List.find _ items) as [item|]; [|done]. cbv zeta.
    case_bool_decide as Hpos; [|done].
    intros [= <-]. eexists. split; [|reflexivity]. lia.
Qed.

(** C4 on concrete data: Runner has 3 of M and no XL. *)
Lemma sell_decrements_witness :
  NoDup (item_id <$> [cap; runner])
  ∧ runner ∈ [cap; runner]
  ∧ item_id runner ≠ ""
  ∧ handleSellItemSize [cap; runner] "p1" SzXL = Returned
  ∧ handleSellItemSize [cap; runner] "p1" SzM
    = Issued {[ ProductSizePath "p1" SzM := VNumber 2 ]}.
Proof.
  assert (NoDup (item_id <$> [cap; runner])) as Hnodup.
  { apply (bool_decide_unpack _). by vm_compute. }
  assert (runner ∈ [cap; runner]) as Hin by (right; left).
  assert (item_id runner ≠ "") as Hid by discriminate.
  do 3 (split; [done|]).
  destruct (proj1 sell_decrements_one_size [cap; runner] runner SzXL
              Hnodup Hin Hid) as [Hzero _].
  destruct (proj1 sell_decrements_one_size [cap; runner] runner SzM
              Hnodup Hin Hid) as [_ Hpos].
  split.
  - apply Hzero. by left.
  - apply (Hpos 3); [reflexivity | lia].
Defined.

(** ** Back and forward *)

(** C8 as stated fails: the entry that the application records for the
    admin view reached with Shoes selected is tagged, and its selected
    category is not adopted. *)
Lemma popstate_admin_entry_drops_selection :
  ¬ (∀ (st : AppHistoryState) (a : App),
       __app st = APP_HISTORY_KEY →
       view (handlePopState (Some st) a)
       = mkView (hs_viewMode st) (hs_selectedCategoryForView st)
                (hs_selectedSubcategoryForView st)).
Proof.
  intros H.
  specialize (H (buildHistoryState
                   (toggleViewMode
                      (handleSelectCategoryForView "Shoes" (view initialApp))) 3)
                initialApp eq_refl).
  discriminate H.
Qed.

(** C8 (amended). On a popstate event with a tagged entry the view mode
    and the history index of the entry are adopted; the selected category
    and subcategory are adopted when the entry is in stock mode and are
    cleared when it is in admin mode; the next run of the history effect
    replaces the current entry and pushes nothing.  With an entry that is
    null or untagged nothing changes. *)
Theorem popstate_restores_tagged_entry :
  (∀ (st : AppHistoryState) (a : App),
     __app st = APP_HISTORY_KEY →
     let a' := handlePopState (Some st) a in
     viewMode (view a') = hs_viewMode st
     ∧ (hs_viewMode st = stock →
        selectedCategoryForView (view a') = hs_selectedCategoryForView st
        ∧ selectedSubcategoryForView (view a') = hs_selectedSubcategoryForView st)
     ∧ (hs_viewMode st = admin →
        selectedCategoryForView (view a') = None
        ∧ selectedSubcategoryForView (view a') = None)
     ∧ historyIndexRef a' = default 0 (historyIndex st)
     ∧ isHandlingPopStateRef a' = true
     ∧ (isInitialHistoryRef a = false →
        ∀ h, (historyEffect a' h).2
             = replaceState (buildHistoryState (view a') (historyIndexRef a')) h
             ∧ length (entries (historyEffect a' h).2) = length (entries h)
             ∧ cursor (historyEffect a' h).2 = cursor h
             ∧ isHandlingPopStateRef (historyEffect a' h).1 = false
             ∧ view (historyEffect a' h).1 = view a'
             ∧ historyIndexRef (historyEffect a' h).1 = historyIndexRef a'))
  ∧ (∀ (state : option AppHistoryState) (a : App),
       foreign state → handlePopState state a = a).
Proof.
  split.
  - intros st a Htag. unfold handlePopState.
    rewrite bool_decide_eq_false_2 by (by intros ?). cbn.
    split; [by destruct (hs_viewMode st)|].
    split; [by intros ->|]. split; [by intros ->|].
    do 2 (split; [done|]).
    intros Hinit h. unfold historyEffect. cbn. rewrite Hinit. cbn.
    by rewrite length_insert.
  - intros [st|] a Hforeign; [|done].
    unfold handlePopState. by rewrite bool_decide_eq_true_2.
Qed.

(** C8 (amended) on concrete data. *)
Lemma popstate_restores_witness :
  __app (buildHistoryState (mkView stock (Some "Shoes") None) 2) = APP_HISTORY_KEY
  ∧ foreign None
  ∧ view (handlePopState
            (Some (buildHistoryState (mkView stock (Some "Shoes") None) 2))
            initialApp)
    = mkView stock (Some "Shoes") None
  ∧ handlePopState None initialApp = initialApp.
Proof.
  do 2 (split; [done|]).
  destruct popstate_restores_tagged_entry as [Htagged Hforeign].
  split.
  - destruct (Htagged (buildHistoryState (mkView stock (Some "Shoes") None) 2)
                initialApp eq_refl) as (Hmode & Hstock & _).
    destruct (Hstock eq_refl) as [Hc Hs].
    destruct (view _) as [m c s]. cbn in *. by subst.
  - by apply Hforeign.
Defined.

(** ** Three navigations, two backs, one forward *)

Lemma restored_idempotent (v : ViewState) : restored (restored v) = restored v.
Proof. unfold restored. destruct v as [[] c s]; reflexivity. Qed.

(** A user-driven change of the view state pushes one tagged entry. *)
Lemma navigate_pushes (a : App) (h : History) (v : ViewState) :
  isInitialHistoryRef a = false →
  isHandlingPopStateRef a = false →
  view a ≠ v →
  navigate (λ _, v) (a, h)
  = ({| view := v;
        isHandlingPopStateRef := false;
        isInitialHistoryRef := false;
        historyIndexRef := historyIndexRef a + 1;
        hasSeededHistoryRef := hasSeededHistoryRef a |},
     pushState (buildHistoryState v (historyIndexRef a + 1)) h).
Proof.
  intros Hinit Hpop Hne. unfold navigate, commit. cbn.
  rewrite decide_False by done.
  unfold historyEffect. cbn. by rewrite Hinit, Hpop.
Qed.

(** Three pushes from a valid history: the entries after the cursor are
    dropped and the three new ones follow. *)
Lemma three_pushes (h : History) (s1 s2 s3 : AppHistoryState) :
  (cursor h < length (entries h))%nat →
  pushState s3 (pushState s2 (pushState s1 h))
  = {| entries := take (S (cursor h)) (entries h) ++ [Some s1; Some s2; Some s3];
       cursor := S (S (S (cursor h))) |}.
Proof.
  intros Hvalid. unfold pushState. cbn [entries cursor]. f_equal.
  assert (length (take (S (cursor h)) (entries h)) = S (cursor h)) as Hlen.
  { rewrite length_take. lia. }
  rewrite (take_ge (take (S (cursor h)) (entries h) ++ [Some s1]))
    by (rewrite length_app, Hlen; simpl; lia).
  rewrite (take_ge ((take (S (cursor h)) (entries h) ++ [Some s1]) ++ [Some s2]))
    by (rewrite !length_app, Hlen; simpl; lia).
  by rewrite <- !app_assoc.
Qed.

(** What [handlePopState] makes of an entry written by this code. *)
Lemma handlePopState_built (a : App) (v : ViewState) (i : Z) :
  handlePopState (Some (buildHistoryState v i)) a
  = {| view := restored v;
       isHandlingPopStateRef := true;
       isInitialHistoryRef := isInitialHistoryRef a;
       historyIndexRef := i;
       hasSeededHistoryRef := hasSeededHistoryRef a |}.
Proof. unfold restored. by destruct v as [[] c s]. Qed.

(** Moving the cursor onto an entry recorded for [v] restores [v] up to the
    clearing of the selection in admin mode, and leaves at that place an
    entry that restores to the same view; the other entries are untouched. *)
Lemma popTo_tagged (a : App) (h : History) (target : nat) (v : ViewState) (i : Z) :
  isInitialHistoryRef a = false →
  entries h !! target = Some (Some (buildHistoryState v i)) →
  let w := popTo target (a, h) in
  view w.1 = restored v
  ∧ isInitialHistoryRef w.1 = false
  ∧ cursor w.2 = target
  ∧ length (entries w.2) = length (entries h)
  ∧ (∀ k, k ≠ target → entries w.2 !! k = entries h !! k)
  ∧ ∃ v', entries w.2 !! target = Some (Some (buildHistoryState v' i))
          ∧ restored v' = restored v.
Proof.
  intros Hinit Hentry. cbv zeta. unfold popTo.
  replace (history_state {| entries := entries (a, h).2; cursor := target |})
    with (Some (buildHistoryState v i))
    by (unfold history_state; cbn [fst snd entries cursor]; by rewrite Hentry).
  rewrite handlePopState_built. unfold commit. cbn [fst snd view].
  destruct (decide (restored v = view a)) as [Heq|Hne].
  - cbn [fst snd view isInitialHistoryRef entries cursor].
    do 5 (split; [done|]). exists v. by split.
  - unfold historyEffect.
    cbn [fst snd view isInitialHistoryRef isHandlingPopStateRef historyIndexRef].
    rewrite Hinit.
    cbn [fst snd view isInitialHistoryRef entries cursor replaceState].
    do 3 (split; [done|]).
    split; [by rewrite length_insert|].
    split.
    + intros k Hk. by rewrite list_lookup_insert_ne.
    + exists (restored v). split.
      * rewrite list_lookup_insert_eq; [done|].
        by apply lookup_lt_Some in Hentry.
      * apply restored_idempotent.
Qed.

(** C7 as stated fails: select Shoes, switch to admin, switch back to
    stock; two backs restore the first state, but the forward ends in the
    admin view without selection, not in the state after the second
    navigation. *)
Lemma history_forward_after_toggle :
  let w0 := mount (mkHistory [None] 0) in
  let w1 := navigate (handleSelectCategoryForView "Shoes") w0 in
  let w2 := navigate toggleViewMode w1 in
  let w3 := navigate toggleViewMode w2 in
  view w1.1 ≠ view w0.1
  ∧ view w2.1 ≠ view w1.1
  ∧ view w3.1 ≠ view w2.1
  ∧ view (back (back w3)).1 = view w1.1
  ∧ view (forward (back (back w3))).1 ≠ view w2.1.
Proof. vm_compute. repeat split; discriminate. Qed.

(** C7 (amended). After three user-driven navigations, each changing the
    view state, two native backs restore the state after the first one and
    a forward then restores the state after the second one, where an admin
    state is restored with its selection cleared; for states in stock mode
    the restored state is the very state after the navigation. *)
Theorem history_back_back_forward
    (a : App) (h : History) (v1 v2 v3 : ViewState) :
  isInitialHistoryRef a = false →
  isHandlingPopStateRef a = false →
  (cursor h < length (entries h))%nat →
  view a ≠ v1 → v1 ≠ v2 → v2 ≠ v3 →
  let w1 := navigate (λ _, v1) (a, h) in
  let w2 := navigate (λ _, v2) w1 in
  let w3 := navigate (λ _, v3) w2 in
  let w5 := back (back w3) in
  view w1.1 = v1 ∧ view w2.1 = v2 ∧ view w3.1 = v3
  ∧ view w5.1 = restored v1
  ∧ view (forward w5).1 = restored v2
  ∧ (viewMode v1 = stock → view w5.1 = v1)
  ∧ (viewMode v2 = stock → view (forward w5).1 = v2).
Proof.
  intros Hinit Hpop Hvalid Hn1 Hn2 Hn3. cbv zeta.
  rewrite (navigate_pushes a h v1) by done.
  rewrite navigate_pushes by done.
  rewrite navigate_pushes by done.
  cbn [historyIndexRef hasSeededHistoryRef].
  rewrite three_pushes by done.
  set (i := historyIndexRef a).
  set (pre := take (S (cursor h)) (entries h)).
  assert (length pre = S (cursor h)) as Hpre.
  { subst pre. rewrite length_take. lia. }
  set (e1 := buildHistoryState v1 (i + 1)).
  set (e2 := buildHistoryState v2 (i + 1 + 1)).
  set (e3 := buildHistoryState v3 (i + 1 + 1 + 1)).
  set (a3 := {| view := v3; isHandlingPopStateRef := false;
                isInitialHistoryRef := false;
                historyIndexRef := i + 1 + 1 + 1;
                hasSeededHistoryRef := hasSeededHistoryRef a |}).
  set (h3 := {| entries := pre ++ [Some e1; Some e2; Some e3];
                cursor := S (S (S (cursor h))) |}).
  do 3 (split; [done|]).
  assert (entries h3 !! S (cursor h) = Some (Some e1)) as H1.
  { cbn. rewrite lookup_app_r by lia. by rewrite Hpre, Nat.sub_diag. }
  assert (entries h3 !! S (S (cursor h)) = Some (Some e2)) as H2.
  { cbn. rewrite lookup_app_r by lia.
    by replace (S (S (cursor h)) - length pre)%nat with 1%nat by lia. }
  (* first back *)
  assert (back (a3, h3) = popTo (S (S (cursor h))) (a3, h3)) as -> by done.
  destruct (popTo_tagged a3 h3 (S (S (cursor h))) v2 (i + 1 + 1) eq_refl H2)
    as (_ & Hinit4 & Hcur4 & Hlen4 & Hother4 & v2' & Hat4 & Hv2').
  destruct (popTo (S (S (cursor h))) (a3, h3)) as [a4 h4].
  cbn [fst snd] in *.
  (* second back *)
  assert (back (a4, h4) = popTo (S (cursor h)) (a4, h4)) as ->.
  { unfold back. cbn [snd]. by rewrite Hcur4. }
  assert (entries h4 !! S (cursor h) = Some (Some e1)) as H1'.
  { rewrite Hother4 by lia. exact H1. }
  destruct (popTo_tagged a4 h4 (S (cursor h)) v1 (i + 1) Hinit4 H1')
    as (Hview5 & Hinit5 & Hcur5 & Hlen5 & Hother5 & _).
  destruct (popTo (S (cursor h)) (a4, h4)) as [a5 h5].
  cbn [fst snd] in *.
  (* forward *)
  assert (forward (a5, h5) = popTo (S (S (cursor h))) (a5, h5)) as ->.
  { unfold forward. cbn [snd]. rewrite Hcur5, Hlen5, Hlen4.
    rewrite bool_decide_eq_true_2; [done|].
    subst h3. cbn. rewrite length_app, Hpre. simpl. lia. }
  assert (entries h5 !! S (S (cursor h)) = Some (Some (buildHistoryState v2' (i + 1 + 1))))
    as H2'.
  { rewrite Hother5 by lia. exact Hat4. }
  destruct (popTo_tagged a5 h5 (S (S (cursor h))) v2' (i + 1 + 1) Hinit5 H2')
    as (Hview6 & _).
  rewrite Hview6, Hv2', Hview5.
  do 2 (split; [done|]).
  split; intros Hm; unfold restored; by rewrite Hm.
Qed.

(** C7 (amended) on concrete data, from a fresh browser history. *)
Lemma history_back_back_forward_witness :
  let w0 := mount (mkHistory [None] 0) in
  let v1 := mkView stock (Some "Shoes") None in
  let v2 := mkView stock (Some "Shoes") (Some "Default") in
  let v3 := mkView admin (Some "Shoes") (Some "Default") in
  let w3 := navigate (λ _, v3) (navigate (λ _, v2) (navigate (λ _, v1) w0)) in
  isInitialHistoryRef w0.1 = false
  ∧ isHandlingPopStateRef w0.1 = false
  ∧ (cursor w0.2 < length (entries w0.2))%nat
  ∧ view w0.1 ≠ v1 ∧ v1 ≠ v2 ∧ v2 ≠ v3
  ∧ view (back (back w3)).1 = v1
  ∧ view (forward (back (back w3))).1 = v2.
Proof.
  cbv zeta.
  assert (cursor (mount (mkHistory [None] 0)).2
          < length (entries (mount (mkHistory [None] 0)).2))%nat as Hvalid.
  { cbn. lia. }
  assert (view (mount (mkHistory [None] 0)).1 ≠ mkView stock (Some "Shoes") None)
    as Hn1 by discriminate.
  assert (mkView stock (Some "Shoes") None
          ≠ mkView stock (Some "Shoes") (Some "Default")) as Hn2 by discriminate.
  assert (mkView stock (Some "Shoes") (Some "Default")
          ≠ mkView admin (Some "Shoes") (Some "Default")) as Hn3 by discriminate.
  do 6 (split; [done|]).
  destruct (history_back_back_forward
              (mount (mkHistory [None] 0)).1 (mount (mkHistory [None] 0)).2
              (mkView stock (Some "Shoes") None)
              (mkView stock (Some "Shoes") (Some "Default"))
              (mkView admin (Some "Shoes") (Some "Default"))
              eq_refl eq_refl Hvalid Hn1 Hn2 Hn3)
    as (_ & _ & _ & _ & _ & Hback & Hforward).
  split; [exact (Hback eq_refl) | exact (Hforward eq_refl)].
Defined.

(** ** The CSV export *)

Lemma concat_joined_spec (sep : string) (parts : list string) :
  String.concat sep parts = joined_spec sep parts.
Proof.
  induction parts as [|part rest IH]; [done|].
  destruct rest as [|next rest]; [done|].
  cbn [String.concat joined_spec]. cbn [String.concat joined_spec] in IH.
  by rewrite IH.
Qed.

Lemma has_csv_special_iff (text : string) :
  has_csv_special text = true ↔ csv_needs_quotes text.
Proof.
  unfold has_csv_special, csv_needs_quotes.
  induction (String.list_ascii_of_string text) as [|c l IH]; cbn [existsb].
  - split; [done | by intros ?%Exists_nil].
  - rewrite orb_true_iff, Exists_cons, IH, bool_decide_eq_true.
    rewrite !elem_of_cons, elem_of_nil. tauto.
Qed.

Lemma string_of_list_ascii_app (l1 l2 : list ascii) :
  String.string_of_list_ascii (l1 ++ l2)
  = String.string_of_list_ascii l1 +:+ String.string_of_list_ascii l2.
Proof. induction l1 as [|c l1 IH]; cbn; [done | by rewrite IH]. Qed.

Lemma double_quotes_spec (text : string) :
  double_quotes text
  = String.string_of_list_ascii
      (mjoin ((λ c, if decide (c = QUOTE) then [QUOTE; QUOTE] else [c])
              <$> String.list_ascii_of_string text)).
Proof.
  induction text as [|c text IH]; [done|].
  cbn [double_quotes String.list_ascii_of_string].
  change (mjoin (?f <$> c :: ?l)) with (f c ++ mjoin (f <$> l)).
  rewrite string_of_list_ascii_app, <- IH.
  by destruct (decide (c = QUOTE)).
Qed.

(** The source's field formatting is the quoting rule of the specification. *)
Lemma formatCsvValue_spec (value : CsvValue) :
  formatCsvValue value = csv_field_spec (csv_text value).
Proof.
  unfold formatCsvValue, csv_field_spec. cbv zeta.
  destruct (decide (csv_needs_quotes (csv_text value))) as [Hq|Hq].
  - rewrite (proj2 (has_csv_special_iff _) Hq).
    unfold csv_quoted_spec.
    rewrite double_quotes_spec, !string_of_list_ascii_app. reflexivity.
  - destruct (has_csv_special (csv_text value)) eqn:Hs; [|done].
    by apply has_csv_special_iff in Hs.
Qed.

Lemma csv_quantity_text (item : InventoryItem) (size : Size) :
  csv_text (CsvNumber (quantity (item_sizes item) size))
  = csv_quantity_spec item size.
Proof.
  unfold csv_quantity_spec, quantity. cbn [csv_text].
  destruct (item_sizes item !! size); [done|]. by vm_compute.
Qed.

Lemma exportDataRow_spec (item : InventoryItem) :
  csv_text <$> exportDataRow item = csv_row_spec item.
Proof.
  unfold exportDataRow, csv_row_spec, SIZES.
  rewrite !fmap_cons, !csv_quantity_text. cbn [csv_text].
  by destruct (item_imageUrl item).
Qed.

Lemma export_line_spec (row : list CsvValue) :
  String.concat "," (formatCsvValue <$> row) = csv_line_spec (csv_text <$> row).
Proof.
  unfold csv_line_spec. rewrite concat_joined_spec. f_equal.
  rewrite <- list_fmap_compose. apply list_fmap_ext.
  intros i v _. apply formatCsvValue_spec.
Qed.

(** C9. With a category and a subcategory selected, the export downloads
    the text made of the byte-order mark and the lines joined by CRLF, a
    line being its fields joined by commas and a field being put between
    double quotes, its own double quotes doubled, exactly when it holds a
    comma, a double quote or a line break; the first line is the header
    Name, Image URL, XS, S, M, L, XL, XXL, 3XL and each product gives the
    line of its name, its image URL or the empty text, and its seven
    quantities, 0 for a missing size.  The product Runner with one M left
    gives the line Runner,,0,0,1,0,0,0,0. *)
Theorem export_is_the_specified_csv :
  (∀ (categoryName subcategoryName : string) (items : list InventoryItem),
     categoryName ≠ "" → subcategoryName ≠ "" →
     ∃ d, handleExportSubcategory (Some categoryName) (Some subcategoryName) items
          = Some d
          ∧ download_content d = csv_export_spec items)
  ∧ csv_line_spec csv_header_spec = "Name,Image URL,XS,S,M,L,XL,XXL,3XL"
  ∧ csv_line_spec (csv_row_spec runnerSold) = "Runner,,0,0,1,0,0,0,0"
  ∧ (∀ value, csv_needs_quotes (csv_text value) →
       formatCsvValue value = csv_quoted_spec (csv_text value))
  ∧ (∀ value, ¬ csv_needs_quotes (csv_text value) →
       formatCsvValue value = csv_text value).
Proof.
  split; [|split; [|split; [|split]]].
  - intros categoryName subcategoryName items Hc Hs.
    unfold handleExportSubcategory.
    rewrite (bool_decide_eq_false_2 _ Hc), (bool_decide_eq_false_2 _ Hs).
    cbn [orb]. eexists. split; [reflexivity|].
    unfold downloadCsvFile, csv_export_spec, buildCsvContent.
    cbn [download_content]. f_equal.
    rewrite concat_joined_spec. f_equal.
    rewrite !fmap_cons.
    rewrite (export_line_spec exportHeaderRow).
    change (csv_text <$> exportHeaderRow) with csv_header_spec. f_equal.
    rewrite <- !list_fmap_compose. apply list_fmap_ext.
    intros i item _. cbn [compose].
    by rewrite export_line_spec, exportDataRow_spec.
  - vm_compute. reflexivity.
  - vm_compute. reflexivity.
  - intros value Hq. rewrite formatCsvValue_spec.
    unfold csv_field_spec. by rewrite decide_True.
  - intros value Hq. rewrite formatCsvValue_spec.
    unfold csv_field_spec. by rewrite decide_False.
Qed.

(** C9 on concrete data: the export of the example product. *)
Lemma export_witness :
  "Shoes" ≠ "" ∧ "Default" ≠ ""
  ∧ ∃ d, handleExportSubcategory (Some "Shoes") (Some "Default") [runnerSold]
         = Some d
         ∧ download_content d
           = BOM +:+ "Name,Image URL,XS,S,M,L,XL,XXL,3XL" +:+ bytes [13; 10]%nat
             +:+ "Runner,,0,0,1,0,0,0,0".
Proof.
  assert ("Shoes" ≠ "") as Hc by discriminate.
  assert ("Default" ≠ "") as Hs by discriminate.
  do 2 (split; [done|]).
  destruct (proj1 export_is_the_specified_csv "Shoes" "Default" [runnerSold] Hc Hs)
    as (d & Hd & Hcontent).
  exists d. split; [exact Hd|]. rewrite Hcontent. by vm_compute.
Defined.


(** ** The end-to-end example of the specification *)

(** With the category Shoes in place: the product Runner is saved with 3
    units of M, M is sold twice, and the subcategory is exported. *)
Example shoes_end_to_end :
  let items1 :=
    items_after_outcome (handleSaveItem [shoes] examplePush (Some runnerForm)) [] in
  let items2 :=
    items_after_outcome (handleSellItemSize items1 "-Nproducts" SzM) items1 in
  let items3 :=
    items_after_outcome (handleSellItemSize items2 "-Nproducts" SzM) items2 in
  let shown := itemsForProductStockView items3
                 (mkView stock (Some "Shoes") (Some "Default")) in
  (λ i, quantity (item_sizes i) SzM) <$> items3 = [1]
  ∧ (λ i, calculateTotalQuantity (item_sizes i)) <$> items3 = [1]
  ∧ handleExportSubcategory (Some "Shoes") (Some "Default") shown
    = Some {| download_filename := "Shoes_Default_stock.csv";
              download_content :=
                BOM +:+ "Name,Image URL,XS,S,M,L,XL,XXL,3XL"
                +:+ bytes [13; 10]%nat +:+ "Runner,,0,0,1,0,0,0,0" |}.
Proof. vm_compute. by repeat split. Qed.

(** ** Further examples *)

Example path_string_size :
  path_string (ProductSizePath "p1" SzM) = "/products/p1/sizes/M".
Proof. reflexivity. Qed.

(** Saving into a missing category while "Uncategorized" exists without
    "Default": the subcategory list is rewritten, deduplicated and sorted. *)
Example save_patches_uncategorized :
  categories_after_outcome
    (handleSaveItem [mkCategory "c0" "Uncategorized" ["Misc"; "Archive"]]
       examplePush (Some cap))
    [mkCategory "c0" "Uncategorized" ["Misc"; "Archive"]]
  = [mkCategory "c0" "Uncategorized" ["Archive"; "Default"; "Misc"]].
Proof. by vm_compute. Qed.

(** The case left open in section 9 of the specification: "Default" is
    deleted from a category that has other subcategories while a product is
    in it.  The product is written back to "Default", which is no longer
    in the list of the category. *)
Example delete_default_with_products :
  let r := handleDeleteSubcategory [shoes; hats] [cap; beanie] (λ _, true)
             (mkView admin None None) "c2" "Hats" "Default" in
  categories_after_outcome r.1 [shoes; hats]
  = [shoes; mkCategory "c2" "Hats" ["Caps"]]
  ∧ (λ i, (item_name i, item_category i, item_subcategory i))
    <$> items_after_outcome r.1 [cap; beanie]
    = [("Cap", "Hats", "Caps"); ("Beanie", "Hats", "Default")].
Proof. by vm_compute. Qed.

(** Deleting a category rehomes its products and creates "Uncategorized"
    when the list does not have it. *)
Example delete_category_creates_uncategorized :
  let r := handleDeleteCategory [shoes; hats] [runner; cap] examplePush (λ _, true)
             (mkView stock (Some "Shoes") (Some "Default")) "c1" "Shoes" in
  r.2 = mkView stock None None
  ∧ categories_after_outcome r.1 [shoes; hats]
    = [hats; mkCategory "-Ncategories" "Uncategorized" ["Default"]]
  ∧ (λ i, (item_name i, item_category i, item_subcategory i))
    <$> items_after_outcome r.1 [runner; cap]
    = [("Runner", "Uncategorized", "Default"); ("Cap", "Hats", "Caps")].
Proof. by vm_compute. Qed.

(** The back button of the stock view goes through the browser history
    once the application has pushed an entry. *)
Example navigate_back_from_subcategory :
  let w := navigate (handleSelectSubcategoryForView "Shoes" "Default")
             (navigate (handleSelectCategoryForView "Shoes")
                (mount (mkHistory [None] 0))) in
  view w.1 = mkView stock (Some "Shoes") (Some "Default")
  ∧ view (handleNavigateBackFromStockView w).1 = mkView stock (Some "Shoes") None
  ∧ view (handleNavigateBackFromStockView (handleNavigateBackFromStockView w)).1
    = mkView stock None None.
Proof. by vm_compute. Qed.

(** * Further properties of the handlers *)

(** ** The category list after a batch *)

Lemma omap_all_none {A B} (f : A → option B) (l : list A) :
  (∀ x, x ∈ l → f x = None) → omap f l = [].
Proof.
  induction l as [|a l IH]; intros H; [done|].
  cbn [omap list_omap]. rewrite (H a) by left.
  apply IH. intros x Hx. apply H. by right.
Qed.

Lemma omap_all_some_fmap {A B} (f : A → option B) (g : A → B) (l : list A) :
  (∀ x, x ∈ l → f x = Some (g x)) → omap f l = g <$> l.
Proof.
  induction l as [|a l IH]; intros H; [done|].
  cbn [omap list_omap]. rewrite (H a) by left. rewrite fmap_cons. f_equal.
  apply IH. intros x Hx. apply H. by right.
Qed.

(** A batch without a category record creates no category. *)
Lemma created_categories_none (u : Updates) (categories : list CategoryDefinition) :
  (∀ key name subs, u !! CategoryPath key ≠ Some (VCategory name subs)) →
  omap (created_category categories) (map_to_list u) = [].
Proof.
  intros Hu. apply omap_all_none. intros [p v] Hpv%elem_of_map_to_list.
  destruct (created_category categories (p, v)) as [c|] eqn:Hc; [|done].
  apply created_category_Some in Hc as [-> ->]. by apply Hu in Hpv.
Qed.

(** A product record alone leaves the category list as it is. *)
Lemma categories_after_product (categories : list CategoryDefinition)
    (pk : string) (d : ProductData) :
  categories_after {[ ProductPath pk := VProduct d ]} categories = categories.
Proof.
  unfold categories_after. rewrite created_categories_none, app_nil_r.
  - apply omap_all_some. intros c _. unfold category_after.
    by rewrite !lookup_singleton_ne.
  - intros key name subs. by rewrite lookup_singleton_ne.
Qed.

(** A product record and one subcategory list. *)
Lemma categories_after_product_subs (categories : list CategoryDefinition)
    (pk : string) (d : ProductData) (id : string) (subs : list string) :
  categories_after
    (<[ProductPath pk := VProduct d]>
       {[ CategorySubcategoriesPath id := VStrings subs ]}) categories
  = with_subcategories id subs <$> categories.
Proof.
  unfold categories_after. rewrite created_categories_none, app_nil_r.
  - apply omap_all_some_fmap. intros c _. unfold category_after, with_subcategories.
    rewrite lookup_insert_ne, lookup_singleton_ne by done.
    rewrite lookup_insert_ne by done.
    destruct (decide (cat_id c = id)) as [->|Hne].
    + by rewrite lookup_singleton_eq.
    + rewrite lookup_singleton_ne by congruence. by destruct c.
  - intros key name s. by rewrite lookup_insert_ne, lookup_singleton_ne.
Qed.

(** A product record and a category created under a fresh key. *)
Lemma categories_after_product_new (categories : list CategoryDefinition)
    (pk : string) (d : ProductData) (key name : string) (subs : list string) :
  key ∉ cat_id <$> categories →
  categories_after
    (<[ProductPath pk := VProduct d]>
       {[ CategoryPath key := VCategory name subs ]}) categories
  = categories ++ [mkCategory key name subs].
Proof.
  intros Hfresh. unfold categories_after. f_equal.
  - apply omap_all_some. intros c Hc. unfold category_after.
    assert (cat_id c ≠ key) as Hne.
    { intros <-. apply Hfresh. by apply list_elem_of_fmap_2. }
    rewrite lookup_insert_ne, lookup_singleton_ne by congruence.
    by rewrite lookup_insert_ne, lookup_singleton_ne by done.
  - apply Permutation_singleton_r.
    rewrite map_to_list_insert by (by rewrite lookup_singleton_ne).
    rewrite map_to_list_singleton. cbn [omap list_omap created_category].
    by rewrite bool_decide_eq_false_2.
Qed.

Lemma find_name_fmap (f : CategoryDefinition → CategoryDefinition)
    (name : string) (l : list CategoryDefinition) :
  (∀ c, cat_name (f c) = cat_name c) →
  List.find (λ c, bool_decide (cat_name c = name)) (f <$> l)
  = f <$> List.find (λ c, bool_decide (cat_name c = name)) l.
Proof.
  intros Hf. induction l as [|a l IH]; [done|].
  rewrite fmap_cons. cbn [List.find]. rewrite Hf.
  by destruct (bool_decide (cat_name a = name)).
Qed.

Lemma find_app_none {A} (f : A → bool) (l k : list A) :
  List.find f l = None → List.find f (l ++ k) = List.find f k.
Proof.
  induction l as [|a l IH]; [done|]. cbn [List.find app].
  destruct (f a); [done | exact IH].
Qed.

Lemma with_subcategories_name (id : string) (subs : list string)
    (c : CategoryDefinition) :
  cat_name (with_subcategories id subs c) = cat_name c.
Proof. unfold with_subcategories. by case_decide. Qed.

(** ** More on saving a product *)

(** The three shapes of a reconciliation: the validated pair, and the one
    category it names after the repair. *)
Lemma reconcile_cases (categories : list CategoryDefinition) (push : KeyGen)
    (item : InventoryItem) (vc vs : string) (u : Updates) :
  reconcile categories push item = Some (vc, vs, u) →
  (u = ∅
   ∧ ∃ c, List.find (λ c, bool_decide (cat_name c = vc)) categories = Some c
          ∧ vs ∈ cat_subcategories c)
  ∨ (∃ c, List.find (λ c, bool_decide (cat_name c = vc)) categories = Some c
          ∧ vs = "Default"
          ∧ u = {[ CategorySubcategoriesPath (cat_id c) :=
                     VStrings (with_default (cat_subcategories c)) ]})
  ∨ (∃ key, List.find (λ c, bool_decide (cat_name c = vc)) categories = None
            ∧ vc = "Uncategorized" ∧ vs = "Default"
            ∧ push "categories" = Some key
            ∧ u = {[ CategoryPath key := VCategory "Uncategorized" ["Default"] ]}).
Proof.
  unfold reconcile.
  destruct (List.find (λ c, bool_decide (cat_name c = item_category item)) categories)
    as [categoryDef|] eqn:Hcat.
  - destruct (includes (cat_subcategories categoryDef) (item_subcategory item))
      eqn:Hsub; cbn [negb].
    + intros [= <- <- <-]. left. split; [done|].
      exists categoryDef. split; [done|]. by apply includes_true.
    + destruct (includes (cat_subcategories categoryDef) "Default") eqn:Hdef;
        cbn [negb]; intros [= <- <- <-].
      * left. split; [done|]. exists categoryDef. split; [done|].
        by apply includes_true.
      * right. left. by exists categoryDef.
  - destruct (List.find (λ c, bool_decide (cat_name c = "Uncategorized")) categories)
      as [uncat|] eqn:Huncat.
    + destruct (includes (cat_subcategories uncat) "Default") eqn:Hdef;
        cbn [negb]; intros [= <- <- <-].
      * left. split; [done|]. exists uncat. split; [done|]. by apply includes_true.
      * right. left. by exists uncat.
    + unfold usable_key. destruct (push "categories") as [key|]; [|done].
      case_decide; [done|]. intros [= <- <- <-]. right. right. by exists key.
Qed.


(** The validated pair exists in the category list that the batch leaves. *)
Lemma reconciled_pair_exists (categories : list CategoryDefinition)
    (push : KeyGen) (item : InventoryItem) (vc vs : string) (u : Updates)
    (key : string) (d : ProductData) :
  fresh_category_key push categories →
  reconcile categories push item = Some (vc, vs, u) →
  ∃ c, List.find (λ c, bool_decide (cat_name c = vc))
         (categories_after (<[ProductPath key := VProduct d]> u) categories)
       = Some c
       ∧ vs ∈ cat_subcategories c.
Proof.
  intros Hfresh Hrec.
  destruct (reconcile_cases categories push item vc vs u Hrec)
    as [(-> & c & Hc & Hvs) | [(c & Hc & -> & ->) | (ck & Hnone & -> & -> & Hpush & ->)]].
  - change (<[ProductPath key := ?v]> ∅)
      with ({[ ProductPath key := v ]} : Updates).
    rewrite categories_after_product. by exists c.
  - rewrite categories_after_product_subs.
    rewrite find_name_fmap by apply with_subcategories_name.
    rewrite Hc. eexists. split; [reflexivity|].
    unfold with_subcategories. rewrite decide_True by done. cbn.
    apply elem_of_with_default. by right.
  - rewrite categories_after_product_new by (by apply Hfresh).
    rewrite find_app_none by done.
    eexists. split; [reflexivity|]. by left.
Qed.

(** X2. Whatever product is saved, the record written refers, in the
    category list that results from the batch, to a category that exists
    by name and lists the record's subcategory. *)
Theorem saved_product_has_valid_pair
    (categories : list CategoryDefinition) (push : KeyGen) (item : InventoryItem) :
  generates_keys push →
  fresh_category_key push categories →
  ∃ updates productKey d,
    handleSaveItem categories push (Some item) = Issued updates
    ∧ updates !! ProductPath productKey = Some (VProduct d)
    ∧ (item_id item ≠ "" → productKey = item_id item)
    ∧ valid_pair (categories_after updates categories)
                 (item_of_product productKey d).
Proof.
  intros Hgen Hfresh.
  destruct (reconcile_total categories push item Hgen) as (vc & vs & u & Hrec & _).
  destruct (handleSaveItem_issued categories push item vc vs u Hgen Hrec)
    as (productKey & Hsave & Hkey & _).
  eexists _, productKey, _. split; [exact Hsave|].
  split; [apply lookup_insert_eq|]. split; [done|].
  apply (reconciled_pair_exists categories push item vc vs u); done.
Qed.

(** X3. A save raises, without calling the store, exactly when a key it
    needs cannot be generated: the key of a new "Uncategorized" category
    (neither the product's category nor "Uncategorized" is in the list), or
    the key of a new product (the item has no id).  Otherwise it calls the
    store: it never returns without a write. *)
Theorem save_throws_exactly_without_key
    (categories : list CategoryDefinition) (push : KeyGen) (item : InventoryItem) :
  (handleSaveItem categories push (Some item) = Threw
   ↔ (List.find (λ c, bool_decide (cat_name c = item_category item)) categories = None
      ∧ List.find (λ c, bool_decide (cat_name c = "Uncategorized")) categories = None
      ∧ usable_key (push "categories") = None)
     ∨ (item_id item = "" ∧ usable_key (push "products") = None))
  ∧ handleSaveItem categories push (Some item) ≠ Returned.
Proof.
  unfold handleSaveItem.
  destruct (reconcile categories push item) as [[[vc vs] u]|] eqn:Hrec.
  - assert (¬ (List.find (λ c, bool_decide (cat_name c = item_category item))
                 categories = None
               ∧ List.find (λ c, bool_decide (cat_name c = "Uncategorized"))
                   categories = None
               ∧ usable_key (push "categories") = None)) as Hno.
    { intros (H1 & H2 & H3). unfold reconcile in Hrec.
      by rewrite H1, H2, H3 in Hrec. }
    cbv zeta. destruct (decide (item_id item ≠ "")) as [Hid|Hid].
    + rewrite size_insert_pos. split; [|done].
      split; [done|]. intros [?|[? _]]; done.
    + apply dec_stable in Hid.
      destruct (usable_key (push "products")) as [pk|] eqn:Hpk.
      * rewrite size_insert_pos. split; [|done].
        split; [done|]. intros [?|[_ ?]]; done.
      * split; [|done]. split; [by right | done].
  - split; [|done]. split; [|done]. intros _. left.
    unfold reconcile in Hrec.
    destruct (List.find (λ c, bool_decide (cat_name c = item_category item))
                categories) as [c|].
    + by repeat case_match.
    + destruct (List.find (λ c, bool_decide (cat_name c = "Uncategorized"))
                  categories) as [uncat|].
      * by repeat case_match.
      * by destruct (usable_key (push "categories")).
Qed.


(** X2 on concrete data: the cap of the missing category Hats. *)
Lemma saved_product_has_valid_pair_witness :
  generates_keys examplePush
  ∧ fresh_category_key examplePush [shoes]
  ∧ ∃ updates d,
      handleSaveItem [shoes] examplePush (Some cap) = Issued updates
      ∧ updates !! ProductPath "p2" = Some (VProduct d)
      ∧ valid_pair (categories_after updates [shoes]) (item_of_product "p2" d).
Proof.
  assert (fresh_category_key examplePush [shoes]) as Hfresh.
  { intros key [= <-] Hin%list_elem_of_singleton. discriminate. }
  split; [exact examplePush_generates_keys|]. split; [exact Hfresh|].
  destruct (saved_product_has_valid_pair [shoes] examplePush cap
              examplePush_generates_keys Hfresh)
    as (updates & productKey & d & Hsave & Hd & Hkey & Hvalid).
  specialize (Hkey ltac:(discriminate)). subst productKey.
  exists updates, d. split; [exact Hsave|]. split; [exact Hd | exact Hvalid].
Defined.

(** ** The product list after a save or a deletion *)

Lemma sizes_after_untouched (u : Updates) (id : string) (sizes : gmap Size Z) :
  (∀ size, u !! ProductSizePath id size = None) →
  sizes_after u id sizes = sizes.
Proof.
  intros Hu. unfold sizes_after.
  induction SIZES as [|s l IH]; [done|].
  cbn [foldr]. by rewrite Hu, IH.
Qed.

(** An item that no path of the batch addresses stays as it is. *)
Lemma item_after_untouched (u : Updates) (i : InventoryItem) :
  u !! ProductPath (item_id i) = None →
  u !! ProductCategoryPath (item_id i) = None →
  u !! ProductSubcategoryPath (item_id i) = None →
  (∀ size, u !! ProductSizePath (item_id i) size = None) →
  item_after u i = Some i.
Proof.
  intros H1 H2 H3 H4. unfold item_after.
  rewrite H1, H2, H3, sizes_after_untouched by done. by destruct i.
Qed.

Lemma category_paths_only_None (u : Updates) (p : Path) :
  category_paths_only u →
  (∀ key, p ≠ CategoryPath key ∧ p ≠ CategorySubcategoriesPath key) →
  u !! p = None.
Proof.
  intros Hu Hp. destruct (u !! p) eqn:E; [|done].
  destruct (Hu p) as (key & [->| ->]); [by eexists | |]; by destruct (Hp key).
Qed.

(** The product list after a batch of one product record and category
    paths: the record replaces the product of that key, or is added. *)
Lemma items_after_product (u0 : Updates) (items : list InventoryItem)
    (key : string) (d : ProductData) :
  category_paths_only u0 →
  items_after (<[ProductPath key := VProduct d]> u0) items
  = (with_product key d <$> items)
    ++ (if decide (key ∈ item_id <$> items) then [] else [item_of_product key d]).
Proof.
  intros Hu0.
  assert (∀ p, (∀ k, p ≠ CategoryPath k ∧ p ≠ CategorySubcategoriesPath k) →
               u0 !! p = None) as Hnone.
  { intros p Hp. by apply category_paths_only_None. }
  unfold items_after. f_equal.
  - apply omap_all_some_fmap. intros i _. unfold with_product.
    destruct (decide (item_id i = key)) as [<-|Hne].
    + unfold item_after. by rewrite lookup_insert_eq.
    + apply item_after_untouched; try intros size;
        rewrite lookup_insert_ne by congruence; by apply Hnone.
  - assert (omap (created_item items) (map_to_list u0) = []) as Hrest.
    { apply omap_all_none. intros [p v] Hpv%elem_of_map_to_list.
      destruct (Hu0 p) as (k & [->| ->]); [by eexists | done | done]. }
    assert (omap (created_item items)
              (map_to_list (<[ProductPath key := VProduct d]> u0))
            ≡ₚ omap (created_item items) [(ProductPath key, VProduct d)]) as Hperm.
    { rewrite map_to_list_insert by (by apply Hnone).
      cbn [omap list_omap]. by rewrite Hrest. }
    cbn [omap list_omap created_item] in Hperm.
    destruct (decide (key ∈ item_id <$> items)) as [Hin|Hout].
    + rewrite bool_decide_eq_true_2 in Hperm by done.
      by apply Permutation_nil_r in Hperm.
    + rewrite bool_decide_eq_false_2 in Hperm by done.
      by apply Permutation_singleton_r in Hperm.
Qed.

(** The batch of [reconcile] holds category paths only. *)
Lemma reconcile_category_paths (categories : list CategoryDefinition)
    (push : KeyGen) (item : InventoryItem) (vc vs : string) (u : Updates) :
  reconcile categories push item = Some (vc, vs, u) → category_paths_only u.
Proof.
  intros Hrec.
  destruct (reconcile_cases categories push item vc vs u Hrec)
    as [(-> & _) | [(c & _ & _ & ->) | (key & _ & _ & _ & _ & ->)]];
    intros p [v Hv].
  - by rewrite lookup_empty in Hv.
  - apply lookup_singleton_Some in Hv as [<- _]. eauto.
  - apply lookup_singleton_Some in Hv as [<- _]. eauto.
Qed.

(** X4. A save changes the product list in one place: the record built
    from the item (with the validated category and subcategory) replaces
    the product that has the item's id, or is added under the generated
    key when the item has no id; every other product is as before. *)
Theorem save_replaces_or_adds_one_product
    (categories : list CategoryDefinition) (items : list InventoryItem)
    (push : KeyGen) (item : InventoryItem) :
  generates_keys push →
  ∃ updates productKey vc vs,
    handleSaveItem categories push (Some item) = Issued updates
    ∧ (item_id item ≠ "" → productKey = item_id item)
    ∧ (item_id item = "" → push "products" = Some productKey)
    ∧ items_after updates items
      = (with_product productKey (finalItemData item vc vs) <$> items)
        ++ (if decide (productKey ∈ item_id <$> items) then []
            else [item_of_product productKey (finalItemData item vc vs)]).
Proof.
  intros Hgen.
  destruct (reconcile_total categories push item Hgen) as (vc & vs & u & Hrec & _).
  destruct (handleSaveItem_issued categories push item vc vs u Hgen Hrec)
    as (productKey & Hsave & Hkey & Hnew).
  eexists _, productKey, vc, vs. split; [exact Hsave|].
  do 2 (split; [done|]).
  apply items_after_product.
  by apply (reconcile_category_paths categories push item vc vs).
Qed.

(** X4 on concrete data: the cap is saved again, the runner is untouched. *)
Lemma save_replaces_witness :
  generates_keys examplePush
  ∧ ∃ updates d,
      handleSaveItem [shoes; hats] examplePush (Some cap) = Issued updates
      ∧ items_after updates [runner; cap] = [runner; item_of_product "p2" d].
Proof.
  split; [exact examplePush_generates_keys|].
  destruct (save_replaces_or_adds_one_product [shoes; hats] [runner; cap]
              examplePush cap examplePush_generates_keys)
    as (updates & productKey & vc & vs & Hsave & Hkey & _ & Hafter).
  specialize (Hkey ltac:(discriminate)). subst productKey.
  exists updates, (finalItemData cap vc vs). split; [exact Hsave|].
  rewrite Hafter. reflexivity.
Defined.

Lemma omap_filter_id {A} (f : A → option A) (P : A → Prop)
    `{!∀ x, Decision (P x)} (l : list A) :
  (∀ x, f x = if decide (P x) then Some x else None) →
  omap f l = filter P l.
Proof.
  intros Hf. induction l as [|a l IH]; [done|].
  cbn [omap list_omap]. rewrite Hf, filter_cons, IH. by case_decide.
Qed.

(** The product list after the removal of one product path. *)
Lemma items_after_remove (items : list InventoryItem) (itemId : string) :
  items_after {[ ProductPath itemId := VNull ]} items
  = filter (λ i, item_id i ≠ itemId) items.
Proof.
  unfold items_after. rewrite map_to_list_singleton.
  cbn [omap list_omap created_item]. rewrite app_nil_r.
  apply omap_filter_id. intros i. case_decide as Hne.
  - apply item_after_untouched; try intros size;
      by rewrite lookup_singleton_ne by congruence.
  - unfold item_after. by rewrite Hne, lookup_singleton_eq.
Qed.

Lemma filter_all {A} (P : A → Prop) `{!∀ x, Decision (P x)} (l : list A) :
  (∀ x, x ∈ l → P x) → filter P l = l.
Proof.
  induction l as [|a l IH]; intros Hall; [done|].
  rewrite filter_cons_True by (apply Hall; left). f_equal.
  apply IH. intros x Hx. apply Hall. by right.
Qed.

Lemma fmap_fixes {A} (f : A → A) (l : list A) :
  (∀ x, x ∈ l → f x = x) → f <$> l = l.
Proof.
  induction l as [|a l IH]; intros H; [done|].
  rewrite fmap_cons, (H a) by left. f_equal.
  apply IH. intros x Hx. apply H. by right.
Qed.

(** X5. Deleting a product, once confirmed, removes from the product list
    every record with that id and nothing else; without confirmation, or
    with an empty id, the store is not called. *)
Theorem delete_item_removes_exactly_it :
  (∀ (items : list InventoryItem) (itemId : string),
     itemId ≠ "" →
     ∃ updates,
       handleDeleteItem true itemId = Issued updates
       ∧ (∀ i, i ∈ items_after updates items ↔ i ∈ items ∧ item_id i ≠ itemId)
       ∧ items_after updates items = filter (λ i, item_id i ≠ itemId) items)
  ∧ (∀ itemId, handleDeleteItem false itemId = Returned)
  ∧ (∀ confirmed, handleDeleteItem confirmed "" = Returned).
Proof.
  split; [|split].
  - intros items itemId Hid. unfold handleDeleteItem.
    rewrite bool_decide_eq_false_2 by done.
    eexists. split; [reflexivity|]. rewrite items_after_remove.
    split; [|done]. intros i. rewrite list_elem_of_filter. tauto.
  - intros itemId. unfold handleDeleteItem. by case_bool_decide.
  - done.
Qed.

(** X5 on concrete data. *)
Lemma delete_item_witness :
  "p1" ≠ ""
  ∧ items_after_outcome (handleDeleteItem true "p1") [runner; cap] = [cap].
Proof.
  split; [discriminate|].
  destruct (proj1 delete_item_removes_exactly_it [runner; cap] "p1"
              ltac:(discriminate)) as (updates & Hout & _ & Hafter).
  rewrite Hout. cbn [items_after_outcome]. rewrite Hafter. reflexivity.
Defined.

(** X6. A product saved without id is added under the generated key, and
    deleting that key afterwards gives back the product list as it was. *)
Theorem add_then_delete_restores_the_list
    (categories : list CategoryDefinition) (items : list InventoryItem)
    (push : KeyGen) (item : InventoryItem) :
  generates_keys push →
  fresh_product_key push items →
  item_id item = "" →
  ∃ key,
    push "products" = Some key
    ∧ (∃ i, i ∈ items_after_outcome (handleSaveItem categories push (Some item)) items
            ∧ item_id i = key ∧ item_name i = item_name item
            ∧ item_sizes i = item_sizes item)
    ∧ items_after_outcome (handleDeleteItem true key)
        (items_after_outcome (handleSaveItem categories push (Some item)) items)
      = items.
Proof.
  intros Hgen Hfresh Hid.
  destruct (reconcile_total categories push item Hgen) as (vc & vs & u & Hrec & _).
  destruct (handleSaveItem_issued categories push item vc vs u Hgen Hrec)
    as (key & Hsave & _ & Hkey).
  pose proof (items_after_product u items key (finalItemData item vc vs)
                (reconcile_category_paths categories push item vc vs u Hrec))
    as Hafter.
  specialize (Hkey Hid). exists key. split; [done|].
  pose proof (Hfresh key Hkey) as Hout.
  rewrite Hsave. cbn [items_after_outcome]. rewrite Hafter.
  rewrite decide_False by done.
  assert (∀ i, i ∈ items → item_id i ≠ key) as Hother.
  { intros i Hi <-. apply Hout. by apply list_elem_of_fmap_2. }
  assert (with_product key (finalItemData item vc vs) <$> items = items) as ->.
  { apply fmap_fixes. intros i Hi. unfold with_product.
    rewrite decide_False; [done | by apply Hother]. }
  split.
  { eexists. split; [apply elem_of_app; right; left|]. done. }
  assert (key ≠ "") as Hne.
  { destruct (Hgen "products") as (k & Hk & Hk'). congruence. }
  unfold handleDeleteItem. rewrite bool_decide_eq_false_2 by done.
  cbn [items_after_outcome]. rewrite items_after_remove, filter_app.
  rewrite filter_cons_False, filter_nil, app_nil_r by (cbn; by intros ?).
  by apply filter_all.
Qed.

(** X6 on concrete data: the runner is added to a list that holds the cap. *)
Lemma add_then_delete_witness :
  generates_keys examplePush
  ∧ fresh_product_key examplePush [cap]
  ∧ item_id runnerForm = ""
  ∧ items_after_outcome (handleDeleteItem true "-Nproducts")
      (items_after_outcome (handleSaveItem [shoes] examplePush (Some runnerForm))
         [cap])
    = [cap].
Proof.
  assert (fresh_product_key examplePush [cap]) as Hfresh.
  { intros key [= <-] Hin%list_elem_of_singleton. discriminate. }
  split; [exact examplePush_generates_keys|]. split; [exact Hfresh|].
  split; [reflexivity|].
  destruct (add_then_delete_restores_the_list [shoes] [cap] examplePush runnerForm
              examplePush_generates_keys Hfresh eq_refl)
    as (key & Hkey & _ & Hround).
  injection Hkey as <-. exact Hround.
Defined.

(** ** Consistency is kept: saving *)

Lemma fmap_same_key {A} (key : A → string) (g : A → A) (l : list A) :
  (∀ x, key (g x) = key x) → key <$> (g <$> l) = key <$> l.
Proof.
  intros Hg. rewrite <- list_fmap_compose. apply list_fmap_ext.
  intros i x _. apply Hg.
Qed.

Lemma NoDup_key_inj {A} (key : A → string) (l : list A) (x y : A) :
  NoDup (key <$> l) → x ∈ l → y ∈ l → key x = key y → x = y.
Proof.
  intros Hnodup Hx Hy Hkey.
  pose proof (find_by_key key l x Hnodup Hx) as Hfx.
  pose proof (find_by_key key l y Hnodup Hy) as Hfy.
  rewrite Hkey in Hfx. congruence.
Qed.

Lemma NoDup_fmap_filter {A} (key : A → string) (P : A → Prop)
    `{!∀ x, Decision (P x)} (l : list A) :
  NoDup (key <$> l) → NoDup (key <$> filter P l).
Proof.
  induction l as [|a l IH]; [done|].
  rewrite fmap_cons, NoDup_cons. intros [Hfresh Hnodup].
  rewrite filter_cons. case_decide; [|by apply IH].
  rewrite fmap_cons, NoDup_cons. split; [|by apply IH].
  intros (x & Hx & [_ Hin]%list_elem_of_filter)%list_elem_of_fmap.
  apply Hfresh. rewrite Hx. by apply list_elem_of_fmap_2.
Qed.

(** With distinct names, a product is valid for the handlers exactly when
    it refers to an existing category and subcategory. *)
Lemma valid_pair_refers (categories : list CategoryDefinition)
    (item : InventoryItem) :
  valid_pair categories item → refers_to_existing categories item.
Proof.
  intros (c & Hfind & Hsub). apply find_some_elem in Hfind as [Hin Hname].
  apply bool_decide_eq_true in Hname. by exists c.
Qed.

Lemma refers_valid_pair (categories : list CategoryDefinition)
    (item : InventoryItem) :
  NoDup (cat_name <$> categories) →
  refers_to_existing categories item → valid_pair categories item.
Proof.
  intros Hnodup (c & Hin & Hname & Hsub). exists c. split; [|done].
  rewrite <- Hname. by apply (find_by_key cat_name).
Qed.

Lemma extends_refl (categories : list CategoryDefinition) :
  extends categories categories.
Proof. unfold extends. tauto. Qed.

(** Replacing the subcategory list of one category by a larger one. *)
Lemma extends_with_subcategories (categories : list CategoryDefinition)
    (c : CategoryDefinition) (subs : list string) :
  NoDup (cat_id <$> categories) →
  c ∈ categories →
  (∀ s, s ∈ cat_subcategories c → s ∈ subs) →
  subs ≠ [] →
  (cat_name c = "Uncategorized" → "Default" ∈ subs) →
  extends categories (with_subcategories (cat_id c) subs <$> categories).
Proof.
  intros Hnodup Hc Hsuper Hne Hdef.
  assert (∀ c0, c0 ∈ categories → cat_id c0 = cat_id c → c0 = c) as Hsame.
  { intros c0 Hc0 Hid. by apply (NoDup_key_inj cat_id categories). }
  split; [|split; [|split]].
  - intros _. rewrite fmap_same_key; [done|].
    intros x. unfold with_subcategories. by case_decide.
  - intros Hnames. rewrite fmap_same_key; [done|].
    apply with_subcategories_name.
  - intros Hok c' (c0 & -> & Hc0)%list_elem_of_fmap.
    unfold with_subcategories. case_decide as Hid; [|by apply Hok].
    rewrite (Hsame c0 Hc0 Hid). by split.
  - intros item (c0 & Hc0 & Hname & Hsub).
    exists (with_subcategories (cat_id c) subs c0).
    split; [by apply list_elem_of_fmap_2|].
    rewrite with_subcategories_name. split; [done|].
    unfold with_subcategories. case_decide as Hid; [|done].
    cbn. apply Hsuper. by rewrite <- (Hsame c0 Hc0 Hid).
Qed.

(** Adding a category under a new id and a new name. *)
Lemma extends_snoc (categories : list CategoryDefinition)
    (key name : string) (subs : list string) :
  key ∉ cat_id <$> categories →
  name ∉ cat_name <$> categories →
  subs ≠ [] →
  (name = "Uncategorized" → "Default" ∈ subs) →
  extends categories (categories ++ [mkCategory key name subs]).
Proof.
  intros Hkey Hname Hne Hdef.
  split; [|split; [|split]].
  - intros Hnodup. rewrite fmap_app. apply NoDup_app. split; [done|].
    split; [|apply NoDup_singleton].
    intros x Hx ->%list_elem_of_singleton. done.
  - intros Hnodup. rewrite fmap_app. apply NoDup_app. split; [done|].
    split; [|apply NoDup_singleton].
    intros x Hx ->%list_elem_of_singleton. done.
  - intros Hok c' [Hc'| ->%list_elem_of_singleton]%elem_of_app; [by apply Hok|].
    by split.
  - intros item (c0 & Hc0 & Hrest). exists c0. split; [|done].
    apply elem_of_app. by left.
Qed.

Lemma with_default_nonempty (subs : list string) : with_default subs ≠ [].
Proof.
  intros Hnil. assert ("Default" ∈ with_default subs) as Hin.
  { apply elem_of_with_default. by right. }
  rewrite Hnil in Hin. by apply elem_of_nil in Hin.
Qed.

(** The category list after a save extends the one before. *)
Lemma reconcile_extends (categories : list CategoryDefinition) (push : KeyGen)
    (item : InventoryItem) (vc vs : string) (u : Updates)
    (key : string) (d : ProductData) :
  fresh_category_key push categories →
  NoDup (cat_id <$> categories) →
  reconcile categories push item = Some (vc, vs, u) →
  extends categories
    (categories_after (<[ProductPath key := VProduct d]> u) categories).
Proof.
  intros Hfresh Hnodup Hrec.
  destruct (reconcile_cases categories push item vc vs u Hrec)
    as [(-> & _) | [(c & Hc & -> & ->) | (ck & Hnone & -> & -> & Hpush & ->)]].
  - change (<[ProductPath key := ?v]> ∅)
      with ({[ ProductPath key := v ]} : Updates).
    rewrite categories_after_product. apply extends_refl.
  - rewrite categories_after_product_subs.
    apply find_some_elem in Hc as [Hc _].
    apply extends_with_subcategories; try done.
    + intros s Hs. apply elem_of_with_default. by left.
    + apply with_default_nonempty.
    + intros _. apply elem_of_with_default. by right.
  - rewrite categories_after_product_new by (by apply Hfresh).
    apply extends_snoc; [by apply Hfresh | | done | by left].
    intros (c & Hname & Hc)%list_elem_of_fmap.
    rewrite find_none_iff in Hnone. specialize (Hnone c Hc).
    apply bool_decide_eq_false in Hnone. by apply Hnone.
Qed.

(** X7. Saving a product keeps the two collections consistent: from
    category and product lists with distinct ids and names, in which every
    category has a subcategory, "Uncategorized" has "Default" and every
    product refers to an existing category and subcategory, the lists that
    result from the batch have the same properties. *)
Theorem save_keeps_consistency
    (categories : list CategoryDefinition) (items : list InventoryItem)
    (push : KeyGen) (item : InventoryItem) :
  generates_keys push →
  fresh_category_key push categories →
  consistent categories items →
  ∃ updates,
    handleSaveItem categories push (Some item) = Issued updates
    ∧ consistent (categories_after updates categories) (items_after updates items).
Proof.
  intros Hgen Hfresh (Hids & Hnames & Hok & Hitems & Hrefer).
  destruct (reconcile_total categories push item Hgen) as (vc & vs & u & Hrec & _).
  destruct (handleSaveItem_issued categories push item vc vs u Hgen Hrec)
    as (key & Hsave & _).
  eexists. split; [exact Hsave|].
  pose proof (reconcile_extends categories push item vc vs u key
                (finalItemData item vc vs) Hfresh Hids Hrec)
    as (Hids' & Hnames' & Hok' & Hmono).
  (* the saved record refers to an existing pair *)
  assert (refers_to_existing
            (categories_after (<[ProductPath key := VProduct (finalItemData item vc vs)]> u)
               categories)
            (item_of_product key (finalItemData item vc vs))) as Hnew.
  { apply valid_pair_refers.
    apply (reconciled_pair_exists categories push item vc vs u); done. }
  rewrite (items_after_product u items key)
    by (by apply (reconcile_category_paths categories push item vc vs)).
  split; [by apply Hids'|]. split; [by apply Hnames'|]. split; [by apply Hok'|].
  split.
  - rewrite fmap_app. apply NoDup_app. split; [|split].
    + rewrite fmap_same_key; [done|].
      intros x. unfold with_product. by case_decide.
    + intros x Hx. rewrite fmap_same_key in Hx
        by (intros y; unfold with_product; by case_decide).
      case_decide; [apply not_elem_of_nil|].
      intros ->%list_elem_of_singleton. done.
    + case_decide; [apply NoDup_nil_2 | apply NoDup_singleton].
  - intros i [(i0 & -> & Hi0)%list_elem_of_fmap | Hi]%elem_of_app.
    + unfold with_product. case_decide; [exact Hnew|]. by apply Hmono, Hrefer.
    + case_decide; [by apply elem_of_nil in Hi|].
      apply list_elem_of_singleton in Hi as ->. exact Hnew.
Qed.

(** The example lists are consistent. *)
Lemma example_consistent : consistent [shoes; hats] [runner; cap].
Proof.
  split; [apply (bool_decide_unpack _); by vm_compute|].
  split; [apply (bool_decide_unpack _); by vm_compute|].
  split.
  { intros c Hc.
    repeat (apply elem_of_cons in Hc as [->|Hc]); [| |by apply elem_of_nil in Hc];
      (split; [discriminate | intros [=]]). }
  split; [apply (bool_decide_unpack _); by vm_compute|].
  intros i Hi.
  repeat (apply elem_of_cons in Hi as [->|Hi]); [| |by apply elem_of_nil in Hi].
  - exists shoes. split; [left|]. split; [reflexivity | left].
  - exists hats. split; [right; left|]. split; [reflexivity | left].
Qed.

Lemma example_fresh_category_key : fresh_category_key examplePush [shoes; hats].
Proof.
  intros key [= <-] Hin.
  repeat (apply elem_of_cons in Hin as [Hin|Hin]); try discriminate.
  by apply elem_of_nil in Hin.
Qed.

(** X7 on concrete data: a clutch of the missing category Bags is saved. *)
Lemma save_keeps_consistency_witness :
  generates_keys examplePush
  ∧ fresh_category_key examplePush [shoes; hats]
  ∧ consistent [shoes; hats] [runner; cap]
  ∧ ∃ updates,
      handleSaveItem [shoes; hats] examplePush (Some clutch) = Issued updates
      ∧ consistent (categories_after updates [shoes; hats])
                   (items_after updates [runner; cap]).
Proof.
  split; [exact examplePush_generates_keys|].
  split; [exact example_fresh_category_key|].
  split; [exact example_consistent|].
  exact (save_keeps_consistency [shoes; hats] [runner; cap] examplePush clutch
           examplePush_generates_keys example_fresh_category_key
           example_consistent).
Defined.
(** ** Consistency is kept: deleting a category *)

Lemma reassign_to_uncategorized_absent (u : Updates) (l : list InventoryItem)
    (id : string) :
  (∀ j, j ∈ l → item_id j ≠ id) →
  reassign_to_uncategorized u l !! ProductCategoryPath id
  = u !! ProductCategoryPath id
  ∧ reassign_to_uncategorized u l !! ProductSubcategoryPath id
    = u !! ProductSubcategoryPath id.
Proof.
  induction l as [|x l IH] using rev_ind; intros Hl; [done|].
  rewrite reassign_to_uncategorized_snoc.
  assert (item_id x ≠ id) as Hne.
  { apply Hl, elem_of_app. right. left. }
  rewrite !lookup_insert_ne by congruence.
  apply IH. intros j Hj. apply Hl, elem_of_app. by left.
Qed.

Lemma reassign_to_uncategorized_insert (u : Updates) (l : list InventoryItem)
    (p : Path) (v : Value) :
  (∀ id, p ≠ ProductCategoryPath id ∧ p ≠ ProductSubcategoryPath id) →
  reassign_to_uncategorized (<[p := v]> u) l
  = <[p := v]> (reassign_to_uncategorized u l).
Proof.
  intros Hp. induction l as [|x l IH] using rev_ind; [done|].
  rewrite !reassign_to_uncategorized_snoc, IH.
  destruct (Hp (item_id x)) as [Hc Hs].
  rewrite (insert_insert_ne _ (ProductCategoryPath (item_id x)) p) by done.
  by rewrite (insert_insert_ne _ (ProductSubcategoryPath (item_id x)) p) by done.
Qed.

(** The product list after the batch of a category deletion: the products
    of the category are relocated, the others are as before. *)
Lemma items_after_delete_category (fixed : Updates) (items : list InventoryItem)
    (categoryId categoryName : string) :
  category_paths_only fixed →
  NoDup (item_id <$> items) →
  items_after
    (<[CategoryPath categoryId := VNull]>
       (reassign_to_uncategorized fixed
          (filter (λ item, item_category item = categoryName) items))) items
  = relocated_if (λ i, item_category i = categoryName)
      "Uncategorized" "Default" <$> items.
Proof.
  intros Hfixed Hnodup.
  set (l := filter (λ item, item_category item = categoryName) items).
  assert (∀ p, (∀ id, p ≠ ProductCategoryPath id ∧ p ≠ ProductSubcategoryPath id) →
               (∀ k, p ≠ CategoryPath k ∧ p ≠ CategorySubcategoriesPath k) →
               (<[CategoryPath categoryId := VNull]>
                  (reassign_to_uncategorized fixed l) : Updates) !! p = None)
    as Hother.
  { intros p Hp Hk. rewrite lookup_insert_ne by (intros <-; by destruct (Hk categoryId)).
    rewrite reassign_to_uncategorized_other by done.
    by apply category_paths_only_None. }
  unfold items_after.
  rewrite (omap_all_none (created_item items)), app_nil_r.
  - apply omap_all_some_fmap. intros i Hi. unfold item_after.
    rewrite Hother by done.
    rewrite sizes_after_untouched by (intros size; by apply Hother).
    rewrite !lookup_insert_ne by done.
    unfold relocated_if. case_decide as Hcat.
    + destruct (reassign_to_uncategorized_item fixed l i) as [-> ->]; [|done].
      by apply list_elem_of_filter.
    + destruct (reassign_to_uncategorized_absent fixed l (item_id i)) as [-> ->].
      { intros j [Hj Hin]%list_elem_of_filter Heq. apply Hcat.
        by rewrite <- (NoDup_key_inj item_id items j i Hnodup Hin Hi Heq). }
      rewrite !category_paths_only_None by done. by destruct i.
  - intros [p v] Hpv%elem_of_map_to_list.
    destruct (created_item items (p, v)) as [c|] eqn:Hc; [|done].
    unfold created_item in Hc. destruct p; try done. destruct v; try done.
    by rewrite Hother in Hpv.
Qed.

(** The kept categories after the batch of a category deletion. *)
Lemma categories_kept_after_delete (u0 : Updates) (l : list InventoryItem)
    (categories : list CategoryDefinition) (categoryId : string) :
  omap (category_after
          (<[CategoryPath categoryId := VNull]> (reassign_to_uncategorized u0 l)))
       categories
  = omap (category_after u0) (filter (λ c, cat_id c ≠ categoryId) categories).
Proof.
  induction categories as [|a categories IH]; [done|].
  cbn [omap list_omap]. rewrite filter_cons. case_decide as Hid.
  - cbn [omap list_omap]. rewrite IH.
    replace (category_after (<[CategoryPath categoryId := VNull]> _) a)
      with (category_after u0 a); [done|].
    unfold category_after.
    rewrite !lookup_insert_ne by congruence.
    by rewrite !reassign_to_uncategorized_other by done.
  - rewrite IH.
    replace (category_after (<[CategoryPath categoryId := VNull]> _) a)
      with (@None CategoryDefinition); [done|].
    unfold category_after. by rewrite Hid, lookup_insert_eq.
Qed.

(** The lists after the batch of a category deletion: the other categories
    are kept or extended, "Uncategorized" exists with "Default", and the
    products of the deleted category are relocated. *)
Lemma delete_category_next (categories : list CategoryDefinition)
    (items : list InventoryItem) (push : KeyGen) (c : CategoryDefinition)
    (updates : Updates) :
  fresh_category_key push categories →
  NoDup (cat_id <$> categories) →
  NoDup (item_id <$> items) →
  c ∈ categories →
  cat_name c ≠ "Uncategorized" →
  deleteCategoryUpdates categories items push (cat_id c) (cat_name c)
  = Some updates →
  extends (filter (λ c0, cat_id c0 ≠ cat_id c) categories)
          (categories_after updates categories)
  ∧ (∃ uncat, uncat ∈ categories_after updates categories
              ∧ cat_name uncat = "Uncategorized"
              ∧ "Default" ∈ cat_subcategories uncat)
  ∧ (∀ c', c' ∈ categories_after updates categories →
           cat_name c' = "Uncategorized"
           ∨ ∃ c0, c0 ∈ categories ∧ cat_id c0 ≠ cat_id c
                   ∧ cat_name c0 = cat_name c')
  ∧ items_after updates items
    = relocated_if (λ i, item_category i = cat_name c)
        "Uncategorized" "Default" <$> items.
Proof.
  intros Hfresh Hids Hitems Hc Hname. unfold deleteCategoryUpdates.
  set (l := filter (λ item, item_category item = cat_name c) items).
  set (kept := filter (λ c0, cat_id c0 ≠ cat_id c) categories).
  assert (NoDup (cat_id <$> kept)) as Hkept by (by apply NoDup_fmap_filter).
  destruct (List.find _ categories) as [uncat|] eqn:Hfind.
  - apply find_some_elem in Hfind as [Hin Huncat].
    apply bool_decide_eq_true in Huncat.
    assert (uncat ∈ kept) as Hin'.
    { apply list_elem_of_filter. split; [|done]. intros Hid. apply Hname.
      by rewrite <- (NoDup_key_inj cat_id categories uncat c Hids Hin Hc Hid). }
    destruct (includes (cat_subcategories uncat) "Default") eqn:Hinc;
      cbn [negb]; intros [= <-].
    + apply includes_true in Hinc.
      assert (categories_after
                (<[CategoryPath (cat_id c) := VNull]>
                   (reassign_to_uncategorized ∅ l)) categories = kept) as ->.
      { unfold categories_after.
        rewrite categories_kept_after_delete, created_categories_none, app_nil_r.
        - apply omap_all_some. intros c0 _. unfold category_after.
          by rewrite !lookup_empty.
        - intros key name subs.
          destruct (decide (key = cat_id c)) as [->|Hne].
          + by rewrite lookup_insert_eq.
          + rewrite lookup_insert_ne by congruence.
            rewrite reassign_to_uncategorized_other by done.
            by rewrite lookup_empty. }
      split; [apply extends_refl|]. split; [by exists uncat|].
      split.
      { intros c' [Hid' Hc']%list_elem_of_filter. right. by exists c'. }
      apply items_after_delete_category; [|done].
      intros p [v Hv]. by rewrite lookup_empty in Hv.
    + apply includes_false in Hinc.
      assert (categories_after
                (<[CategoryPath (cat_id c) := VNull]>
                   (reassign_to_uncategorized
                      {[ CategorySubcategoriesPath (cat_id uncat) :=
                           VStrings (with_default (cat_subcategories uncat)) ]} l))
                categories
              = with_subcategories (cat_id uncat)
                  (with_default (cat_subcategories uncat)) <$> kept) as ->.
      { unfold categories_after.
        rewrite categories_kept_after_delete, created_categories_none, app_nil_r.
        - apply omap_all_some_fmap. intros c0 _.
          unfold category_after, with_subcategories.
          rewrite lookup_singleton_ne by done.
          destruct (decide (cat_id c0 = cat_id uncat)) as [->|Hne].
          + by rewrite lookup_singleton_eq.
          + rewrite lookup_singleton_ne by congruence. by destruct c0.
        - intros key name subs.
          destruct (decide (key = cat_id c)) as [->|Hne].
          + by rewrite lookup_insert_eq.
          + rewrite lookup_insert_ne by congruence.
            rewrite reassign_to_uncategorized_other by done.
            by rewrite lookup_singleton_ne. }
      split; [|split].
      * apply extends_with_subcategories; try done.
        -- intros s Hs. apply elem_of_with_default. by left.
        -- apply with_default_nonempty.
        -- intros _. apply elem_of_with_default. by right.
      * exists (with_subcategories (cat_id uncat)
                  (with_default (cat_subcategories uncat)) uncat).
        split; [by apply list_elem_of_fmap_2|].
        rewrite with_subcategories_name. split; [done|].
        unfold with_subcategories. rewrite decide_True by done.
        apply elem_of_with_default. by right.
      * split.
        { intros c' (c0 & -> & [Hid0 Hc0]%list_elem_of_filter)%list_elem_of_fmap.
          right. exists c0. by rewrite with_subcategories_name. }
        apply items_after_delete_category; [|done].
        intros p [v Hv]. apply lookup_singleton_Some in Hv as [<- _]. eauto.
  - unfold usable_key. destruct (push "categories") as [key|] eqn:Hpush; [|done].
    case_decide; [done|]. intros [= <-].
    assert (key ∉ cat_id <$> categories) as Hkey by (by apply Hfresh).
    assert (key ≠ cat_id c) as Hne.
    { intros ->. apply Hkey. by apply list_elem_of_fmap_2. }
    assert (categories_after
              (<[CategoryPath (cat_id c) := VNull]>
                 (reassign_to_uncategorized
                    {[ CategoryPath key := VCategory "Uncategorized" ["Default"] ]} l))
              categories
            = kept ++ [mkCategory key "Uncategorized" ["Default"]]) as ->.
    { unfold categories_after. rewrite categories_kept_after_delete. f_equal.
      - apply omap_all_some. intros c0 [_ Hc0]%list_elem_of_filter.
        unfold category_after.
        assert (cat_id c0 ≠ key) as Hne0.
        { intros <-. apply Hkey. by apply list_elem_of_fmap_2. }
        by rewrite !lookup_singleton_ne by congruence.
      - apply Permutation_singleton_r.
        rewrite <- insert_empty.
        rewrite reassign_to_uncategorized_insert by done.
        rewrite insert_insert_ne by congruence.
        rewrite map_to_list_insert.
        + cbn [omap list_omap created_category].
          rewrite bool_decide_eq_false_2 by done.
          rewrite created_categories_none; [done|].
          intros k name subs.
          destruct (decide (k = cat_id c)) as [->|Hk].
          * by rewrite lookup_insert_eq.
          * rewrite lookup_insert_ne by congruence.
            rewrite reassign_to_uncategorized_other by done.
            by rewrite lookup_empty.
        + rewrite lookup_insert_ne by congruence.
          rewrite reassign_to_uncategorized_other by done.
          by rewrite lookup_empty. }
    split; [|split].
    + apply extends_snoc; [| |done|by left].
      * intros (c0 & Hid & [_ Hc0]%list_elem_of_filter)%list_elem_of_fmap.
        apply Hkey. rewrite Hid. by apply list_elem_of_fmap_2.
      * intros (c0 & Hn & [_ Hc0]%list_elem_of_filter)%list_elem_of_fmap.
        rewrite find_none_iff in Hfind. specialize (Hfind c0 Hc0).
        apply bool_decide_eq_false in Hfind. by apply Hfind.
    + eexists. split; [apply elem_of_app; right; left|]. split; [done | left].
    + split.
      { intros c' [[Hid' Hc']%list_elem_of_filter
                  | ->%list_elem_of_singleton]%elem_of_app; [|by left].
        right. by exists c'. }
      apply items_after_delete_category; [|done].
      intros p [v Hv]. apply lookup_singleton_Some in Hv as [<- _]. eauto.
Qed.

Lemma deleteCategoryUpdates_total (categories : list CategoryDefinition)
    (items : list InventoryItem) (push : KeyGen) (categoryId categoryName : string) :
  generates_keys push →
  is_Some (deleteCategoryUpdates categories items push categoryId categoryName).
Proof.
  intros Hgen. unfold deleteCategoryUpdates.
  destruct (List.find _ categories) as [uncat|].
  - by destruct (negb _).
  - destruct (usable_key_generated push "categories" Hgen) as (key & -> & _).
    done.
Qed.

Lemma relocated_if_id (P : InventoryItem → Prop) `{!∀ i, Decision (P i)}
    (category subcategory : string) (i : InventoryItem) :
  item_id (relocated_if P category subcategory i) = item_id i.
Proof. unfold relocated_if. by case_decide. Qed.

(** X8. Deleting a category keeps the two collections consistent: after
    the batch the category is gone, no product names it, no product is
    lost, and again every product refers to an existing category and
    subcategory, with ids and names distinct and "Default" present in
    "Uncategorized". *)
Theorem delete_category_keeps_consistency
    (categories : list CategoryDefinition) (items : list InventoryItem)
    (push : KeyGen) (accepted : Updates → bool) (view : ViewState)
    (c : CategoryDefinition) :
  generates_keys push →
  fresh_category_key push categories →
  consistent categories items →
  c ∈ categories →
  cat_name c ≠ "Uncategorized" →
  cat_id c ≠ "" →
  ∃ updates,
    (handleDeleteCategory categories items push accepted view
       (cat_id c) (cat_name c)).1 = Issued updates
    ∧ consistent (categories_after updates categories) (items_after updates items)
    ∧ (∀ c', c' ∈ categories_after updates categories → cat_name c' ≠ cat_name c)
    ∧ (∀ i, i ∈ items_after updates items → item_category i ≠ cat_name c)
    ∧ item_id <$> items_after updates items = item_id <$> items.
Proof.
  intros Hgen Hfresh (Hids & Hnames & Hok & Hitems & Hrefer) Hc Hname Hid.
  destruct (deleteCategoryUpdates_total categories items push
              (cat_id c) (cat_name c) Hgen) as [updates Hupd].
  exists updates. split.
  { unfold handleDeleteCategory.
    rewrite (bool_decide_eq_false_2 _ Hname), (bool_decide_eq_false_2 _ Hid).
    cbn [orb]. rewrite Hupd. by destruct (accepted _ && _). }
  destruct (delete_category_next categories items push c updates
              Hfresh Hids Hitems Hc Hname Hupd)
    as ((Hids' & Hnames' & Hok' & Hmono) & (uncat & Huncat & Hun & Hdef)
        & Hfrom & ->).
  assert (∀ c0, c0 ∈ categories → cat_name c0 ≠ cat_name c →
                c0 ∈ filter (λ c0, cat_id c0 ≠ cat_id c) categories) as Hkept.
  { intros c0 Hc0 Hn0. apply list_elem_of_filter. split; [|done].
    intros Hid0. apply Hn0.
    by rewrite (NoDup_key_inj cat_id categories c0 c Hids Hc0 Hc Hid0). }
  split; [|split; [|split]].
  - split; [by apply Hids', NoDup_fmap_filter|].
    split; [by apply Hnames', NoDup_fmap_filter|].
    split.
    { apply Hok'. intros c0 [_ Hc0]%list_elem_of_filter. by apply Hok. }
    split.
    { rewrite fmap_same_key; [done|]. intros i. apply relocated_if_id. }
    intros i (i0 & -> & Hi0)%list_elem_of_fmap.
    unfold relocated_if. case_decide as Hcat.
    + by exists uncat.
    + apply Hmono. destruct (Hrefer i0 Hi0) as (c0 & Hc0 & Hn0 & Hs0).
      exists c0. split; [|done]. apply Hkept; [done|]. by rewrite Hn0.
  - intros c' Hc' Heq. destruct (Hfrom c' Hc') as [Hun'|(c0 & Hc0 & Hid0 & Hn0)].
    + apply Hname. by rewrite <- Heq.
    + apply Hid0. f_equal.
      apply (NoDup_key_inj cat_name categories c0 c Hnames Hc0 Hc). by rewrite Hn0.
  - intros i (i0 & -> & Hi0)%list_elem_of_fmap.
    unfold relocated_if. case_decide as Hcat; [|done].
    cbn. intros Heq. by apply Hname.
  - apply fmap_same_key. intros i. apply relocated_if_id.
Qed.

Lemma example_shoes_deletable :
  shoes ∈ [shoes; hats] ∧ cat_name shoes ≠ "Uncategorized" ∧ cat_id shoes ≠ "".
Proof. split; [left | by split]. Qed.

(** X8 on concrete data: Shoes is deleted while Runner is in it. *)
Lemma delete_category_keeps_consistency_witness :
  generates_keys examplePush
  ∧ fresh_category_key examplePush [shoes; hats]
  ∧ consistent [shoes; hats] [runner; cap]
  ∧ shoes ∈ [shoes; hats]
  ∧ cat_name shoes ≠ "Uncategorized"
  ∧ cat_id shoes ≠ ""
  ∧ ∃ updates,
      (handleDeleteCategory [shoes; hats] [runner; cap] examplePush (λ _, true)
         (mkView stock None None) (cat_id shoes) (cat_name shoes)).1
      = Issued updates
      ∧ consistent (categories_after updates [shoes; hats])
                   (items_after updates [runner; cap])
      ∧ item_id <$> items_after updates [runner; cap] = ["p1"; "p2"].
Proof.
  destruct example_shoes_deletable as (Hin & Hname & Hid).
  split; [exact examplePush_generates_keys|].
  split; [exact example_fresh_category_key|].
  split; [exact example_consistent|].
  split; [exact Hin|]. split; [exact Hname|]. split; [exact Hid|].
  destruct (delete_category_keeps_consistency [shoes; hats] [runner; cap]
              examplePush (λ _, true) (mkView stock None None) shoes
              examplePush_generates_keys example_fresh_category_key
              example_consistent Hin Hname Hid)
    as (updates & Hout & Hcons & _ & _ & Hsame).
  exists updates. split; [exact Hout|]. split; [exact Hcons | exact Hsame].
Defined.
(** ** Consistency is kept: deleting a subcategory other than "Default" *)

Lemma reassign_to_default_other (u : Updates) (l : list InventoryItem) (p : Path) :
  (∀ id, p ≠ ProductSubcategoryPath id) →
  reassign_to_default u l !! p = u !! p.
Proof.
  intros Hp. induction l as [|x l IH] using rev_ind; [done|].
  rewrite reassign_to_default_snoc. by rewrite lookup_insert_ne.
Qed.

Lemma reassign_to_default_absent (u : Updates) (l : list InventoryItem)
    (id : string) :
  (∀ j, j ∈ l → item_id j ≠ id) →
  reassign_to_default u l !! ProductSubcategoryPath id
  = u !! ProductSubcategoryPath id.
Proof.
  induction l as [|x l IH] using rev_ind; intros Hl; [done|].
  rewrite reassign_to_default_snoc.
  assert (item_id x ≠ id) as Hne.
  { apply Hl, elem_of_app. right. left. }
  rewrite lookup_insert_ne by congruence.
  apply IH. intros j Hj. apply Hl, elem_of_app. by left.
Qed.

(** The list left behind when the deleted subcategory is not "Default":
    the other subcategories, with "Default" possibly added, and with
    "Default" for sure when products are reassigned. *)
Lemma updatedSubcategoriesFor_other (parent : CategoryDefinition)
    (l : list InventoryItem) (categoryName subcategoryName : string) :
  subcategoryName ≠ "Default" →
  (∀ s, s ∈ updatedSubcategoriesFor parent l categoryName subcategoryName →
        (s ∈ cat_subcategories parent ∧ s ≠ subcategoryName) ∨ s = "Default")
  ∧ (∀ s, s ∈ cat_subcategories parent → s ≠ subcategoryName →
          s ∈ updatedSubcategoriesFor parent l categoryName subcategoryName)
  ∧ (l ≠ [] →
     "Default" ∈ updatedSubcategoriesFor parent l categoryName subcategoryName).
Proof.
  intros Hsub. unfold updatedSubcategoriesFor. cbv zeta.
  set (f := filter (λ sub, sub ≠ subcategoryName) (cat_subcategories parent)).
  assert (∀ s, s ∈ f ↔ s ∈ cat_subcategories parent ∧ s ≠ subcategoryName) as Hf.
  { intros s. subst f. rewrite list_elem_of_filter. tauto. }
  rewrite (bool_decide_eq_true_2 _ Hsub).
  rewrite (bool_decide_eq_false_2 (subcategoryName = "Default")) by done.
  cbn [andb].
  match goal with
  | |- context [bool_decide (length ?m = 0%nat)] => set (mid := m)
  end.
  assert ((∀ s, s ∈ mid → s ∈ f ∨ s = "Default")
          ∧ (∀ s, s ∈ f → s ∈ mid)
          ∧ (l ≠ [] → "Default" ∈ mid)) as (Hfrom & Hto & Hdef).
  { subst mid. case_bool_decide as Hlen.
    - destruct (includes f "Default") eqn:Hinc; cbn [negb].
      + apply includes_true in Hinc. by repeat split; [left|..].
      + repeat split.
        * intros s. rewrite elem_of_js_sort, elem_of_app, list_elem_of_singleton.
          done.
        * intros s Hs. rewrite elem_of_js_sort, elem_of_app. by left.
        * intros _. rewrite elem_of_js_sort, elem_of_app, list_elem_of_singleton.
          by right.
    - repeat split; [by left | done |].
      intros Hne. destruct l; [done|]. cbn in Hlen. lia. }
  assert (∀ s, s ∈ mid ++ ["Default"] ↔ s ∈ mid ∨ s = "Default") as Happ.
  { intros s. by rewrite elem_of_app, list_elem_of_singleton. }
  destruct (_ && bool_decide (length mid = 0%nat)).
  - repeat split.
    + intros s [Hs| ->]%Happ; [|by right].
      destruct (Hfrom s Hs) as [?%Hf| ->]; [by left | by right].
    + intros s Hs Hne. apply Happ. left. apply Hto, Hf. done.
    + intros _. apply Happ. by right.
  - repeat split.
    + intros s Hs. destruct (Hfrom s Hs) as [?%Hf| ->]; [by left | by right].
    + intros s Hs Hne. apply Hto, Hf. done.
    + done.
Qed.

(** The batch when the list left behind is not empty. *)
Lemma deleteSubcategoryUpdates_shape (parent : CategoryDefinition)
    (items : list InventoryItem) (categoryId categoryName subcategoryName : string) :
  let l := filter (λ item, item_category item = categoryName
                           ∧ item_subcategory item = subcategoryName) items in
  updatedSubcategoriesFor parent l categoryName subcategoryName ≠ [] →
  deleteSubcategoryUpdates parent items categoryId categoryName subcategoryName
  = <[CategorySubcategoriesPath categoryId :=
        VStrings (updatedSubcategoriesFor parent l categoryName subcategoryName)]>
      (reassign_to_default ∅ l).
Proof.
  intros l Hne. unfold deleteSubcategoryUpdates. cbv zeta. fold l.
  assert (length (updatedSubcategoriesFor parent l categoryName subcategoryName)
          ≠ 0%nat) as Hlen.
  { intros Hnil. apply Hne. by apply length_zero_iff_nil. }
  rewrite (bool_decide_eq_false_2 _ Hlen), andb_false_r. cbn [andb].
  rewrite bool_decide_eq_true_2 by lia. done.
Qed.

(** The lists after such a batch. *)
Lemma categories_after_delete_subcategory (categories : list CategoryDefinition)
    (l : list InventoryItem) (categoryId : string) (subs : list string) :
  categories_after
    (<[CategorySubcategoriesPath categoryId := VStrings subs]>
       (reassign_to_default ∅ l)) categories
  = with_subcategories categoryId subs <$> categories.
Proof.
  unfold categories_after. rewrite created_categories_none, app_nil_r.
  - apply omap_all_some_fmap. intros c _. unfold category_after, with_subcategories.
    rewrite lookup_insert_ne by done.
    rewrite reassign_to_default_other, lookup_empty by done.
    destruct (decide (cat_id c = categoryId)) as [->|Hne].
    + by rewrite lookup_insert_eq.
    + rewrite lookup_insert_ne by congruence.
      rewrite reassign_to_default_other, lookup_empty by done. by destruct c.
  - intros key name s. rewrite lookup_insert_ne by done.
    by rewrite reassign_to_default_other, lookup_empty.
Qed.

Lemma items_after_delete_subcategory (items : list InventoryItem)
    (categoryId categoryName subcategoryName : string) (v : Value) :
  NoDup (item_id <$> items) →
  items_after
    (<[CategorySubcategoriesPath categoryId := v]>
       (reassign_to_default ∅
          (filter (λ item, item_category item = categoryName
                           ∧ item_subcategory item = subcategoryName) items))) items
  = relocated_if (λ i, item_category i = categoryName
                       ∧ item_subcategory i = subcategoryName)
      categoryName "Default" <$> items.
Proof.
  intros Hnodup.
  set (l := filter (λ item, item_category item = categoryName
                            ∧ item_subcategory item = subcategoryName) items).
  assert (∀ p, (∀ id, p ≠ ProductSubcategoryPath id) →
               p ≠ CategorySubcategoriesPath categoryId →
               (<[CategorySubcategoriesPath categoryId := v]>
                  (reassign_to_default ∅ l) : Updates) !! p = None) as Hother.
  { intros p Hp Hk. rewrite lookup_insert_ne by done.
    by rewrite reassign_to_default_other, lookup_empty. }
  unfold items_after.
  rewrite (omap_all_none (created_item items)), app_nil_r.
  - apply omap_all_some_fmap. intros i Hi. unfold item_after.
    rewrite !Hother by done.
    rewrite sizes_after_untouched by (intros size; by apply Hother).
    rewrite lookup_insert_ne by done.
    unfold relocated_if. case_decide as Hcat.
    + rewrite (reassign_to_default_item ∅ l i) by (by apply list_elem_of_filter).
      destruct Hcat as [<- _]. done.
    + rewrite (reassign_to_default_absent ∅ l (item_id i)), lookup_empty.
      { by destruct i. }
      intros j [Hj Hin]%list_elem_of_filter Heq. apply Hcat.
      by rewrite <- (NoDup_key_inj item_id items j i Hnodup Hin Hi Heq).
  - intros [p w] Hpw%elem_of_map_to_list.
    destruct (created_item items (p, w)) as [c|] eqn:Hc; [|done].
    unfold created_item in Hc. destruct p; try done. destruct w; try done.
    by rewrite Hother in Hpw.
Qed.

(** A deletion that passes the guards issues the batch. *)
Lemma handleDeleteSubcategory_issued (categories : list CategoryDefinition)
    (items : list InventoryItem) (accepted : Updates → bool) (view : ViewState)
    (c : CategoryDefinition) (subcategoryName : string) :
  NoDup (cat_id <$> categories) →
  c ∈ categories →
  cat_id c ≠ "" →
  ¬ (cat_name c = "Uncategorized" ∧ subcategoryName = "Default") →
  ¬ (subcategoryName = "Default" ∧ length (cat_subcategories c) = 1%nat
     ∧ cat_name c ≠ "Uncategorized") →
  (handleDeleteSubcategory categories items accepted view
     (cat_id c) (cat_name c) subcategoryName).1
  = Issued (deleteSubcategoryUpdates c items (cat_id c) (cat_name c) subcategoryName).
Proof.
  intros Hnodup Hc Hid Hprot1 Hprot2.
  pose proof (find_by_key cat_id categories c Hnodup Hc) as Hfind.
  unfold handleDeleteSubcategory.
  rewrite (bool_decide_eq_false_2 _ Hid), orb_false_r.
  replace (bool_decide (cat_name c = "Uncategorized")
           && bool_decide (subcategoryName = "Default")) with false; cycle 1.
  { symmetry. apply not_true_is_false. intros Hb. apply Hprot1.
    apply andb_true_iff in Hb as [H1 H2]. by apply bool_decide_eq_true in H1, H2. }
  rewrite Hfind.
  replace (bool_decide (subcategoryName = "Default")
           && bool_decide (length (cat_subcategories c) = 1%nat)
           && bool_decide (cat_name c ≠ "Uncategorized")) with false; cycle 1.
  { symmetry. apply not_true_is_false. intros Hb. apply Hprot2.
    apply andb_true_iff in Hb as [Hb H3]. apply andb_true_iff in Hb as [H1 H2].
    apply bool_decide_eq_true in H1, H2, H3. done. }
  cbv zeta. by destruct (accepted _ && _ && _).
Qed.

(** X9. Deleting a subcategory other than "Default" keeps the two
    collections consistent: the subcategory is no longer listed in its
    category, its products are in "Default" of the same category, no
    product is lost, and every product again refers to an existing category
    and subcategory. *)
Theorem delete_subcategory_keeps_consistency
    (categories : list CategoryDefinition) (items : list InventoryItem)
    (accepted : Updates → bool) (view : ViewState)
    (c : CategoryDefinition) (subcategoryName : string) :
  consistent categories items →
  c ∈ categories →
  cat_id c ≠ "" →
  subcategoryName ≠ "Default" →
  ∃ updates,
    (handleDeleteSubcategory categories items accepted view
       (cat_id c) (cat_name c) subcategoryName).1 = Issued updates
    ∧ consistent (categories_after updates categories) (items_after updates items)
    ∧ (∀ c', c' ∈ categories_after updates categories →
             cat_name c' = cat_name c →
             subcategoryName ∉ cat_subcategories c')
    ∧ (∀ i, i ∈ items_after updates items →
            item_category i = cat_name c → item_subcategory i ≠ subcategoryName)
    ∧ cat_name <$> categories_after updates categories = cat_name <$> categories
    ∧ item_id <$> items_after updates items = item_id <$> items.
Proof.
  intros (Hids & Hnames & Hok & Hitems & Hrefer) Hc Hid Hsub.
  eexists. split.
  { apply handleDeleteSubcategory_issued; try done; by intros [? ?]. }
  set (l := filter (λ item, item_category item = cat_name c
                            ∧ item_subcategory item = subcategoryName) items).
  destruct (updatedSubcategoriesFor_other c l (cat_name c) subcategoryName Hsub)
    as (Hfrom & Hto & Hdef).
  assert (updatedSubcategoriesFor c l (cat_name c) subcategoryName ≠ []) as Hne.
  { destruct (decide (cat_name c = "Uncategorized")) as [Hun|Hun].
    - intros Hnil. destruct (Hok c Hc) as [_ Hd].
      specialize (Hto "Default" (Hd Hun) (not_eq_sym Hsub)).
      rewrite Hnil in Hto. by apply elem_of_nil in Hto.
    - by apply updatedSubcategoriesFor_nonempty. }
  rewrite (deleteSubcategoryUpdates_shape c items) by done. fold l.
  set (subs := updatedSubcategoriesFor c l (cat_name c) subcategoryName) in *.
  rewrite categories_after_delete_subcategory.
  unfold l. rewrite items_after_delete_subcategory by done. fold l.
  assert (∀ c0, c0 ∈ categories → cat_id c0 = cat_id c → c0 = c) as Hsame.
  { intros c0 Hc0 Hid0. by apply (NoDup_key_inj cat_id categories). }
  assert (∀ c0, c0 ∈ categories → cat_name c0 = cat_name c → c0 = c) as Hsame'.
  { intros c0 Hc0 Hn0. by apply (NoDup_key_inj cat_name categories). }
  assert (subcategoryName ∉ subs) as Hgone.
  { intros Hin. destruct (Hfrom _ Hin) as [[_ ?]|?]; done. }
  split; [|split; [|split; [|split]]].
  - split.
    { rewrite fmap_same_key; [done|]. intros x.
      unfold with_subcategories. by case_decide. }
    split.
    { rewrite fmap_same_key; [done|]. apply with_subcategories_name. }
    split.
    { intros c' (c0 & -> & Hc0)%list_elem_of_fmap.
      unfold with_subcategories. case_decide as Hid0; [|by apply Hok].
      rewrite (Hsame c0 Hc0 Hid0). cbn. split; [done|].
      intros Hun. apply Hto; [|done]. by apply (Hok c Hc). }
    split.
    { rewrite fmap_same_key; [done|]. intros i. apply relocated_if_id. }
    intros i (i0 & -> & Hi0)%list_elem_of_fmap.
    unfold relocated_if. case_decide as Hcat.
    + exists (with_subcategories (cat_id c) subs c).
      split; [by apply list_elem_of_fmap_2|].
      rewrite with_subcategories_name. split; [done|].
      unfold with_subcategories. rewrite decide_True by done. cbn.
      apply Hdef. intros Hnil.
      assert (i0 ∈ l) as Hin by (by apply list_elem_of_filter).
      rewrite Hnil in Hin. by apply elem_of_nil in Hin.
    + destruct (Hrefer i0 Hi0) as (c0 & Hc0 & Hn0 & Hs0).
      exists (with_subcategories (cat_id c) subs c0).
      split; [by apply list_elem_of_fmap_2|].
      rewrite with_subcategories_name. split; [done|].
      unfold with_subcategories. case_decide as Hid0; [|done].
      cbn. rewrite (Hsame c0 Hc0 Hid0) in Hn0, Hs0.
      apply Hto; [done|]. intros Heq. by apply Hcat.
  - intros c' (c0 & -> & Hc0)%list_elem_of_fmap.
    rewrite with_subcategories_name. intros Hn0.
    rewrite (Hsame' c0 Hc0 Hn0).
    unfold with_subcategories. by rewrite decide_True.
  - intros i (i0 & -> & Hi0)%list_elem_of_fmap.
    unfold relocated_if. case_decide as Hcat; [by cbn|].
    intros Hc0 Hs0. by apply Hcat.
  - apply fmap_same_key, with_subcategories_name.
  - apply fmap_same_key. intros i. apply relocated_if_id.
Qed.

(** X9 on concrete data: Caps is deleted from Hats while Cap is in it. *)
Lemma delete_subcategory_keeps_consistency_witness :
  consistent [shoes; hats] [runner; cap]
  ∧ hats ∈ [shoes; hats]
  ∧ cat_id hats ≠ ""
  ∧ "Caps" ≠ "Default"
  ∧ ∃ updates,
      (handleDeleteSubcategory [shoes; hats] [runner; cap] (λ _, true)
         (mkView stock None None) (cat_id hats) (cat_name hats) "Caps").1
      = Issued updates
      ∧ consistent (categories_after updates [shoes; hats])
                   (items_after updates [runner; cap])
      ∧ item_id <$> items_after updates [runner; cap] = ["p1"; "p2"].
Proof.
  assert (hats ∈ [shoes; hats]) as Hin by (right; left).
  assert (cat_id hats ≠ "") as Hid by discriminate.
  assert ("Caps" ≠ "Default") as Hsub by discriminate.
  split; [exact example_consistent|].
  split; [exact Hin|]. split; [exact Hid|]. split; [exact Hsub|].
  destruct (delete_subcategory_keeps_consistency [shoes; hats] [runner; cap]
              (λ _, true) (mkView stock None None) hats "Caps"
              example_consistent Hin Hid Hsub)
    as (updates & Hout & Hcons & _ & _ & _ & Hsame).
  exists updates. split; [exact Hout|]. split; [exact Hcons | exact Hsame].
Defined.
(** ** Deleting "Default" next to other subcategories *)

(** With another subcategory left and products to reassign, deleting
    "Default" leaves the other subcategories and does not put "Default"
    back. *)
Lemma updatedSubcategoriesFor_default (parent : CategoryDefinition)
    (l : list InventoryItem) (categoryName s : string) :
  s ∈ cat_subcategories parent → s ≠ "Default" →
  updatedSubcategoriesFor parent l categoryName "Default"
  = filter (λ sub, sub ≠ "Default") (cat_subcategories parent).
Proof.
  intros Hs Hne. unfold updatedSubcategoriesFor. cbv zeta.
  set (f := filter (λ sub, sub ≠ "Default") (cat_subcategories parent)).
  assert (length f ≠ 0%nat) as Hlen.
  { intros Hnil%length_zero_iff_nil.
    assert (s ∈ f) as Hin by (by apply list_elem_of_filter).
    rewrite Hnil in Hin. by apply elem_of_nil in Hin. }
  rewrite (bool_decide_eq_false_2 ("Default" ≠ "Default")) by (by intros ?).
  rewrite (bool_decide_eq_false_2 _ Hlen), !andb_false_r. cbn [andb].
  destruct (bool_decide (0 < length l)%nat);
    by rewrite (bool_decide_eq_false_2 _ Hlen), andb_false_r.
Qed.

(** X10. Deleting the subcategory "Default" of a category that has another
    subcategory is carried out, and it breaks consistency when a product is
    in "Default": the product stays in "Default", which its category no
    longer lists, so the product refers to no existing subcategory. *)
Theorem delete_default_subcategory_orphans_products
    (categories : list CategoryDefinition) (items : list InventoryItem)
    (accepted : Updates → bool) (view : ViewState)
    (c : CategoryDefinition) (s : string) (i : InventoryItem) :
  consistent categories items →
  c ∈ categories →
  cat_id c ≠ "" →
  cat_name c ≠ "Uncategorized" →
  s ∈ cat_subcategories c →
  s ≠ "Default" →
  i ∈ items →
  item_category i = cat_name c →
  item_subcategory i = "Default" →
  ∃ updates,
    (handleDeleteSubcategory categories items accepted view
       (cat_id c) (cat_name c) "Default").1 = Issued updates
    ∧ i ∈ items_after updates items
    ∧ ¬ refers_to_existing (categories_after updates categories) i
    ∧ ¬ consistent (categories_after updates categories) (items_after updates items).
Proof.
  intros (Hids & Hnames & Hok & Hitems & Hrefer) Hc Hid Hname Hs Hne Hi Hcat Hsub.
  eexists. split.
  { apply handleDeleteSubcategory_issued; try done.
    - by intros [? _].
    - intros (_ & Hlen & _).
      destruct (cat_subcategories c) as [|x [|y r]] eqn:Hsubs; try done.
      apply list_elem_of_singleton in Hs as ->.
      destruct (Hrefer i Hi) as (c0 & Hc0 & Hn0 & Hs0).
      assert (c0 = c) as ->.
      { apply (NoDup_key_inj cat_name categories); try done. by rewrite Hn0. }
      rewrite Hsubs, Hsub in Hs0. apply list_elem_of_singleton in Hs0. done. }
  set (l := filter (λ item, item_category item = cat_name c
                            ∧ item_subcategory item = "Default") items).
  set (f := filter (λ sub, sub ≠ "Default") (cat_subcategories c)).
  assert (updatedSubcategoriesFor c l (cat_name c) "Default" = f) as Hupd.
  { by apply (updatedSubcategoriesFor_default c l (cat_name c) s). }
  rewrite (deleteSubcategoryUpdates_shape c items); fold l; rewrite Hupd; cycle 1.
  { intros Hnil. assert (s ∈ f) as Hin by (by apply list_elem_of_filter).
    rewrite Hnil in Hin. by apply elem_of_nil in Hin. }
  rewrite categories_after_delete_subcategory.
  unfold l. rewrite items_after_delete_subcategory by done.
  assert (i ∈ relocated_if (λ i, item_category i = cat_name c
                                 ∧ item_subcategory i = "Default")
                (cat_name c) "Default" <$> items) as Hstays.
  { apply list_elem_of_fmap. exists i. split; [|done].
    unfold relocated_if. rewrite decide_True by done.
    destruct i. cbn in *. by subst. }
  assert (¬ refers_to_existing (with_subcategories (cat_id c) f <$> categories) i)
    as Horphan.
  { intros (c' & (c0 & -> & Hc0)%list_elem_of_fmap & Hn' & Hs').
    rewrite with_subcategories_name in Hn'.
    assert (c0 = c) as ->.
    { apply (NoDup_key_inj cat_name categories); try done. by rewrite Hn'. }
    unfold with_subcategories in Hs'. rewrite decide_True in Hs' by done.
    cbn in Hs'. rewrite Hsub in Hs'.
    apply list_elem_of_filter in Hs' as [Hd _]. by apply Hd. }
  split; [done|]. split; [done|].
  intros (_ & _ & _ & _ & Hrefer'). by apply Horphan, Hrefer'.
Qed.

Lemma example_consistent_beanie : consistent [shoes; hats] [runner; beanie].
Proof.
  split; [apply (bool_decide_unpack _); by vm_compute|].
  split; [apply (bool_decide_unpack _); by vm_compute|].
  split.
  { intros c Hc.
    repeat (apply elem_of_cons in Hc as [->|Hc]); [| |by apply elem_of_nil in Hc];
      (split; [discriminate | intros [=]]). }
  split; [apply (bool_decide_unpack _); by vm_compute|].
  intros i Hi.
  repeat (apply elem_of_cons in Hi as [->|Hi]); [| |by apply elem_of_nil in Hi].
  - exists shoes. split; [left|]. split; [reflexivity | left].
  - exists hats. split; [right; left|]. split; [reflexivity | right; left].
Qed.

(** X10 on concrete data: "Default" is deleted from Hats, which also has
    "Caps", while Beanie is in Hats / Default. *)
Lemma delete_default_subcategory_witness :
  consistent [shoes; hats] [runner; beanie]
  ∧ hats ∈ [shoes; hats]
  ∧ cat_id hats ≠ ""
  ∧ cat_name hats ≠ "Uncategorized"
  ∧ "Caps" ∈ cat_subcategories hats
  ∧ "Caps" ≠ "Default"
  ∧ beanie ∈ [runner; beanie]
  ∧ item_category beanie = cat_name hats
  ∧ item_subcategory beanie = "Default"
  ∧ ∃ updates,
      (handleDeleteSubcategory [shoes; hats] [runner; beanie] (λ _, true)
         (mkView stock None None) (cat_id hats) (cat_name hats) "Default").1
      = Issued updates
      ∧ ¬ consistent (categories_after updates [shoes; hats])
                     (items_after updates [runner; beanie]).
Proof.
  assert (hats ∈ [shoes; hats]) as Hin by (right; left).
  assert (cat_id hats ≠ "") as Hid by discriminate.
  assert (cat_name hats ≠ "Uncategorized") as Hname by discriminate.
  assert ("Caps" ∈ cat_subcategories hats) as Hs by left.
  assert ("Caps" ≠ "Default") as Hne by discriminate.
  assert (beanie ∈ [runner; beanie]) as Hi by (right; left).
  assert (item_category beanie = cat_name hats) as Hcat by reflexivity.
  assert (item_subcategory beanie = "Default") as Hsub by reflexivity.
  split; [exact example_consistent_beanie|].
  do 8 (split; [assumption|]).
  destruct (delete_default_subcategory_orphans_products [shoes; hats]
              [runner; beanie] (λ _, true) (mkView stock None None) hats "Caps"
              beanie example_consistent_beanie Hin Hid Hname Hs Hne Hi Hcat Hsub)
    as (updates & Hout & _ & _ & Hbroken).
  exists updates. split; [exact Hout | exact Hbroken].
Defined.
(** ** Adding a category or a subcategory *)

(** A batch of category paths leaves the product list as it is. *)
Lemma items_after_category_paths (u : Updates) (items : list InventoryItem) :
  category_paths_only u → items_after u items = items.
Proof.
  intros Hu. unfold items_after.
  rewrite (omap_all_none (created_item items)), app_nil_r.
  - apply omap_all_some. intros i _.
    apply item_after_untouched; try intros size;
      by apply category_paths_only_None.
  - intros [p v] Hpv%elem_of_map_to_list.
    destruct (Hu p) as (k & [->| ->]); [by eexists | done | done].
Qed.

Lemma categories_after_new (categories : list CategoryDefinition)
    (key name : string) (subs : list string) :
  key ∉ cat_id <$> categories →
  categories_after {[ CategoryPath key := VCategory name subs ]} categories
  = categories ++ [mkCategory key name subs].
Proof.
  intros Hfresh. unfold categories_after. f_equal.
  - apply omap_all_some. intros c Hc. unfold category_after.
    assert (cat_id c ≠ key) as Hne.
    { intros <-. apply Hfresh. by apply list_elem_of_fmap_2. }
    by rewrite !lookup_singleton_ne by congruence.
  - rewrite map_to_list_singleton. cbn [omap list_omap created_category].
    by rewrite bool_decide_eq_false_2.
Qed.





(** X11. Adding a category: when a category of the same name up to case
    exists nothing is written; otherwise one category record with the
    subcategory list ["Default"] is written under the generated key, the
    category list grows by exactly that category at its end, the products
    are untouched, the names stay distinct up to case and the collections
    stay consistent. *)
Theorem add_category_appends_one
    (toLowerCase : string → string)
    (categories : list CategoryDefinition) (items : list InventoryItem)
    (push : KeyGen) (key categoryName : string) :
  push "categories" = Some key →
  fresh_category_key push categories →
  consistent categories items →
  NoDup (toLowerCase <$> (cat_name <$> categories)) →
  (toLowerCase categoryName ∈ toLowerCase <$> (cat_name <$> categories) →
   handleAddCategory toLowerCase categories push categoryName = Returned)
  ∧ (toLowerCase categoryName ∉ toLowerCase <$> (cat_name <$> categories) →
     let updates : Updates :=
       {[ CategoryPath key := VCategory categoryName ["Default"] ]} in
     handleAddCategory toLowerCase categories push categoryName = Issued updates
     ∧ categories_after updates categories
       = categories ++ [mkCategory key categoryName ["Default"]]
     ∧ items_after updates items = items
     ∧ NoDup (toLowerCase <$> (cat_name <$> categories_after updates categories))
     ∧ consistent (categories_after updates categories) (items_after updates items)).
Proof.
  intros Hpush Hfresh (Hids & Hnames & Hok & Hitems & Hrefer) Hlower.
  unfold handleAddCategory. split.
  - intros (n & Hn & (c & -> & Hc)%list_elem_of_fmap)%list_elem_of_fmap.
    destruct (List.find _ categories) as [?|] eqn:Hfind; [done|].
    rewrite find_none_iff in Hfind. specialize (Hfind c Hc).
    apply bool_decide_eq_false in Hfind. by destruct Hfind.
  - intros Hnew.
    assert (categoryName ∉ cat_name <$> categories) as Hname.
    { intros Hin. apply Hnew. by apply list_elem_of_fmap_2. }
    assert (key ∉ cat_id <$> categories) as Hkey by (by apply Hfresh).
    assert (List.find (λ c, bool_decide (toLowerCase (cat_name c)
                                         = toLowerCase categoryName)) categories
            = None) as ->.
    { apply find_none_iff. intros c Hc. apply bool_decide_eq_false.
      intros Heq. apply Hnew. rewrite <- Heq.
      by apply list_elem_of_fmap_2, list_elem_of_fmap_2. }
    rewrite Hpush. split; [done|].
    assert (category_paths_only
              {[ CategoryPath key := VCategory categoryName ["Default"] ]})
      as Hpaths.
    { intros p [v Hv]. apply lookup_singleton_Some in Hv as [<- _]. eauto. }
    rewrite categories_after_new, items_after_category_paths by done.
    split; [done|]. split; [done|].
    destruct (extends_snoc categories key categoryName ["Default"])
      as (Hids' & Hnames' & Hok' & Hmono); [done | done | done | by left |].
    split.
    + rewrite !fmap_app. apply NoDup_app. split; [done|].
      split; [|apply NoDup_singleton].
      intros x Hx ->%list_elem_of_singleton. done.
    + split; [by apply Hids'|]. split; [by apply Hnames'|].
      split; [by apply Hok'|]. split; [done|].
      intros i Hi. by apply Hmono, Hrefer.
Qed.

Lemma example_push_categories : examplePush "categories" = Some "-Ncategories".
Proof. reflexivity. Qed.

Lemma example_lower_names :
  NoDup (asciiLowerCase <$> (cat_name <$> [shoes; hats])).
Proof. apply (bool_decide_unpack _). by vm_compute. Qed.

(** X11 on concrete data: Bags is added to Shoes and Hats. *)
Lemma add_category_witness :
  examplePush "categories" = Some "-Ncategories"
  ∧ fresh_category_key examplePush [shoes; hats]
  ∧ consistent [shoes; hats] [runner; cap]
  ∧ NoDup (asciiLowerCase <$> (cat_name <$> [shoes; hats]))
  ∧ (asciiLowerCase "Bags" ∉ asciiLowerCase <$> (cat_name <$> [shoes; hats]))
  ∧ handleAddCategory asciiLowerCase [shoes; hats] examplePush "Bags"
    = Issued {[ CategoryPath "-Ncategories" := VCategory "Bags" ["Default"] ]}
  ∧ categories_after
      {[ CategoryPath "-Ncategories" := VCategory "Bags" ["Default"] ]}
      [shoes; hats]
    = [shoes; hats; mkCategory "-Ncategories" "Bags" ["Default"]].
Proof.
  assert (asciiLowerCase "Bags" ∉ asciiLowerCase <$> (cat_name <$> [shoes; hats]))
    as Hnew.
  { apply (bool_decide_unpack _). by vm_compute. }
  split; [exact example_push_categories|].
  split; [exact example_fresh_category_key|].
  split; [exact example_consistent|].
  split; [exact example_lower_names|].
  split; [exact Hnew|].
  destruct (proj2 (add_category_appends_one asciiLowerCase [shoes; hats]
                     [runner; cap] examplePush "-Ncategories" "Bags"
                     example_push_categories example_fresh_category_key
                     example_consistent example_lower_names) Hnew)
    as (Hout & Hcats & _).
  split; [exact Hout | exact Hcats].
Defined.


(** ** The buttons of the category manager *)

Lemma find_lower_none (toLowerCase : string → string) {A} (name : A → string)
    (l : list A) (n : string) :
  List.find (λ x, bool_decide (toLowerCase (name x) = toLowerCase n)) l = None
  ↔ toLowerCase n ∉ toLowerCase <$> (name <$> l).
Proof.
  rewrite find_none_iff. split.
  - intros Hall (m & Hm & (x & -> & Hx)%list_elem_of_fmap)%list_elem_of_fmap.
    specialize (Hall x Hx). apply bool_decide_eq_false in Hall. by apply Hall.
  - intros Hnew x Hx. apply bool_decide_eq_false. intros Heq. apply Hnew.
    rewrite <- Heq. by apply list_elem_of_fmap_2, list_elem_of_fmap_2.
Qed.

(** X13. The "Add Category" button writes exactly when the trimmed name is
    not empty and no category has that name up to case; it then writes one
    category record with the trimmed name and the subcategory list
    ["Default"] under the generated key.  The check of the handler it calls
    never rejects what the button lets through. *)
Theorem add_category_button_writes_trimmed_new_name
    (toLowerCase : string → string)
    (categories : list CategoryDefinition) (push : KeyGen)
    (key newCategoryName : string) :
  push "categories" = Some key →
  handleAddCategoryInternal toLowerCase categories push newCategoryName
  = if decide (trim newCategoryName ≠ ""
               ∧ toLowerCase (trim newCategoryName)
                 ∉ toLowerCase <$> (cat_name <$> categories))
    then Issued {[ CategoryPath key :=
                     VCategory (trim newCategoryName) ["Default"] ]}
    else Returned.
Proof.
  intros Hpush. unfold handleAddCategoryInternal, handleAddCategory.
  destruct (List.find _ categories) as [c|] eqn:Hfind.
  - rewrite (bool_decide_eq_true_2 (is_Some (Some c))) by eauto.
    rewrite andb_false_r.
    rewrite decide_False; [done|]. intros [_ Hnew].
    apply (find_lower_none toLowerCase cat_name) in Hnew. congruence.
  - rewrite (bool_decide_eq_false_2 (is_Some None)) by (by intros [? ?]).
    rewrite andb_true_r. rewrite Hpush.
    apply (find_lower_none toLowerCase cat_name) in Hfind.
    case_bool_decide as Hne.
    + by rewrite decide_True.
    + rewrite decide_False; [done|]. by intros [? _].
Qed.

(** X13 on concrete data: the name is typed with spaces around it. *)
Lemma add_category_button_witness :
  examplePush "categories" = Some "-Ncategories"
  ∧ handleAddCategoryInternal asciiLowerCase [shoes; hats] examplePush "  Bags "
    = Issued {[ CategoryPath "-Ncategories" := VCategory "Bags" ["Default"] ]}.
Proof.
  split; [exact example_push_categories|].
  pose proof (add_category_button_writes_trimmed_new_name asciiLowerCase
                [shoes; hats] examplePush "-Ncategories" "  Bags "
                example_push_categories) as Hbutton.
  assert (trim "  Bags " = "Bags") as Htrim by (by vm_compute).
  rewrite Htrim in Hbutton. rewrite decide_True in Hbutton; [exact Hbutton|].
  split; [discriminate|]. apply (bool_decide_unpack _). by vm_compute.
Defined.




(** ** The product form *)

Lemma sizesFrom_lookup (f : Size → Z) (size : Size) :
  sizesFrom f !! size = Some (f size).
Proof.
  unfold sizesFrom.
  assert (∀ (l : list Size) (acc : gmap Size Z),
            foldl (λ acc size, <[size := f size]> acc) acc l !! size
            = if decide (size ∈ l) then Some (f size) else acc !! size) as Hfold.
  { induction l as [|x l IH] using rev_ind; intros acc.
    - rewrite decide_False; [done | apply not_elem_of_nil].
    - rewrite foldl_snoc. destruct (decide (x = size)) as [->|Hne].
      + rewrite lookup_insert_eq, decide_True; [done|].
        apply elem_of_app. right. left.
      + rewrite lookup_insert_ne, IH by done.
        apply decide_ext. rewrite elem_of_app, list_elem_of_singleton.
        split; [by left | by intros [?|?]]. }
  rewrite Hfold, decide_True; [done | apply elem_of_SIZES].
Qed.

Lemma mjoin_fmap_nil {A B} (f : A → list B) (l : list A) :
  mjoin (f <$> l) = [] → ∀ x, x ∈ l → f x = [].
Proof.
  induction l as [|a l IH]; [by intros _ x ?%elem_of_nil|].
  rewrite fmap_cons. cbn [mjoin list_join]. intros [Ha Hl]%app_eq_nil x Hx.
  apply elem_of_cons in Hx as [->|Hx]; [done | by apply IH].
Qed.

(** What a form that passes [validate] holds. *)
Lemma validate_true (categories : list CategoryDefinition)
    (formData : ItemModalFormData) :
  validate categories formData = true →
  trim (form_name formData) ≠ ""
  ∧ trim (form_sku formData) ≠ ""
  ∧ (∃ c, List.find (λ c, bool_decide (cat_name c = form_category formData))
                    categories = Some c
          ∧ form_subcategory formData ∈ cat_subcategories c)
  ∧ form_category formData ≠ ""
  ∧ form_subcategory formData ≠ ""
  ∧ (0 <= form_price formData)%Q
  ∧ ∀ size, ∃ q, form_sizes formData !! size = Some q ∧ 0 ≤ q.
Proof.
  unfold validate, validationErrors. intros Hlen%bool_decide_eq_true.
  apply length_zero_iff_nil in Hlen.
  apply app_eq_nil in Hlen as [Hname Hlen].
  apply app_eq_nil in Hlen as [Hsku Hlen].
  apply app_eq_nil in Hlen as [Hcat Hlen].
  apply app_eq_nil in Hlen as [Hprice Hsizes].
  destruct (bool_decide (trim (form_name formData) = "")) eqn:Hn; [done|].
  apply bool_decide_eq_false in Hn.
  destruct (bool_decide (trim (form_sku formData) = "")) eqn:Hk; [done|].
  apply bool_decide_eq_false in Hk.
  split; [done|]. split; [done|].
  destruct (bool_decide (form_category formData = "")) eqn:Hc; [done|].
  apply bool_decide_eq_false in Hc.
  destruct (List.find _ categories) as [c|]; [|done].
  destruct (bool_decide (form_subcategory formData = "")) eqn:Hs; [done|].
  apply bool_decide_eq_false in Hs.
  destruct (includes (cat_subcategories c) (form_subcategory formData)) eqn:Hinc;
    [|done].
  apply includes_true in Hinc.
  split; [by exists c|]. split; [done|]. split; [done|].
  split.
  - destruct (Qle_bool 0 (form_price formData)) eqn:Hle; [|done].
    by apply Qle_bool_iff.
  - intros size.
    pose proof (mjoin_fmap_nil _ _ Hsizes size (elem_of_SIZES size)) as Hsize.
    cbv beta in Hsize.
    destruct (form_sizes formData !! size) as [q|]; [|done].
    exists q. split; [done|]. case_bool_decide; [done | lia].
Qed.

(** A form that passes [validate] is saved as one product record. *)
Lemma handleSubmit_valid (categories : list CategoryDefinition) (push : KeyGen)
    (editingItemId : option string) (formData : ItemModalFormData) :
  generates_keys push →
  validate categories formData = true →
  ∃ key,
    handleSubmit categories push editingItemId formData
    = Some (Issued {[ ProductPath key :=
                        VProduct (finalItemData
                                    (itemDataForSave editingItemId formData)
                                    (form_category formData)
                                    (form_subcategory formData)) ]})
    ∧ key ≠ ""
    ∧ (∀ id, editingItemId = Some id → id ≠ "" → key = id).
Proof.
  intros Hgen Hvalid. unfold handleSubmit. rewrite Hvalid.
  destruct (validate_true categories formData Hvalid) as (_ & _ & Hpair & _).
  set (item := itemDataForSave editingItemId formData).
  assert (valid_pair categories item) as Hitem by exact Hpair.
  pose proof (reconcile_valid_pair categories push item Hitem) as Hrec.
  destruct (handleSaveItem_issued categories push item _ _ _ Hgen Hrec)
    as (key & Hsave & Hedit & Hnew).
  exists key. split; [by rewrite Hsave|]. split.
  - destruct (decide (item_id item = "")) as [Hid|Hid].
    + destruct (Hgen "products") as (k & Hk & Hne).
      specialize (Hnew Hid). congruence.
    + by rewrite (Hedit Hid).
  - intros id -> Hid. by apply Hedit.
Qed.

(** X15. Submitting the product form: a form that fails validation writes
    nothing; a form that passes makes the save write exactly one path, the
    product's record, under the edited id or a generated key.  The record
    has the trimmed, non-empty name and SKU, the category and the
    subcategory of the form, which exist as a pair, a non-negative price and
    a non-negative quantity for every size. *)
Theorem submit_writes_one_valid_record
    (categories : list CategoryDefinition) (push : KeyGen)
    (editingItemId : option string) (formData : ItemModalFormData) :
  generates_keys push →
  (validate categories formData = false →
   handleSubmit categories push editingItemId formData = None)
  ∧ (validate categories formData = true →
     ∃ key d,
       handleSubmit categories push editingItemId formData
       = Some (Issued {[ ProductPath key := VProduct d ]})
       ∧ key ≠ ""
       ∧ (∀ id, editingItemId = Some id → id ≠ "" → key = id)
       ∧ pd_name d = trim (form_name formData) ∧ pd_name d ≠ ""
       ∧ pd_sku d = trim (form_sku formData) ∧ pd_sku d ≠ ""
       ∧ pd_category d = form_category formData
       ∧ pd_subcategory d = form_subcategory formData
       ∧ valid_pair categories (item_of_product key d)
       ∧ (0 <= pd_price d)%Q
       ∧ ∀ size, ∃ q, pd_sizes d !! size = Some q ∧ 0 ≤ q).
Proof.
  intros Hgen. split; [unfold handleSubmit; by intros ->|].
  intros Hvalid.
  destruct (validate_true categories formData Hvalid)
    as (Hname & Hsku & Hpair & _ & _ & Hprice & Hsizes).
  destruct (handleSubmit_valid categories push editingItemId formData Hgen Hvalid)
    as (key & Hout & Hkey & Hedit).
  eexists key, _. split; [exact Hout|].
  split; [exact Hkey|]. split; [exact Hedit|].
  by repeat split.
Qed.

(** X15 on concrete data: the form of a new product Runner. *)
Lemma submit_witness :
  generates_keys examplePush
  ∧ validate [shoes] (getInitialFormData (Some runner) [shoes]) = true
  ∧ ∃ key d,
      handleSubmit [shoes] examplePush None (getInitialFormData (Some runner) [shoes])
      = Some (Issued {[ ProductPath key := VProduct d ]})
      ∧ pd_name d = "Runner"
      ∧ pd_category d = "Shoes"
      ∧ pd_subcategory d = "Default".
Proof.
  assert (validate [shoes] (getInitialFormData (Some runner) [shoes]) = true)
    as Hvalid by (by vm_compute).
  split; [exact examplePush_generates_keys|]. split; [exact Hvalid|].
  destruct (proj2 (submit_writes_one_valid_record [shoes] examplePush None
                     (getInitialFormData (Some runner) [shoes])
                     examplePush_generates_keys) Hvalid)
    as (key & d & Hout & _ & _ & Hname & _ & _ & _ & Hcat & Hsub & _).
  exists key, d. split; [exact Hout|].
  split; [rewrite Hname; by vm_compute|].
  split; [exact Hcat | exact Hsub].
Defined.

(** ** Opening the form *)

(** The first category whose name satisfies a test is the first category
    of its name. *)
Lemma find_first_of_name (Q : string → Prop) `{!∀ n, Decision (Q n)}
    (l : list CategoryDefinition) (c : CategoryDefinition) :
  List.find (λ c, bool_decide (Q (cat_name c))) l = Some c →
  List.find (λ c', bool_decide (cat_name c' = cat_name c)) l = Some c.
Proof.
  induction l as [|a l IH]; [done|]. cbn [List.find].
  case_bool_decide as Ha.
  - intros [= ->]. by rewrite bool_decide_eq_true_2.
  - intros Hfind. pose proof (find_some_elem _ _ _ Hfind) as [_ Hc].
    apply bool_decide_eq_true in Hc.
    rewrite bool_decide_eq_false_2; [by apply IH|].
    intros Heq. apply Ha. by rewrite Heq.
Qed.

Lemma defaultSubcategoryOf_listed (c : CategoryDefinition) (fallback : string) :
  cat_subcategories c ≠ [] →
  (fallback ≠ "" → "Default" ∈ cat_subcategories c) →
  defaultSubcategoryOf c fallback ∈ cat_subcategories c.
Proof.
  intros Hne Hfb. unfold defaultSubcategoryOf.
  destruct (includes (cat_subcategories c) "Default") eqn:Hinc.
  - by apply includes_true.
  - apply includes_false in Hinc.
    destruct (cat_subcategories c) as [|h r]; [done|]. cbn [head default].
    unfold or_else. case_decide as Hh; [|left].
    cbn in Hh. subst h.
    destruct (decide (fallback = "")) as [->|Hf]; [left|].
    destruct Hinc. by apply Hfb.
Qed.

(** The form of a product whose pair exists opens on that pair. *)
Lemma getInitialFormData_own_pair (categories : list CategoryDefinition)
    (i : InventoryItem) :
  valid_pair categories i →
  form_category (getInitialFormData (Some i) categories) = item_category i
  ∧ form_subcategory (getInitialFormData (Some i) categories) = item_subcategory i.
Proof.
  intros (c & Hfind & Hsub). unfold getInitialFormData.
  cbn [form_category form_subcategory]. rewrite Hfind. cbn [fst snd].
  apply includes_true in Hsub. rewrite Hsub. split; [|done].
  apply find_some_elem in Hfind as [_ Hn]. by apply bool_decide_eq_true in Hn.
Qed.

(** X16. With a non-empty category list in which every category has a
    subcategory and "Uncategorized" has "Default", the form opens on a
    category and a subcategory that exist as a pair: the product's own pair
    when that exists.  Its quantities are those of the product, 0 where the
    product has none, for every size. *)
Theorem initial_form_selects_existing_pair
    (categories : list CategoryDefinition) (item : option InventoryItem) :
  categories ≠ [] →
  category_list_ok categories →
  (∃ c, List.find (λ c, bool_decide
                          (cat_name c
                           = form_category (getInitialFormData item categories)))
                  categories = Some c
        ∧ form_subcategory (getInitialFormData item categories)
          ∈ cat_subcategories c)
  ∧ (∀ i, item = Some i → valid_pair categories i →
          form_category (getInitialFormData item categories) = item_category i
          ∧ form_subcategory (getInitialFormData item categories)
            = item_subcategory i)
  ∧ (∀ size,
       form_sizes (getInitialFormData item categories) !! size
       = Some match item with
              | Some i => quantity (item_sizes i) size
              | None => 0
              end).
Proof.
  intros Hne Hok.
  assert (∀ (Q : string → Prop) `{!∀ n, Decision (Q n)} c fallback,
            List.find (λ c, bool_decide (Q (cat_name c))) categories = Some c →
            (fallback ≠ "" → cat_name c = "Uncategorized") →
            ∃ c', List.find (λ c', bool_decide (cat_name c' = cat_name c))
                            categories = Some c'
                  ∧ defaultSubcategoryOf c fallback ∈ cat_subcategories c')
    as Hsel.
  { intros Q ? c fallback Hfind Hfb. exists c.
    split; [by apply (find_first_of_name Q)|].
    apply find_some_elem in Hfind as [Hc _]. destruct (Hok c Hc) as [Hsubs Hdef].
    apply defaultSubcategoryOf_listed; [done|]. intros Hf. by apply Hdef, Hfb. }
  assert (List.find (λ c, bool_decide (cat_name c = "Uncategorized")) categories
          = None →
          List.find (λ c, bool_decide (cat_name c ≠ "Uncategorized")) categories
          = None → False) as Hsome.
  { intros Hun Hother. destruct categories as [|a l]; [done|].
    rewrite find_none_iff in Hun. rewrite find_none_iff in Hother.
    specialize (Hun a (list_elem_of_here _ _)).
    specialize (Hother a (list_elem_of_here _ _)).
    apply bool_decide_eq_false in Hun, Hother. done. }
  split; [|split].
  - unfold getInitialFormData. destruct item as [i|]; cbn [form_category form_subcategory].
    + destruct (List.find (λ c, bool_decide (cat_name c = item_category i))
                  categories) as [cur|] eqn:Hcur; cbn [fst snd].
      * destruct (includes (cat_subcategories cur) (item_subcategory i)) eqn:Hinc.
        -- exists cur. split; [|by apply includes_true].
           by apply (find_first_of_name (λ n, n = item_category i)).
        -- by apply (Hsel (λ n, n = item_category i) _ cur "").
      * destruct (List.find (λ c, bool_decide (cat_name c = "Uncategorized"))
                    categories) as [uncat|] eqn:Hun; cbn [fst snd].
        -- apply (Hsel (λ n, n = "Uncategorized") _ uncat "Default"); [done|].
           intros _. apply find_some_elem in Hun as [_ Hn].
           by apply bool_decide_eq_true in Hn.
        -- destruct (List.find (λ c, bool_decide (cat_name c ≠ "Uncategorized"))
                       categories) as [first|] eqn:Hfirst; [|by destruct Hsome].
           cbn [or_found fst snd].
           by apply (Hsel (λ n, n ≠ "Uncategorized") _ first "").
    + rewrite bool_decide_eq_true_2
        by (destruct categories; [done | cbn; lia]).
      destruct (List.find (λ c, bool_decide (cat_name c ≠ "Uncategorized"))
                  categories) as [first|] eqn:Hfirst; cbn [or_found fst snd].
      * by apply (Hsel (λ n, n ≠ "Uncategorized") _ first "").
      * destruct (List.find (λ c, bool_decide (cat_name c = "Uncategorized"))
                    categories) as [uncat|] eqn:Hun; [|by destruct Hsome].
        cbn [fst snd]. by apply (Hsel (λ n, n = "Uncategorized") _ uncat "").
  - intros i -> Hvalid. by apply getInitialFormData_own_pair.
  - intros size. unfold getInitialFormData.
    destruct item as [i|]; cbn [form_sizes]; by rewrite sizesFrom_lookup.
Qed.

Lemma example_category_list_ok : category_list_ok [shoes; hats].
Proof. by destruct example_consistent as (_ & _ & ? & _). Qed.

(** X16 on concrete data: the form for Cap opens on Hats / Caps. *)
Lemma initial_form_witness :
  [shoes; hats] ≠ []
  ∧ category_list_ok [shoes; hats]
  ∧ form_category (getInitialFormData (Some cap) [shoes; hats]) = "Hats"
  ∧ form_subcategory (getInitialFormData (Some cap) [shoes; hats]) = "Caps".
Proof.
  assert ([shoes; hats] ≠ []) as Hne by discriminate.
  assert (valid_pair [shoes; hats] cap) as Hvalid.
  { exists hats. split; [reflexivity | left]. }
  split; [exact Hne|]. split; [exact example_category_list_ok|].
  destruct (initial_form_selects_existing_pair [shoes; hats] (Some cap)
              Hne example_category_list_ok) as (_ & Hown & _).
  exact (Hown cap eq_refl Hvalid).
Defined.

(** ** Editing without a change *)

Lemma mjoin_fmap_all_nil {A B} (f : A → list B) (l : list A) :
  (∀ x, f x = []) → mjoin (f <$> l) = [].
Proof.
  intros Hf. induction l as [|a l IH]; [done|].
  rewrite fmap_cons. change (f a ++ mjoin (f <$> l) = []). by rewrite Hf, IH.
Qed.

(** The converse of [validate_true]. *)
Lemma validate_intro (categories : list CategoryDefinition)
    (formData : ItemModalFormData) (c : CategoryDefinition) :
  trim (form_name formData) ≠ "" →
  trim (form_sku formData) ≠ "" →
  List.find (λ c, bool_decide (cat_name c = form_category formData)) categories
  = Some c →
  form_subcategory formData ∈ cat_subcategories c →
  form_category formData ≠ "" →
  form_subcategory formData ≠ "" →
  (0 <= form_price formData)%Q →
  (∀ size, ∃ q, form_sizes formData !! size = Some q ∧ 0 ≤ q) →
  validate categories formData = true.
Proof.
  intros Hname Hsku Hfind Hsub Hc Hs Hprice Hsizes.
  unfold validate, validationErrors.
  rewrite (bool_decide_eq_false_2 _ Hname), (bool_decide_eq_false_2 _ Hsku).
  rewrite (bool_decide_eq_false_2 _ Hc), Hfind, (bool_decide_eq_false_2 _ Hs).
  apply includes_true in Hsub. rewrite Hsub.
  apply Qle_bool_iff in Hprice. rewrite Hprice. cbn [negb app].
  rewrite mjoin_fmap_all_nil; [done|].
  intros size. destruct (Hsizes size) as (q & -> & Hq).
  by rewrite bool_decide_eq_false_2 by lia.
Qed.

(** X17. Opening the edit form on a product and submitting it unchanged
    writes the product's record back under its id: category, subcategory,
    price and the quantity of every size are the product's, name and SKU
    are the product's trimmed.  It takes a product whose pair exists, with
    non-blank name and SKU, and no negative price or quantity. *)
Theorem edit_without_change_keeps_product
    (categories : list CategoryDefinition) (push : KeyGen) (i : InventoryItem) :
  generates_keys push →
  valid_pair categories i →
  item_id i ≠ "" →
  item_category i ≠ "" →
  item_subcategory i ≠ "" →
  trim (item_name i) ≠ "" →
  trim (item_sku i) ≠ "" →
  (0 <= item_price i)%Q →
  (∀ size, 0 ≤ quantity (item_sizes i) size) →
  ∃ d,
    handleSubmit categories push (Some (item_id i))
      (getInitialFormData (Some i) categories)
    = Some (Issued {[ ProductPath (item_id i) := VProduct d ]})
    ∧ pd_name d = trim (item_name i)
    ∧ pd_sku d = trim (item_sku i)
    ∧ pd_category d = item_category i
    ∧ pd_subcategory d = item_subcategory i
    ∧ pd_price d = item_price i
    ∧ ∀ size, quantity (pd_sizes d) size = quantity (item_sizes i) size.
Proof.
  intros Hgen Hvalid Hid Hc Hs Hname Hsku Hprice Hsizes.
  destruct (getInitialFormData_own_pair categories i Hvalid) as [Hfc Hfs].
  set (formData := getInitialFormData (Some i) categories) in *.
  assert (∀ size, form_sizes formData !! size
                  = Some (quantity (item_sizes i) size)) as Hform.
  { intros size. unfold formData, getInitialFormData. cbn [form_sizes].
    apply sizesFrom_lookup. }
  assert (validate categories formData = true) as Hok.
  { destruct Hvalid as (c & Hfind & Hsub).
    apply (validate_intro categories formData c); rewrite ?Hfc, ?Hfs; try done.
    intros size. exists (quantity (item_sizes i) size). by split. }
  destruct (handleSubmit_valid categories push (Some (item_id i)) formData Hgen Hok)
    as (key & Hout & _ & Hedit).
  rewrite (Hedit (item_id i) eq_refl Hid) in Hout.
  eexists. split; [exact Hout|].
  cbn [finalItemData pd_name pd_sku pd_category pd_subcategory pd_price pd_sizes
       itemDataForSave item_name item_sku item_sizes item_price].
  repeat split; try done.
  intros size. unfold quantity at 1. by rewrite Hform.
Qed.

Lemma example_runner_quantities (size : Size) : 0 ≤ quantity (item_sizes runner) size.
Proof. by destruct size; vm_compute. Qed.

(** X17 on concrete data: Runner is edited and saved unchanged. *)
Lemma edit_without_change_witness :
  generates_keys examplePush
  ∧ valid_pair [shoes] runner
  ∧ item_id runner ≠ ""
  ∧ item_category runner ≠ ""
  ∧ item_subcategory runner ≠ ""
  ∧ trim (item_name runner) ≠ ""
  ∧ trim (item_sku runner) ≠ ""
  ∧ (0 <= item_price runner)%Q
  ∧ (∀ size, 0 ≤ quantity (item_sizes runner) size)
  ∧ ∃ d,
      handleSubmit [shoes] examplePush (Some "p1")
        (getInitialFormData (Some runner) [shoes])
      = Some (Issued {[ ProductPath "p1" := VProduct d ]})
      ∧ pd_category d = "Shoes"
      ∧ pd_subcategory d = "Default"
      ∧ quantity (pd_sizes d) SzM = 3.
Proof.
  assert (valid_pair [shoes] runner) as Hvalid.
  { exists shoes. split; [reflexivity | left]. }
  assert (item_id runner ≠ "") as Hid by discriminate.
  assert (item_category runner ≠ "") as Hc by discriminate.
  assert (item_subcategory runner ≠ "") as Hs by discriminate.
  assert (trim (item_name runner) ≠ "") as Hname by (by vm_compute).
  assert (trim (item_sku runner) ≠ "") as Hsku by (by vm_compute).
  assert (0 <= item_price runner)%Q as Hprice by (by vm_compute).
  split; [exact examplePush_generates_keys|].
  do 7 (split; [assumption|]).
  split; [exact example_runner_quantities|].
  destruct (edit_without_change_keeps_product [shoes] examplePush runner
              examplePush_generates_keys Hvalid Hid Hc Hs Hname Hsku Hprice
              example_runner_quantities)
    as (d & Hout & _ & _ & Hcat & Hsub & _ & Hq).
  exists d. split; [exact Hout|]. split; [exact Hcat|]. split; [exact Hsub|].
  rewrite Hq. reflexivity.
Defined.
(** ** Selling: the total and repeated sales *)

Lemma foldl_add_shift {A} (g : A → Z) (l : list A) (a d : Z) :
  foldl (λ sum s, sum + g s) (a + d) l = foldl (λ sum s, sum + g s) a l + d.
Proof.
  revert a. induction l as [|x l IH]; intros a; [done|].
  cbn [foldl]. replace (a + d + g x) with (a + g x + d) by lia. apply IH.
Qed.

Lemma quantity_insert (sizes : gmap Size Z) (size other : Size) (n : Z) :
  quantity (<[size := n]> sizes) other
  = if decide (other = size) then n else quantity sizes other.
Proof.
  unfold quantity. case_decide as Heq.
  - by rewrite Heq, lookup_insert_eq.
  - by rewrite lookup_insert_ne.
Qed.

Lemma total_insert_fold (sizes : gmap Size Z) (size : Size) (n : Z)
    (l : list Size) (a : Z) :
  NoDup l →
  foldl (λ sum s, sum + quantity (<[size := n]> sizes) s) a l
  = foldl (λ sum s, sum + quantity sizes s) a l
    + (if decide (size ∈ l) then n - quantity sizes size else 0).
Proof.
  revert a. induction l as [|x l IH]; intros a Hnodup.
  { rewrite decide_False by apply not_elem_of_nil. cbn. lia. }
  apply NoDup_cons in Hnodup as [Hx Hl]. cbn [foldl]. rewrite IH by done.
  rewrite quantity_insert. destruct (decide (x = size)) as [->|Hne].
  - rewrite (decide_False (P := size ∈ l)) by done.
    rewrite (decide_True (P := size ∈ size :: l)) by left.
    replace (a + n) with (a + quantity sizes size + (n - quantity sizes size))
      by lia.
    rewrite foldl_add_shift. lia.
  - f_equal. apply decide_ext. rewrite elem_of_cons.
    split; [by right | by intros [?|?]].
Qed.

Lemma NoDup_SIZES : NoDup SIZES.
Proof. apply (bool_decide_unpack _). by vm_compute. Qed.

(** Writing one quantity changes the total by the difference. *)
Lemma calculateTotalQuantity_insert (sizes : gmap Size Z) (size : Size) (n : Z) :
  calculateTotalQuantity (<[size := n]> sizes)
  = calculateTotalQuantity sizes + n - quantity sizes size.
Proof.
  unfold calculateTotalQuantity.
  rewrite total_insert_fold by apply NoDup_SIZES.
  rewrite decide_True by apply elem_of_SIZES. lia.
Qed.

(** One sale on the list of a snapshot, and the list of the next one. *)
Lemma sell_step (items : list InventoryItem) (item : InventoryItem) (size : Size) :
  NoDup (item_id <$> items) →
  item ∈ items →
  item_id item ≠ "" →
  ∃ item',
    item' ∈ items_after_outcome (handleSellItemSize items (item_id item) size) items
    ∧ item_id item' = item_id item
    ∧ item_sizes item'
      = (if decide (0 < quantity (item_sizes item) size)
         then <[size := quantity (item_sizes item) size - 1]> (item_sizes item)
         else item_sizes item)
    ∧ item_id <$> items_after_outcome
                    (handleSellItemSize items (item_id item) size) items
      = item_id <$> items
    ∧ ∀ j, j ∈ items → item_id j ≠ item_id item →
           j ∈ items_after_outcome
                 (handleSellItemSize items (item_id item) size) items.
Proof.
  intros Hnodup Hin Hid.
  pose proof (find_by_key item_id items item Hnodup Hin) as Hfind.
  unfold handleSellItemSize.
  rewrite (bool_decide_eq_false_2 _ Hid), Hfind. cbv zeta.
  case_bool_decide as Hpos.
  - rewrite decide_True by lia. cbn [items_after_outcome].
    rewrite items_after_sell.
    eexists. split; [|split; [|split; [|split]]].
    + apply list_elem_of_fmap. exists item. split; [|done].
      by rewrite decide_True.
    + done.
    + done.
    + apply fmap_same_key. intros i. by case_decide.
    + intros j Hj Hne. apply list_elem_of_fmap. exists j.
      split; [|done]. by rewrite decide_False.
  - rewrite decide_False by lia. cbn [items_after_outcome]. by exists item.
Qed.

(** X18. A sale of a size in stock lowers the total quantity of the
    product by exactly one and leaves every other product as it is; a sale
    of a size that is out of stock leaves the product list as it is. *)
Theorem sale_lowers_total_by_one
    (items : list InventoryItem) (item : InventoryItem) (size : Size) :
  NoDup (item_id <$> items) →
  item ∈ items →
  item_id item ≠ "" →
  (quantity (item_sizes item) size ≤ 0 →
   items_after_outcome (handleSellItemSize items (item_id item) size) items
   = items)
  ∧ (0 < quantity (item_sizes item) size →
     ∃ item',
       item' ∈ items_after_outcome
                 (handleSellItemSize items (item_id item) size) items
       ∧ item_id item' = item_id item
       ∧ calculateTotalQuantity (item_sizes item')
         = calculateTotalQuantity (item_sizes item) - 1
       ∧ ∀ j, j ∈ items → item_id j ≠ item_id item →
              j ∈ items_after_outcome
                    (handleSellItemSize items (item_id item) size) items).
Proof.
  intros Hnodup Hin Hid. split.
  - intros Hq. unfold handleSellItemSize.
    rewrite (bool_decide_eq_false_2 _ Hid).
    rewrite (find_by_key item_id items item Hnodup Hin). cbv zeta.
    by rewrite bool_decide_eq_false_2 by lia.
  - intros Hq.
    destruct (sell_step items item size Hnodup Hin Hid)
      as (item' & Hin' & Hid' & Hsizes & _ & Hothers).
    exists item'. split; [done|]. split; [done|]. split; [|done].
    rewrite Hsizes, decide_True by done.
    rewrite calculateTotalQuantity_insert. lia.
Qed.

Lemma example_items_nodup : NoDup (item_id <$> [cap; runner]).
Proof. apply (bool_decide_unpack _). by vm_compute. Qed.

(** X18 on concrete data: one M of Runner is sold. *)
Lemma sale_lowers_total_witness :
  NoDup (item_id <$> [cap; runner])
  ∧ runner ∈ [cap; runner]
  ∧ item_id runner ≠ ""
  ∧ 0 < quantity (item_sizes runner) SzM
  ∧ ∃ item',
      item' ∈ items_after_outcome (handleSellItemSize [cap; runner] "p1" SzM)
                [cap; runner]
      ∧ item_id item' = "p1"
      ∧ calculateTotalQuantity (item_sizes item') = 2.
Proof.
  assert (runner ∈ [cap; runner]) as Hin by (right; left).
  assert (item_id runner ≠ "") as Hid by discriminate.
  assert (0 < quantity (item_sizes runner) SzM) as Hq by (by vm_compute).
  split; [exact example_items_nodup|].
  do 3 (split; [assumption|]).
  destruct (proj2 (sale_lowers_total_by_one [cap; runner] runner SzM
                     example_items_nodup Hin Hid) Hq)
    as (item' & Hin' & Hid' & Htotal & _).
  exists item'. split; [exact Hin'|]. split; [exact Hid'|].
  rewrite Htotal. reflexivity.
Defined.

(** X19. Repeated sales stop at zero: after [k] sales of a size of which
    the product has [q] > 0, the product has [q - k] of it, or 0 once [k]
    has reached [q]; a quantity that is not positive is never changed.  The
    other sizes of the product, the other products and the ids of the list
    are as before. *)
Theorem repeated_sales_stop_at_zero
    (items : list InventoryItem) (item : InventoryItem) (size : Size) (k : nat) :
  NoDup (item_id <$> items) →
  item ∈ items →
  item_id item ≠ "" →
  ∃ item',
    item' ∈ sellTimes k (item_id item) size items
    ∧ item_id item' = item_id item
    ∧ quantity (item_sizes item') size
      = (if decide (0 < quantity (item_sizes item) size)
         then Z.max 0 (quantity (item_sizes item) size - Z.of_nat k)
         else quantity (item_sizes item) size)
    ∧ (∀ other, other ≠ size →
         item_sizes item' !! other = item_sizes item !! other)
    ∧ item_id <$> sellTimes k (item_id item) size items = item_id <$> items
    ∧ ∀ j, j ∈ items → item_id j ≠ item_id item →
           j ∈ sellTimes k (item_id item) size items.
Proof.
  intros Hnodup Hin Hid. induction k as [|k IH].
  - exists item. cbn [sellTimes Nat.iter]. split; [done|]. split; [done|].
    split; [case_decide; lia|]. done.
  - destruct IH as (mid & Hmid & Hidm & Hq & Hother & Hids & Hrest).
    unfold sellTimes in *. rewrite Nat.iter_succ.
    set (l := Nat.iter k _ items) in *.
    assert (NoDup (item_id <$> l)) as Hnodup' by (by rewrite Hids).
    assert (item_id mid ≠ "") as Hidm' by (by rewrite Hidm).
    destruct (sell_step l mid size Hnodup' Hmid Hidm')
      as (item' & Hin' & Hid' & Hsizes & Hids' & Hrest').
    rewrite Hidm in *.
    exists item'. split; [done|]. split; [congruence|].
    split; [|split; [|split]].
    + rewrite Hsizes. case_decide as Hpos.
      * rewrite quantity_insert, decide_True by done.
        rewrite Hq. case_decide; lia.
      * rewrite Hq. rewrite Hq in Hpos. case_decide; lia.
    + intros other Hne. rewrite Hsizes, <- Hother by done.
      case_decide; [by rewrite lookup_insert_ne | done].
    + by rewrite Hids'.
    + intros j Hj Hne. apply Hrest'; [by apply Hrest | done].
Qed.

(** X19 on concrete data: five sales of M of Runner, which has three. *)
Lemma repeated_sales_witness :
  NoDup (item_id <$> [cap; runner])
  ∧ runner ∈ [cap; runner]
  ∧ item_id runner ≠ ""
  ∧ ∃ item',
      item' ∈ sellTimes 5 "p1" SzM [cap; runner]
      ∧ item_id item' = "p1"
      ∧ quantity (item_sizes item') SzM = 0.
Proof.
  assert (runner ∈ [cap; runner]) as Hin by (right; left).
  assert (item_id runner ≠ "") as Hid by discriminate.
  split; [exact example_items_nodup|].
  do 2 (split; [assumption|]).
  destruct (repeated_sales_stop_at_zero [cap; runner] runner SzM 5
              example_items_nodup Hin Hid)
    as (item' & Hin' & Hid' & Hq & _).
  exists item'. split; [exact Hin'|]. split; [exact Hid'|].
  rewrite Hq. reflexivity.
Defined.
(** ** The history across any sequence of navigations *)

Lemma with_view_same (a : App) : with_view a (view a) = a.
Proof. by destruct a. Qed.

Lemma history_state_cursor (l : list (option AppHistoryState)) (c : nat)
    (e : option AppHistoryState) :
  l !! c = Some e → history_state (mkHistory l c) = e.
Proof. intros He. unfold history_state. cbn [entries cursor]. by rewrite He. Qed.

(** The effect after the first render keeps the history in step with the
    view it records. *)
Lemma historyEffect_in_step (a : App) (h : History) :
  isInitialHistoryRef a = false →
  (cursor h < length (entries h))%nat →
  (∀ k e, entries h !! k = Some e → written_by_app e) →
  in_step (historyEffect a h).
Proof.
  intros Hinit Hvalid Hall. unfold historyEffect. rewrite Hinit.
  destruct (isHandlingPopStateRef a).
  - split; [done|]. cbn [fst snd entries cursor replaceState historyIndexRef view].
    split; [by rewrite length_insert|]. split.
    + intros k e [(_ & <- & _)|[_ He]]%list_lookup_insert_Some; [by eexists _, _|].
      by apply (Hall k).
    + eexists. split; [|done]. unfold history_state, replaceState. cbn [entries cursor].
      by rewrite list_lookup_insert_eq.
  - split; [done|]. cbn [fst snd entries cursor pushState historyIndexRef view].
    assert (length (take (S (cursor h)) (entries h)) = S (cursor h)) as Hlen.
    { rewrite length_take. lia. }
    split; [rewrite length_app, Hlen; cbn; lia|]. split.
    + intros k e [He|[_ He]]%lookup_app_Some.
      * apply lookup_take_Some in He as [He _]. by apply (Hall k).
      * apply list_lookup_singleton_Some in He as [_ <-]. by eexists _, _.
    + eexists. split; [|done]. unfold history_state, pushState, replaceState. cbn [entries cursor].
      rewrite lookup_app_r by lia. by rewrite Hlen, Nat.sub_diag.
Qed.

Lemma navigate_in_step (nav : ViewState → ViewState) (w : App * History) :
  in_step w → in_step (navigate nav w).
Proof.
  intros (Hinit & Hvalid & Hall & v & Hcur & Hview). destruct w as [a h].
  unfold navigate, commit. cbn [fst snd view with_view] in *.
  case_decide as Hsame.
  - rewrite Hsame, with_view_same. split; [done|]. split; [done|].
    split; [done|]. by exists v.
  - by apply historyEffect_in_step.
Qed.

Lemma popTo_in_step (target : nat) (w : App * History) :
  (target < length (entries w.2))%nat →
  in_step w → in_step (popTo target w).
Proof.
  intros Htarget (Hinit & Hvalid & Hall & _). destruct w as [a h].
  cbn [fst snd] in *.
  destruct (lookup_lt_is_Some_2 _ _ Htarget) as [e He].
  destruct (Hall target e He) as (v & i & ->).
  unfold popTo. cbn [fst snd].
  rewrite (history_state_cursor _ _ _ He), handlePopState_built.
  unfold commit. cbn [fst snd view]. case_decide as Hsame.
  - split; [done|]. cbn [fst snd entries cursor historyIndexRef view].
    split; [done|]. split; [done|]. exists v.
    split; [by apply history_state_cursor|].
    by rewrite restored_idempotent.
  - by apply historyEffect_in_step.
Qed.

Lemma step_in_step (e : HistoryEvent) (w : App * History) :
  in_step w → in_step (step e w).
Proof.
  intros Hw. destruct e as [nav| |]; cbn [step].
  - by apply navigate_in_step.
  - unfold back. destruct (cursor w.2) as [|n] eqn:Hc; [done|].
    apply popTo_in_step; [|done]. destruct Hw as (_ & Hvalid & _). lia.
  - unfold forward. case_bool_decide as Hnext; [|done].
    by apply popTo_in_step.
Qed.

(** The first render leaves the history in step with the initial view. *)
Lemma mount_in_step (h : History) :
  (cursor h < length (entries h))%nat →
  (∀ k e, entries h !! k = Some e → k ≠ cursor h → written_by_app e) →
  in_step (mount h).
Proof.
  intros Hvalid Hall. unfold mount, historyEffect.
  cbn [initialApp isInitialHistoryRef hasSeededHistoryRef view negb andb].
  match goal with
  | |- context [replaceState (buildHistoryState _ ?i) _] => set (index := i)
  end.
  assert (∀ k e, entries (replaceState (buildHistoryState (mkView stock None None)
                                          index) h) !! k = Some e →
                 written_by_app e) as Hall'.
  { intros k e [(_ & <- & _)|[Hk He]]%list_lookup_insert_Some; [by eexists _, _|].
    by apply (Hall k). }
  destruct (_ || _).
  - split; [done|]. cbn [fst snd entries cursor pushState replaceState
                         historyIndexRef view].
    assert (length (take (S (cursor h))
                      (<[cursor h := Some (buildHistoryState (mkView stock None None)
                                             index)]> (entries h)))
            = S (cursor h)) as Hlen.
    { rewrite length_take, length_insert. lia. }
    split; [rewrite length_app, Hlen; cbn; lia|]. split.
    + intros k e [He|[_ He]]%lookup_app_Some.
      * apply lookup_take_Some in He as [He _]. by apply (Hall' k).
      * apply list_lookup_singleton_Some in He as [_ <-]. by eexists _, _.
    + eexists. split; [|done]. unfold history_state, pushState, replaceState. cbn [entries cursor].
      rewrite lookup_app_r by lia. by rewrite Hlen, Nat.sub_diag.
  - split; [done|]. cbn [fst snd entries cursor replaceState historyIndexRef view].
    split; [by rewrite length_insert|]. split; [exact Hall'|].
    eexists. split; [|done]. unfold history_state, replaceState. cbn [entries cursor].
    by rewrite list_lookup_insert_eq.
Qed.

(** X20. From the first render on, through any sequence of navigations of
    the application and native backs and forwards, the browser history
    stays in step with the application: the cursor is on an entry, every
    entry is one written by this code, and the current entry carries the
    history index of the application and restores to the view that is
    shown.  It starts from a history whose other entries, if any, were
    written by this code. *)
Theorem history_stays_in_step (h : History) (events : list HistoryEvent) :
  (cursor h < length (entries h))%nat →
  (∀ k e, entries h !! k = Some e → k ≠ cursor h → written_by_app e) →
  in_step (run events (mount h)).
Proof.
  intros Hvalid Hall. unfold run.
  induction events as [|e events IH] using rev_ind.
  - by apply mount_in_step.
  - rewrite foldl_snoc. by apply step_in_step.
Qed.

(** X20 on concrete data: a fresh tab, then select Shoes, back, forward,
    switch to admin, back. *)
Lemma history_stays_in_step_witness :
  (cursor (mkHistory [None] 0) < length (entries (mkHistory [None] 0)))%nat
  ∧ (∀ k e, entries (mkHistory [None] 0) !! k = Some e →
            k ≠ cursor (mkHistory [None] 0) → written_by_app e)
  ∧ in_step (run [EvNavigate (handleSelectCategoryForView "Shoes"); EvBack;
                  EvForward; EvNavigate toggleViewMode; EvBack]
               (mount (mkHistory [None] 0))).
Proof.
  assert (cursor (mkHistory [None] 0) < length (entries (mkHistory [None] 0)))%nat
    as Hvalid by (cbn; lia).
  assert (∀ k e, entries (mkHistory [None] 0) !! k = Some e →
                 k ≠ cursor (mkHistory [None] 0) → written_by_app e) as Hall.
  { intros [|k] e He Hk; [done | by destruct k]. }
  split; [exact Hvalid|]. split; [exact Hall|].
  exact (history_stays_in_step (mkHistory [None] 0) _ Hvalid Hall).
Defined.
(** ** The first render *)

(** X21. The first render never restores a recorded view: it shows the
    initial stock view and overwrites the current history entry with it.
    On an entry of this application with an index other than 0 it keeps
    that index and pushes nothing; on any other entry (null, untagged,
    without a numeric index, or with index 0) it records index 0 there and
    pushes a second entry with index 1, dropping the entries that
    followed. *)
Theorem mount_seeds_or_resumes (h : History) :
  (cursor h < length (entries h))%nat →
  view (mount h).1 = mkView stock None None
  ∧ isHandlingPopStateRef (mount h).1 = false
  ∧ (∀ st n, history_state h = Some st →
             __app st = APP_HISTORY_KEY → historyIndex st = Some n → n ≠ 0 →
             historyIndexRef (mount h).1 = n
             ∧ (mount h).2
               = replaceState (buildHistoryState (mkView stock None None) n) h)
  ∧ (foreign (history_state h)
     ∨ (∃ st, history_state h = Some st
              ∧ (historyIndex st = None ∨ historyIndex st = Some 0)) →
     historyIndexRef (mount h).1 = 1
     ∧ entries (mount h).2
       = take (cursor h) (entries h)
         ++ [Some (buildHistoryState (mkView stock None None) 0);
             Some (buildHistoryState (mkView stock None None) 1)]
     ∧ cursor (mount h).2 = S (cursor h)).
Proof.
  intros Hvalid.
  assert (∀ s0 s1,
            entries (pushState s1 (replaceState s0 h))
            = take (cursor h) (entries h) ++ [Some s0; Some s1]) as Hpush.
  { intros s0 s1. unfold pushState, replaceState. cbn [entries cursor].
    rewrite (take_S_r _ _ (Some s0)) by (by apply list_lookup_insert_eq).
    rewrite take_insert_ge by done. by rewrite <- app_assoc. }
  unfold mount, historyEffect.
  cbn [initialApp isInitialHistoryRef hasSeededHistoryRef view negb andb
       isHandlingPopStateRef].
  match goal with
  | |- context [negb ?b || bool_decide ((if ?b then ?i else 0) = 0)] =>
      set (hasAppState := b); set (index := if hasAppState then i else 0)
  end.
  split; [by destruct (negb hasAppState || bool_decide (index = 0))|].
  split; [by destruct (negb hasAppState || bool_decide (index = 0))|].
  split.
  - intros st n Hst Happ Hidx Hn.
    assert (hasAppState = true) as Hhas.
    { unfold hasAppState. rewrite Hst, (bool_decide_eq_true_2 _ Happ).
      rewrite bool_decide_eq_true_2; [done|]. by rewrite Hidx. }
    assert (index = n) as Hindex.
    { unfold index. rewrite Hhas, Hst. cbn. by rewrite Hidx. }
    rewrite Hhas, Hindex. cbn [negb orb].
    by rewrite bool_decide_eq_false_2.
  - intros Hcase.
    assert (index = 0 ∧ (hasAppState = false ∨ index = 0)) as [Hzero Hseed].
    { destruct Hcase as [Hforeign|(st & Hst & [Hidx|Hidx])].
      - assert (hasAppState = false) as Hhas.
        { unfold hasAppState. destruct (history_state h) as [st|]; [|done].
          cbn [foreign] in Hforeign.
          by rewrite (bool_decide_eq_false_2 _ Hforeign). }
        unfold index. rewrite Hhas. split; [done | by left].
      - assert (hasAppState = false) as Hhas.
        { unfold hasAppState. rewrite Hst, Hidx.
          rewrite (bool_decide_eq_false_2 (is_Some None)) by (by intros [? ?]).
          apply andb_false_r. }
        unfold index. rewrite Hhas. split; [done | by left].
      - assert (index = 0) as Hindex.
        { unfold index. destruct hasAppState; [|done].
          rewrite Hst. cbn. by rewrite Hidx. }
        split; [done | by right]. }
    assert ((negb hasAppState || bool_decide (index = 0)) = true) as ->.
    { destruct Hseed as [->|Hi]; [done|].
      rewrite (bool_decide_eq_true_2 _ Hi). apply orb_true_r. }
    cbn [fst snd historyIndexRef]. rewrite Hzero.
    split; [done|]. split; [apply Hpush | done].
Qed.

(** X21 on concrete data: a fresh tab. *)
Lemma mount_witness :
  (cursor (mkHistory [None] 0) < length (entries (mkHistory [None] 0)))%nat
  ∧ foreign (history_state (mkHistory [None] 0))
  ∧ historyIndexRef (mount (mkHistory [None] 0)).1 = 1
  ∧ entries (mount (mkHistory [None] 0)).2
    = [Some (buildHistoryState (mkView stock None None) 0);
       Some (buildHistoryState (mkView stock None None) 1)]
  ∧ cursor (mount (mkHistory [None] 0)).2 = 1%nat.
Proof.
  assert (cursor (mkHistory [None] 0) < length (entries (mkHistory [None] 0)))%nat
    as Hvalid by (cbn; lia).
  assert (foreign (history_state (mkHistory [None] 0))) as Hforeign by exact I.
  split; [exact Hvalid|]. split; [exact Hforeign|].
  destruct (mount_seeds_or_resumes (mkHistory [None] 0) Hvalid)
    as (_ & _ & _ & Hseed).
  exact (Hseed (or_introl Hforeign)).
Defined.

(** ** A back that does not change the view *)

(** X22. When a native back or forward lands on an entry that records the
    view already shown, no render follows and the mark set by the popstate
    handler stays; the next navigation of the application then overwrites
    that entry instead of pushing one: the history has as many entries as
    before, the cursor stays on the entry reached, and only that entry has
    changed. *)
Theorem navigation_after_idle_pop_replaces_entry
    (a : App) (h : History) (target : nat) (v0 v : ViewState) (i : Z) :
  isInitialHistoryRef a = false →
  entries h !! target = Some (Some (buildHistoryState v0 i)) →
  restored v0 = view a →
  v ≠ view a →
  isHandlingPopStateRef (popTo target (a, h)).1 = true
  ∧ (popTo target (a, h)).2 = mkHistory (entries h) target
  ∧ view (navigate (λ _, v) (popTo target (a, h))).1 = v
  ∧ historyIndexRef (navigate (λ _, v) (popTo target (a, h))).1 = i
  ∧ isHandlingPopStateRef (navigate (λ _, v) (popTo target (a, h))).1 = false
  ∧ cursor (navigate (λ _, v) (popTo target (a, h))).2 = target
  ∧ entries (navigate (λ _, v) (popTo target (a, h))).2
    = <[target := Some (buildHistoryState v i)]> (entries h).
Proof.
  intros Hinit Hentry Hsame Hne.
  assert (popTo target (a, h)
          = ({| view := view a;
                isHandlingPopStateRef := true;
                isInitialHistoryRef := false;
                historyIndexRef := i;
                hasSeededHistoryRef := hasSeededHistoryRef a |},
             mkHistory (entries h) target)) as ->.
  { unfold popTo. cbn [fst snd].
    rewrite (history_state_cursor _ _ _ Hentry), handlePopState_built.
    unfold commit. cbn [fst snd view]. rewrite decide_True by done.
    by rewrite Hsame, Hinit. }
  split; [done|]. split; [done|].
  unfold navigate, commit. cbn [fst snd view with_view].
  rewrite decide_False by done.
  unfold historyEffect. cbn [isInitialHistoryRef isHandlingPopStateRef]. done.
Qed.

(** X22 on concrete data: in a fresh tab, back and then select Shoes. *)
Lemma navigation_after_idle_pop_witness :
  isInitialHistoryRef (mount (mkHistory [None] 0)).1 = false
  ∧ entries (mount (mkHistory [None] 0)).2 !! 0%nat
    = Some (Some (buildHistoryState (mkView stock None None) 0))
  ∧ restored (mkView stock None None) = view (mount (mkHistory [None] 0)).1
  ∧ mkView stock (Some "Shoes") None ≠ view (mount (mkHistory [None] 0)).1
  ∧ entries (navigate (λ _, mkView stock (Some "Shoes") None)
               (popTo 0 (mount (mkHistory [None] 0)))).2
    = [Some (buildHistoryState (mkView stock (Some "Shoes") None) 0);
       Some (buildHistoryState (mkView stock None None) 1)].
Proof.
  assert (isInitialHistoryRef (mount (mkHistory [None] 0)).1 = false)
    as Hinit by reflexivity.
  assert (entries (mount (mkHistory [None] 0)).2 !! 0%nat
          = Some (Some (buildHistoryState (mkView stock None None) 0)))
    as Hentry by reflexivity.
  assert (restored (mkView stock None None) = view (mount (mkHistory [None] 0)).1)
    as Hsame by reflexivity.
  assert (mkView stock (Some "Shoes") None ≠ view (mount (mkHistory [None] 0)).1)
    as Hne by discriminate.
  do 4 (split; [assumption|]).
  destruct (navigation_after_idle_pop_replaces_entry
              (mount (mkHistory [None] 0)).1 (mount (mkHistory [None] 0)).2
              0 (mkView stock None None) (mkView stock (Some "Shoes") None) 0
              Hinit Hentry Hsame Hne)
    as (_ & _ & _ & _ & _ & _ & Hentries).
  exact Hentries.
Defined.
(** ** The name of the exported file *)

Lemma chars_append (s t : string) :
  String.list_ascii_of_string (s +:+ t)
  = String.list_ascii_of_string s ++ String.list_ascii_of_string t.
Proof.
  induction s as [|a s IH]; [done|].
  change (String a s +:+ t) with (String a (s +:+ t)).
  cbn [String.list_ascii_of_string]. by rewrite IH.
Qed.

Lemma string_append_assoc (s t u : string) : (s +:+ t) +:+ u = s +:+ (t +:+ u).
Proof.
  induction s as [|a s IH]; [done|].
  change ((String a s +:+ t) +:+ u) with (String a ((s +:+ t) +:+ u)).
  by rewrite IH.
Qed.

Lemma chars_rev_app (s1 s2 : string) :
  String.list_ascii_of_string (String.rev_app s1 s2)
  = reverse (String.list_ascii_of_string s1) ++ String.list_ascii_of_string s2.
Proof.
  revert s2. induction s1 as [|a s1 IH]; intros s2; [done|].
  cbn [String.rev_app String.list_ascii_of_string].
  rewrite IH, reverse_cons, <- app_assoc. done.
Qed.

Lemma chars_rev (s : string) :
  String.list_ascii_of_string (String.rev s)
  = reverse (String.list_ascii_of_string s).
Proof. unfold String.rev. by rewrite chars_rev_app, app_nil_r. Qed.

Lemma drop_prefix_chars (p s r : string) :
  drop_prefix p s = Some r →
  String.list_ascii_of_string s
  = String.list_ascii_of_string p ++ String.list_ascii_of_string r.
Proof.
  revert s. induction p as [|a p IH]; intros s.
  - by intros [= ->].
  - destruct s as [|b s]; [done|]. cbn [drop_prefix].
    case_decide as Hab; [|done]. intros Hr. cbn. rewrite (IH s Hr). by subst.
Qed.

Lemma drop_space_chars (tokens : list string) (s r : string) (c : ascii) :
  drop_space tokens s = Some r →
  c ∈ String.list_ascii_of_string r → c ∈ String.list_ascii_of_string s.
Proof.
  unfold drop_space. induction tokens as [|t tokens IH]; [done|].
  cbn [List.fold_right].
  destruct (drop_prefix t s) as [r'|] eqn:Hp; [|exact IH].
  intros [= ->] Hc. rewrite (drop_prefix_chars t s r Hp).
  apply elem_of_app. by right.
Qed.

Lemma drop_spaces_chars (fuel : nat) (tokens : list string) (s : string)
    (c : ascii) :
  c ∈ String.list_ascii_of_string (drop_spaces fuel tokens s) →
  c ∈ String.list_ascii_of_string s.
Proof.
  revert s. induction fuel as [|fuel IH]; intros s; [done|].
  cbn [drop_spaces]. destruct (drop_space tokens s) as [r|] eqn:Hr; [|done].
  intros Hc. apply (drop_space_chars tokens s r c Hr). by apply IH.
Qed.

Lemma trim_chars (s : string) (c : ascii) :
  c ∈ String.list_ascii_of_string (trim s) → c ∈ String.list_ascii_of_string s.
Proof.
  unfold trim, trimEnd, trimStart. rewrite chars_rev, elem_of_reverse.
  intros Hc%drop_spaces_chars.
  rewrite chars_rev, elem_of_reverse in Hc.
  by apply drop_spaces_chars in Hc.
Qed.

Lemma collapse_spaces_chars (fuel : nat) (s : string) (c : ascii) :
  c ∈ String.list_ascii_of_string (collapse_spaces fuel s) →
  c = "_"%char ∨ c ∈ String.list_ascii_of_string s.
Proof.
  revert s. induction fuel as [|fuel IH]; intros s; [by right|].
  cbn [collapse_spaces]. destruct (drop_space WHITE_SPACE s) as [r|] eqn:Hr.
  - cbn [String.list_ascii_of_string].
    intros [->|Hc]%elem_of_cons; [by left|].
    destruct (IH _ Hc) as [->|Hc']; [by left|]. right.
    apply (drop_space_chars WHITE_SPACE s r c Hr).
    by apply drop_spaces_chars in Hc'.
  - destruct s as [|a rest]; [by right|].
    cbn [String.list_ascii_of_string].
    intros [->|Hc]%elem_of_cons; [right; left|].
    destruct (IH _ Hc) as [->|Hc']; [by left | right; by right].
Qed.

Lemma remove_unsafe_chars (s : string) (c : ascii) :
  c ∈ String.list_ascii_of_string (remove_unsafe s) → unsafe_in_filename c = false.
Proof.
  induction s as [|a s IH]; [by intros ?%elem_of_nil|].
  cbn [remove_unsafe]. destruct (unsafe_in_filename a) eqn:Ha; [exact IH|].
  cbn [String.list_ascii_of_string]. intros [->|Hc]%elem_of_cons; [done|].
  by apply IH.
Qed.

(** A sanitized part holds none of the characters that line 92 removes. *)
Lemma sanitizeFilenamePart_safe (value : string) (c : ascii) :
  c ∈ String.list_ascii_of_string (sanitizeFilenamePart value) →
  unsafe_in_filename c = false.
Proof.
  unfold sanitizeFilenamePart. cbv zeta.
  intros [->|Hc]%trim_chars%collapse_spaces_chars; [done|].
  by apply (remove_unsafe_chars value).
Qed.

Lemma or_else_nonempty (value fallback : string) :
  fallback ≠ "" → or_else value fallback ≠ "".
Proof. intros Hf. unfold or_else. by case_decide. Qed.

(** X23. The name of the exported file is always
    [<category>_<subcategory>_stock.csv], where each of the two parts is the
    sanitized name, or the placeholder when that is empty; the filter of
    empty parts and the fallback name never act.  The name holds none of
    the characters < > : / \ | ? * nor a double quote nor a control
    character. *)
Theorem export_filename_is_safe (categoryName subcategoryName : string) :
  buildSubcategoryExportFilename categoryName subcategoryName
  = or_else (sanitizeFilenamePart categoryName) "category"
    +:+ "_" +:+ or_else (sanitizeFilenamePart subcategoryName) "subcategory"
    +:+ "_stock.csv"
  ∧ ∀ c, c ∈ String.list_ascii_of_string
               (buildSubcategoryExportFilename categoryName subcategoryName) →
         unsafe_in_filename c = false.
Proof.
  set (a := or_else (sanitizeFilenamePart categoryName) "category").
  set (b := or_else (sanitizeFilenamePart subcategoryName) "subcategory").
  assert (a ≠ "") as Ha by (by apply or_else_nonempty).
  assert (b ≠ "") as Hb by (by apply or_else_nonempty).
  assert (buildSubcategoryExportFilename categoryName subcategoryName
          = a +:+ "_" +:+ b +:+ "_stock.csv") as Hname.
  { unfold buildSubcategoryExportFilename. cbv zeta. fold a b.
    rewrite !filter_cons_True by done. rewrite filter_nil.
    cbn [String.concat].
    assert (a +:+ "_" +:+ b +:+ "_" +:+ "stock" ≠ "") as Hbase.
    { destruct a; [done|]. discriminate. }
    unfold or_else at 1. rewrite decide_False by done.
    by rewrite !string_append_assoc. }
  split; [exact Hname|].
  intros c. rewrite Hname, !chars_append, !elem_of_app.
  assert (∀ value fallback,
            (∀ c, c ∈ String.list_ascii_of_string fallback →
                  unsafe_in_filename c = false) →
            c ∈ String.list_ascii_of_string
                  (or_else (sanitizeFilenamePart value) fallback) →
            unsafe_in_filename c = false) as Hpart.
  { intros value fallback Hf. unfold or_else. case_decide; [apply Hf|].
    apply sanitizeFilenamePart_safe. }
  assert (∀ text : string,
            forallb (λ c, negb (unsafe_in_filename c))
                    (String.list_ascii_of_string text) = true →
            ∀ c, c ∈ String.list_ascii_of_string text →
                 unsafe_in_filename c = false) as Hconst.
  { intros text Hall c' Hc'. rewrite forallb_forall in Hall.
    apply negb_true_iff, Hall. by apply list_elem_of_In. }
  intros [Hc|[Hc|[Hc|Hc]]].
  - apply (Hpart categoryName "category"); [|done]. by apply Hconst.
  - by apply (Hconst "_").
  - apply (Hpart subcategoryName "subcategory"); [|done]. by apply Hconst.
  - by apply (Hconst "_stock.csv").
Qed.

(** ** CSV fields can be told apart *)

Lemma double_quotes_inj (a b : string) :
  double_quotes a = double_quotes b → a = b.
Proof.
  revert b. induction a as [|c a IH]; intros [|d b]; cbn [double_quotes].
  - done.
  - by case_decide.
  - by case_decide.
  - destruct (decide (c = QUOTE)) as [->|Hc], (decide (d = QUOTE)) as [->|Hd].
    + intros [= Heq]. by rewrite (IH b Heq).
    + intros [= Heq _]. by destruct Hd.
    + intros [= Heq _]. by destruct Hc.
    + intros [= -> Heq]. by rewrite (IH b Heq).
Qed.

Lemma string_append_inj_r (s s' t : string) : s +:+ t = s' +:+ t → s = s'.
Proof.
  intros Heq.
  assert (String.list_ascii_of_string s = String.list_ascii_of_string s') as Hl.
  { apply (app_inv_tail (String.list_ascii_of_string t)).
    by rewrite <- !chars_append, Heq. }
  by rewrite <- (String.string_of_list_ascii_of_string s), Hl,
    String.string_of_list_ascii_of_string.
Qed.

Lemma has_csv_special_quote (text : string) :
  has_csv_special (String QUOTE text) = true.
Proof. reflexivity. Qed.

(** X24. Two texts that are written as the same CSV field are the same
    text: quoting loses nothing. *)
Theorem formatCsvValue_is_injective_on_text (a b : string) :
  formatCsvValue (CsvText a) = formatCsvValue (CsvText b) ↔ a = b.
Proof.
  split; [|by intros ->].
  unfold formatCsvValue. cbn [csv_text].
  destruct (has_csv_special a) eqn:Ha, (has_csv_special b) eqn:Hb.
  - intros [= Heq]. by apply double_quotes_inj, (string_append_inj_r _ _ _ Heq).
  - intros <-. by rewrite has_csv_special_quote in Hb.
  - intros ->. by rewrite has_csv_special_quote in Ha.
  - done.
Qed.
(** ** The stock browser *)

Lemma foldl_sum_le {A} (g : A → nat) (l : list A) (a : nat) :
  (a ≤ foldl (λ sum x, sum + g x) a l)%nat.
Proof.
  revert a. induction l as [|x l IH]; intros a; [done|].
  cbn [foldl]. specialize (IH (a + g x)%nat). lia.
Qed.

Lemma foldl_sum_elem {A} (g : A → nat) (l : list A) (a : nat) (x : A) :
  x ∈ l → (g x ≤ foldl (λ sum x, sum + g x) a l)%nat.
Proof.
  revert a. induction l as [|y l IH]; intros a; [by intros ?%elem_of_nil|].
  cbn [foldl]. intros [->|Hx]%elem_of_cons; [|by apply IH].
  pose proof (foldl_sum_le g l (a + g y)). lia.
Qed.

(** X25. A product whose category and subcategory exist as a pair can
    always be reached in the stock browser: the card of its category is
    shown, then, in the category that the browser finds by that name, the
    card of its subcategory, and the product is in the list shown for that
    selection. *)
Theorem product_is_reachable_in_stock_browser
    (categories : list CategoryDefinition) (items : list InventoryItem)
    (i : InventoryItem) (c : CategoryDefinition) :
  i ∈ items →
  List.find (λ c, bool_decide (cat_name c = item_category i)) categories = Some c →
  item_subcategory i ∈ cat_subcategories c →
  c ∈ categories
  ∧ categoryCardShown items c = true
  ∧ subcategoryCardShown items c (item_subcategory i) = true
  ∧ i ∈ itemsForProductStockView items
          (mkView stock (Some (cat_name c)) (Some (item_subcategory i))).
Proof.
  intros Hi Hfind Hsub.
  apply find_some_elem in Hfind as [Hc Hname].
  apply bool_decide_eq_true in Hname.
  assert (getCategoryItemCount items (cat_name c) (item_subcategory i) ≠ 0%nat)
    as Hcount.
  { unfold getCategoryItemCount. intros Hnil%length_zero_iff_nil.
    assert (i ∈ filter (λ item, item_category item = cat_name c
                                ∧ item_subcategory item = item_subcategory i) items)
      as Hin by (by apply list_elem_of_filter).
    rewrite Hnil in Hin. by apply elem_of_nil in Hin. }
  assert (totalItemsInCategory items c ≠ 0%nat) as Htotal.
  { unfold totalItemsInCategory.
    pose proof (foldl_sum_elem (getCategoryItemCount items (cat_name c))
                  (cat_subcategories c) 0%nat (item_subcategory i) Hsub).
    lia. }
  split; [done|]. split; [|split].
  - unfold categoryCardShown. cbv zeta.
    rewrite (bool_decide_eq_false_2 _ Htotal), andb_false_r. done.
  - unfold subcategoryCardShown. cbv zeta.
    rewrite (bool_decide_eq_false_2 _ Hcount), !andb_false_r. done.
  - unfold itemsForProductStockView. cbn [selectedCategoryForView
      selectedSubcategoryForView]. apply list_elem_of_filter.
    by rewrite Hname.
Qed.

(** X25 on concrete data: Cap in Hats / Caps. *)
Lemma product_is_reachable_witness :
  cap ∈ [runner; cap]
  ∧ List.find (λ c, bool_decide (cat_name c = item_category cap)) [shoes; hats]
    = Some hats
  ∧ item_subcategory cap ∈ cat_subcategories hats
  ∧ categoryCardShown [runner; cap] hats = true
  ∧ subcategoryCardShown [runner; cap] hats "Caps" = true.
Proof.
  assert (cap ∈ [runner; cap]) as Hi by (right; left).
  assert (List.find (λ c, bool_decide (cat_name c = item_category cap))
            [shoes; hats] = Some hats) as Hfind by reflexivity.
  assert (item_subcategory cap ∈ cat_subcategories hats) as Hsub by left.
  do 3 (split; [assumption|]).
  destruct (product_is_reachable_in_stock_browser [shoes; hats] [runner; cap]
              cap hats Hi Hfind Hsub) as (_ & Hcard & Hsubcard & _).
  split; [exact Hcard | exact Hsubcard].
Defined.
(** ** Snapshots *)

Lemma itemsFromSnapshot_ids (nodes : list (string * ProductNode)) :
  item_id <$> itemsFromSnapshot (Some nodes) = nodes.*1.
Proof.
  unfold itemsFromSnapshot. rewrite <- list_fmap_compose.
  by apply list_fmap_ext.
Qed.

(** X26. A product stored without sizes is listed with quantity 0 for every
    size: its total is 0 and selling any size of it writes nothing.  The
    ids of the list built from a snapshot are the keys of the snapshot, in
    order. *)
Theorem snapshot_defaults_missing_sizes
    (nodes : list (string * ProductNode)) (key : string) (node : ProductNode)
    (size : Size) :
  NoDup nodes.*1 →
  (key, node) ∈ nodes →
  key ≠ "" →
  node_sizes node = None →
  item_id <$> itemsFromSnapshot (Some nodes) = nodes.*1
  ∧ ∃ item,
      item ∈ itemsFromSnapshot (Some nodes)
      ∧ item_id item = key
      ∧ (∀ s, item_sizes item !! s = Some 0)
      ∧ calculateTotalQuantity (item_sizes item) = 0
      ∧ handleSellItemSize (itemsFromSnapshot (Some nodes)) key size = Returned.
Proof.
  intros Hnodup Hin Hkey Hsizes.
  split; [apply itemsFromSnapshot_ids|].
  assert (NoDup (item_id <$> itemsFromSnapshot (Some nodes))) as Hids.
  { by rewrite itemsFromSnapshot_ids. }
  unfold itemsFromSnapshot in *.
  eexists. split; [apply list_elem_of_fmap_2, Hin|].
  cbn [item_id item_sizes fst snd]. rewrite Hsizes.
  split; [done|]. split; [intros s; apply sizesFrom_lookup|].
  split; [by vm_compute|].
  unfold handleSellItemSize. rewrite (bool_decide_eq_false_2 _ Hkey).
  match goal with
  | |- context [List.find _ (?f <$> nodes)] =>
      pose proof (find_by_key item_id (f <$> nodes) (f (key, node)) Hids
                    (list_elem_of_fmap_2 f nodes (key, node) Hin)) as Hfind
  end.
  cbn [item_id fst] in Hfind. rewrite Hfind.
  cbv zeta. cbn [item_sizes snd]. rewrite Hsizes.
  unfold quantity. rewrite sizesFrom_lookup. done.
Qed.

(** X26 on concrete data: a stored Scarf without sizes. *)
Lemma snapshot_witness :
  NoDup [("p7", mkNode "Scarf" "SC-1" "Hats" "Default" None (5 # 1) None None)].*1
  ∧ ("p7", mkNode "Scarf" "SC-1" "Hats" "Default" None (5 # 1) None None)
    ∈ [("p7", mkNode "Scarf" "SC-1" "Hats" "Default" None (5 # 1) None None)]
  ∧ "p7" ≠ ""
  ∧ handleSellItemSize
      (itemsFromSnapshot
         (Some [("p7", mkNode "Scarf" "SC-1" "Hats" "Default" None (5 # 1)
                         None None)]))
      "p7" SzM
    = Returned.
Proof.
  assert (NoDup [("p7", mkNode "Scarf" "SC-1" "Hats" "Default" None (5 # 1)
                          None None)].*1) as Hnodup.
  { apply NoDup_singleton. }
  assert (("p7", mkNode "Scarf" "SC-1" "Hats" "Default" None (5 # 1) None None)
          ∈ [("p7", mkNode "Scarf" "SC-1" "Hats" "Default" None (5 # 1) None None)])
    as Hin by left.
  assert ("p7" ≠ "") as Hkey by discriminate.
  do 3 (split; [assumption|]).
  destruct (snapshot_defaults_missing_sizes _ "p7" _ SzM Hnodup Hin Hkey eq_refl)
    as (_ & item & _ & _ & _ & _ & Hsell).
  exact Hsell.
Defined.
(** ** The category effect of the form *)

Lemma head_find_first (l : list CategoryDefinition) (c : CategoryDefinition) :
  head l = Some c →
  List.find (λ c', bool_decide (cat_name c' = cat_name c)) l = Some c.
Proof.
  destruct l as [|a l]; [done|]. intros [= ->]. cbn [List.find].
  by rewrite bool_decide_eq_true_2.
Qed.

(** The category that the effect falls back to is the first of its name. *)
Lemma or_found_first (Q : string → Prop) `{!∀ n, Decision (Q n)}
    (l : list CategoryDefinition) (rest : option CategoryDefinition)
    (c : CategoryDefinition) :
  (∀ c, rest = Some c →
        List.find (λ c', bool_decide (cat_name c' = cat_name c)) l = Some c) →
  or_found (List.find (λ c, bool_decide (Q (cat_name c))) l) rest = Some c →
  List.find (λ c', bool_decide (cat_name c' = cat_name c)) l = Some c.
Proof.
  intros Hrest. destruct (List.find _ l) as [c0|] eqn:Hfind; cbn [or_found].
  - intros [= <-]. by apply (find_first_of_name Q).
  - apply Hrest.
Qed.

Lemma find_none_head (P : CategoryDefinition → bool) (l : list CategoryDefinition) :
  l ≠ [] → List.find P l = None → ∃ c, head l = Some c ∧ P c = false.
Proof.
  destruct l as [|a l]; [done|]. intros _. cbn [List.find head].
  destruct (P a) eqn:Ha; [done|]. by exists a.
Qed.

(** The category of the form that the effect prefers when none is chosen. *)
Lemma categoryEffect_cases (categories : list CategoryDefinition)
    (formData : ItemModalFormData) :
  categories ≠ [] →
  (categoryEffect categories formData = formData
   ∧ form_category formData ≠ ""
   ∧ ∃ cur, List.find (λ c, bool_decide (cat_name c = form_category formData))
                      categories = Some cur
            ∧ form_subcategory formData ∈ cat_subcategories cur)
  ∨ ∃ c, categoryEffect categories formData
         = with_selection formData (cat_name c) (defaultSubcategoryOf c "")
         ∧ List.find (λ c', bool_decide (cat_name c' = cat_name c)) categories
           = Some c
         ∧ (cat_name c = "" →
            or_found (List.find (λ c, bool_decide (cat_name c ≠ "Uncategorized"))
                                categories)
                     (or_found (List.find (λ c, bool_decide
                                                  (cat_name c = "Uncategorized"))
                                          categories)
                               (head categories)) = Some c).
Proof.
  intros Hne.
  assert (bool_decide (0 < length categories)%nat = true) as Hlen.
  { apply bool_decide_eq_true. destruct categories; [done | cbn; lia]. }
  assert (bool_decide (length categories = 0%nat) = false) as Hlen0.
  { apply bool_decide_eq_false. destruct categories; [done | cbn; lia]. }
  unfold categoryEffect.
  destruct (bool_decide (form_category formData ≠ "")) eqn:Hchosen.
  - apply bool_decide_eq_true in Hchosen.
    destruct (List.find (λ c, bool_decide (cat_name c = form_category formData))
                categories) as [cur|] eqn:Hcur.
    + pose proof (find_some_elem _ _ _ Hcur) as [Hin Hname].
      apply bool_decide_eq_true in Hname.
      destruct (includes (cat_subcategories cur) (form_subcategory formData))
        eqn:Hinc; cbn [negb].
      * left. split; [done|]. split; [done|]. exists cur.
        split; [done | by apply includes_true].
      * right. exists cur. rewrite Hname. split; [done|]. split; [done|].
        intros Hempty. by destruct Hchosen.
    + right. cbn [andb]. rewrite Hlen.
      destruct (or_found _ (head categories)) as [d|] eqn:Hd; cycle 1.
      { exfalso. destruct categories as [|a l]; [done|].
        cbn [head] in Hd. unfold or_found in Hd.
        by destruct (List.find (λ c, bool_decide (cat_name c = "Uncategorized"))
                       (a :: l)). }
      exists d. split; [done|].
      assert (List.find (λ c', bool_decide (cat_name c' = cat_name d)) categories
              = Some d) as Hfirst.
      { apply (or_found_first (λ n, n = "Uncategorized") categories
                 (head categories)); [|done].
        intros c. apply head_find_first. }
      split; [done|]. intros Hempty.
      destruct (List.find (λ c, bool_decide (cat_name c = "Uncategorized"))
                  categories) as [u|] eqn:Hun; cbn [or_found] in Hd.
      * injection Hd as ->. apply find_some_elem in Hun as [_ Hu].
        apply bool_decide_eq_true in Hu. congruence.
      * destruct categories as [|a l]; [done|]. injection Hd as ->.
        cbn [List.find]. rewrite bool_decide_eq_true_2; [done|].
        by rewrite Hempty.
  - right. cbn [andb]. rewrite Hlen0.
    match goal with
    | |- context [match ?p with Some _ => _ | None => formData end] =>
        destruct p as [d|] eqn:Hd
    end; cycle 1.
    { exfalso. destruct categories as [|a l]; [done|].
      cbn [head] in Hd. unfold or_found in Hd.
      destruct (List.find (λ c, bool_decide (cat_name c ≠ "Uncategorized"))
                  (a :: l)); [done|].
      by destruct (List.find (λ c, bool_decide (cat_name c = "Uncategorized"))
                     (a :: l)). }
    exists d. split; [done|]. split; [|done].
    apply (or_found_first (λ n, n ≠ "Uncategorized") categories
             (or_found (List.find (λ c, bool_decide (cat_name c = "Uncategorized"))
                                  categories)
                       (head categories)) d); [|done].
    intros c Hc. apply (or_found_first (λ n, n = "Uncategorized") categories
                          (head categories) c); [|exact Hc].
    intros c'. apply head_find_first.
Qed.

(** X27. With a category list that is not empty and in which every category
    has a subcategory, the category effect of the form leaves a category
    and a subcategory that exist as a pair, changes no other field, and is
    stable: running it again changes nothing. *)
Theorem category_effect_settles_on_existing_pair
    (categories : list CategoryDefinition) (formData : ItemModalFormData) :
  categories ≠ [] →
  (∀ c, c ∈ categories → cat_subcategories c ≠ []) →
  (∃ c, List.find (λ c, bool_decide
                          (cat_name c
                           = form_category (categoryEffect categories formData)))
                  categories = Some c
        ∧ form_subcategory (categoryEffect categories formData)
          ∈ cat_subcategories c)
  ∧ categoryEffect categories (categoryEffect categories formData)
    = categoryEffect categories formData
  ∧ categoryEffect categories formData
    = with_selection formData
        (form_category (categoryEffect categories formData))
        (form_subcategory (categoryEffect categories formData)).
Proof.
  intros Hne Hsubs.
  assert (∀ c, List.find (λ c', bool_decide (cat_name c' = cat_name c)) categories
               = Some c →
               defaultSubcategoryOf c "" ∈ cat_subcategories c) as Hdef.
  { intros c [Hc _]%find_some_elem.
    apply defaultSubcategoryOf_listed; [by apply Hsubs | done]. }
  destruct (categoryEffect_cases categories formData Hne)
    as [(Hsame & Hchosen & cur & Hcur & Hin)|(c & Heq & Hfirst & Hempty)].
  - rewrite !Hsame. split; [by exists cur|]. split; [done | by destruct formData].
  - rewrite !Heq. cbn [form_category form_subcategory with_selection].
    split; [exists c; split; [done | by apply Hdef]|]. split; [|done].
    destruct (categoryEffect_cases categories
                (with_selection formData (cat_name c) (defaultSubcategoryOf c ""))
                Hne)
      as [(Hsame & _)|(c' & Heq' & Hfirst' & Hempty')]; [done|].
    rewrite Heq'. cbn [form_category form_subcategory with_selection].
    (* the second run picks the same category *)
    assert (c' = c) as ->; [|done].
    revert Heq'. unfold categoryEffect.
    cbn [form_category form_subcategory with_selection]. rewrite Hfirst.
    destruct (bool_decide (cat_name c ≠ "")) eqn:Hname.
    + pose proof (Hdef c Hfirst) as Hin. apply includes_true in Hin.
      rewrite Hin. cbn [negb]. intros Hsel.
      assert (cat_name c = cat_name c') as Hnames.
      { by apply (f_equal form_category) in Hsel. }
      rewrite Hnames in Hfirst. congruence.
    + apply bool_decide_eq_false, dec_stable in Hname. cbn [andb].
      assert (bool_decide (length categories = 0%nat) = false) as ->.
      { apply bool_decide_eq_false. destruct categories; [done | cbn; lia]. }
      rewrite (Hempty Hname). intros Hsel.
      assert (cat_name c = cat_name c') as Hnames.
      { by apply (f_equal form_category) in Hsel. }
      rewrite Hnames in Hfirst. congruence.
Qed.

Lemma example_subcategories_nonempty (c : CategoryDefinition) :
  c ∈ [shoes; hats] → cat_subcategories c ≠ [].
Proof. intros Hc. by apply example_category_list_ok. Qed.

(** X27 on concrete data: a form still on a category that was deleted. *)
Lemma category_effect_witness :
  [shoes; hats] ≠ []
  ∧ (∀ c, c ∈ [shoes; hats] → cat_subcategories c ≠ [])
  ∧ categoryEffect [shoes; hats]
      (categoryEffect [shoes; hats]
         (getInitialFormData (Some tote) [shoes; hats; bags]))
    = categoryEffect [shoes; hats]
        (getInitialFormData (Some tote) [shoes; hats; bags]).
Proof.
  assert ([shoes; hats] ≠ []) as Hne by discriminate.
  split; [exact Hne|]. split; [exact example_subcategories_nonempty|].
  destruct (category_effect_settles_on_existing_pair [shoes; hats]
              (getInitialFormData (Some tote) [shoes; hats; bags])
              Hne example_subcategories_nonempty) as (_ & Hstable & _).
  exact Hstable.
Defined.

(** X28. Choosing a listed category in the select of the form sets the
    subcategory to one of that category, "Default" when the category has
    it; the category effect that follows then changes nothing. *)
Theorem category_select_sets_listed_subcategory
    (categories : list CategoryDefinition) (value : string)
    (formData : ItemModalFormData) (c : CategoryDefinition) :
  value ≠ "" →
  List.find (λ c, bool_decide (cat_name c = value)) categories = Some c →
  cat_subcategories c ≠ [] →
  form_category (handleChangeCategory categories value formData) = value
  ∧ form_subcategory (handleChangeCategory categories value formData)
    ∈ cat_subcategories c
  ∧ ("Default" ∈ cat_subcategories c →
     form_subcategory (handleChangeCategory categories value formData) = "Default")
  ∧ categoryEffect categories (handleChangeCategory categories value formData)
    = handleChangeCategory categories value formData.
Proof.
  intros Hvalue Hfind Hsubs. unfold handleChangeCategory. rewrite Hfind.
  cbn [form_category form_subcategory with_selection].
  assert (defaultSubcategoryOf c "" ∈ cat_subcategories c) as Hin.
  { by apply defaultSubcategoryOf_listed. }
  split; [done|]. split; [done|]. split.
  - intros Hdef. unfold defaultSubcategoryOf.
    apply includes_true in Hdef. by rewrite Hdef.
  - unfold categoryEffect. cbn [form_category form_subcategory with_selection].
    rewrite Hfind, (bool_decide_eq_true_2 _ Hvalue).
    apply includes_true in Hin. by rewrite Hin.
Qed.

(** X28 on concrete data: Hats is chosen in the form of Runner. *)
Lemma category_select_witness :
  "Hats" ≠ ""
  ∧ List.find (λ c, bool_decide (cat_name c = "Hats")) [shoes; hats] = Some hats
  ∧ cat_subcategories hats ≠ []
  ∧ form_category (handleChangeCategory [shoes; hats] "Hats"
                     (getInitialFormData (Some runner) [shoes; hats]))
    = "Hats"
  ∧ form_subcategory (handleChangeCategory [shoes; hats] "Hats"
                        (getInitialFormData (Some runner) [shoes; hats]))
    = "Default".
Proof.
  assert ("Hats" ≠ "") as Hvalue by discriminate.
  assert (List.find (λ c, bool_decide (cat_name c = "Hats")) [shoes; hats]
          = Some hats) as Hfind by reflexivity.
  assert (cat_subcategories hats ≠ []) as Hsubs by discriminate.
  do 3 (split; [assumption|]).
  destruct (category_select_sets_listed_subcategory [shoes; hats] "Hats"
              (getInitialFormData (Some runner) [shoes; hats]) hats Hvalue Hfind
              Hsubs) as (Hcat & _ & Hdef & _).
  split; [exact Hcat|]. apply Hdef. right. left.
Defined.
(** ** The "in use" warnings *)

Lemma fmap_fixes_inv {A} (f : A → A) (l : list A) :
  f <$> l = l → ∀ x, x ∈ l → f x = x.
Proof.
  induction l as [|a l IH]; [by intros _ x ?%elem_of_nil|].
  rewrite fmap_cons. intros [= Ha Hl] x [->|Hx]%elem_of_cons; [done|].
  by apply IH.
Qed.

Lemma existsb_elem_of {A} (f : A → bool) (l : list A) :
  existsb f l = true ↔ ∃ x, x ∈ l ∧ f x = true.
Proof.
  rewrite existsb_exists. split; intros (x & Hx & Hf); exists x;
    (split; [by apply list_elem_of_In | done]).
Qed.

(** A relocation changes the list exactly when a product is relocated to
    another place. *)
Lemma relocated_if_changes (P : InventoryItem → Prop) `{!∀ i, Decision (P i)}
    (category subcategory : string) (items : list InventoryItem) :
  (∀ i, P i → item_category i ≠ category ∨ item_subcategory i ≠ subcategory) →
  relocated_if P category subcategory <$> items ≠ items ↔ ∃ i, i ∈ items ∧ P i.
Proof.
  intros Hmoves. split.
  - intros Hchanged.
    destruct (decide (Exists P items)) as [Hex|Hnone];
      [by apply Exists_exists in Hex|].
    destruct Hchanged. apply fmap_fixes. intros i Hi. unfold relocated_if.
    case_decide as HP; [|done]. destruct Hnone. apply Exists_exists. by exists i.
  - intros (i & Hi & HP) Hsame.
    pose proof (fmap_fixes_inv _ _ Hsame i Hi) as Hfix.
    unfold relocated_if in Hfix. rewrite decide_True in Hfix by done.
    destruct (Hmoves i HP) as [Hne|Hne]; apply Hne; by rewrite <- Hfix.
Qed.

(** X29. The warning that a category is in use is shown exactly when its
    deletion changes the product list. *)
Theorem category_in_use_iff_deletion_moves_products
    (categories : list CategoryDefinition) (items : list InventoryItem)
    (push : KeyGen) (accepted : Updates → bool) (view : ViewState)
    (c : CategoryDefinition) :
  generates_keys push →
  fresh_category_key push categories →
  NoDup (cat_id <$> categories) →
  NoDup (item_id <$> items) →
  c ∈ categories →
  cat_name c ≠ "Uncategorized" →
  cat_id c ≠ "" →
  ∃ updates,
    (handleDeleteCategory categories items push accepted view
       (cat_id c) (cat_name c)).1 = Issued updates
    ∧ (isCategoryInUse items (cat_name c) = true
       ↔ items_after updates items ≠ items).
Proof.
  intros Hgen Hfresh Hids Hitems Hc Hname Hid.
  destruct (deleteCategoryUpdates_total categories items push
              (cat_id c) (cat_name c) Hgen) as [updates Hupd].
  exists updates. split.
  { unfold handleDeleteCategory.
    rewrite (bool_decide_eq_false_2 _ Hname), (bool_decide_eq_false_2 _ Hid).
    cbn [orb]. rewrite Hupd. by destruct (accepted _ && _). }
  destruct (delete_category_next categories items push c updates
              Hfresh Hids Hitems Hc Hname Hupd) as (_ & _ & _ & ->).
  rewrite relocated_if_changes.
  - unfold isCategoryInUse. rewrite existsb_elem_of.
    split; intros (i & Hi & HP); exists i; (split; [done|]).
    + by apply bool_decide_eq_true in HP.
    + by apply bool_decide_eq_true.
  - intros i HP. left. by rewrite HP.
Qed.

(** X29 on concrete data: Shoes, with Runner in it. *)
Lemma category_in_use_witness :
  generates_keys examplePush
  ∧ fresh_category_key examplePush [shoes; hats]
  ∧ NoDup (cat_id <$> [shoes; hats])
  ∧ NoDup (item_id <$> [runner; cap])
  ∧ shoes ∈ [shoes; hats]
  ∧ cat_name shoes ≠ "Uncategorized"
  ∧ cat_id shoes ≠ ""
  ∧ ∃ updates,
      (handleDeleteCategory [shoes; hats] [runner; cap] examplePush (λ _, true)
         (mkView stock None None) (cat_id shoes) (cat_name shoes)).1
      = Issued updates
      ∧ items_after updates [runner; cap] ≠ [runner; cap].
Proof.
  destruct example_shoes_deletable as (Hin & Hname & Hid).
  destruct example_consistent as (Hids & _ & _ & Hitems & _).
  split; [exact examplePush_generates_keys|].
  split; [exact example_fresh_category_key|].
  split; [exact Hids|]. split; [exact Hitems|].
  split; [exact Hin|]. split; [exact Hname|]. split; [exact Hid|].
  destruct (category_in_use_iff_deletion_moves_products [shoes; hats]
              [runner; cap] examplePush (λ _, true) (mkView stock None None)
              shoes examplePush_generates_keys example_fresh_category_key
              Hids Hitems Hin Hname Hid) as (updates & Hout & Hiff).
  exists updates. split; [exact Hout|]. apply Hiff. reflexivity.
Defined.

(** X30. For a subcategory other than "Default", the warning that it is in
    use is shown exactly when the subcategory counts a product, and exactly
    when its deletion changes the product list. *)
Theorem subcategory_in_use_iff_deletion_moves_products
    (categories : list CategoryDefinition) (items : list InventoryItem)
    (accepted : Updates → bool) (view : ViewState)
    (c : CategoryDefinition) (subcategoryName : string) :
  NoDup (cat_id <$> categories) →
  NoDup (item_id <$> items) →
  c ∈ categories →
  cat_id c ≠ "" →
  subcategoryName ≠ "Default" →
  ∃ updates,
    (handleDeleteSubcategory categories items accepted view
       (cat_id c) (cat_name c) subcategoryName).1 = Issued updates
    ∧ (isSubcategoryInUse items (cat_name c) subcategoryName = true
       ↔ items_after updates items ≠ items)
    ∧ (isSubcategoryInUse items (cat_name c) subcategoryName = true
       ↔ (0 < getCategoryItemCount items (cat_name c) subcategoryName)%nat).
Proof.
  intros Hids Hitems Hc Hid Hsub.
  assert (isSubcategoryInUse items (cat_name c) subcategoryName = true
          ↔ ∃ i, i ∈ items ∧ item_category i = cat_name c
                 ∧ item_subcategory i = subcategoryName) as Hused.
  { unfold isSubcategoryInUse. rewrite existsb_elem_of.
    split; intros (i & Hi & HP); exists i; (split; [done|]).
    - apply andb_true_iff in HP as [H1 H2].
      by apply bool_decide_eq_true in H1, H2.
    - destruct HP as [H1 H2]. by rewrite !bool_decide_eq_true_2. }
  eexists. split.
  { apply handleDeleteSubcategory_issued; try done; by intros [? ?]. }
  split.
  - unfold deleteSubcategoryUpdates. cbv zeta.
    rewrite (bool_decide_eq_false_2 (subcategoryName = "Default")) by done.
    rewrite andb_false_r.
    rewrite items_after_delete_subcategory by done.
    rewrite relocated_if_changes; [done|].
    intros i [_ HP]. right. by rewrite HP.
  - rewrite Hused. unfold getCategoryItemCount. split.
    + intros (i & Hi & HP).
      assert (i ∈ filter (λ item, item_category item = cat_name c
                                  ∧ item_subcategory item = subcategoryName)
                    items) as Hin by (by apply list_elem_of_filter).
      destruct (filter _ items); [by apply elem_of_nil in Hin | cbn; lia].
    + intros Hlen.
      destruct (filter _ items) as [|i l] eqn:Hf; [cbn in Hlen; lia|].
      assert (i ∈ filter (λ item, item_category item = cat_name c
                                  ∧ item_subcategory item = subcategoryName)
                    items) as Hin by (rewrite Hf; left).
      apply list_elem_of_filter in Hin as [HP Hi]. by exists i.
Qed.

(** X30 on concrete data: Caps of Hats, with Cap in it. *)
Lemma subcategory_in_use_witness :
  NoDup (cat_id <$> [shoes; hats])
  ∧ NoDup (item_id <$> [runner; cap])
  ∧ hats ∈ [shoes; hats]
  ∧ cat_id hats ≠ ""
  ∧ "Caps" ≠ "Default"
  ∧ ∃ updates,
      (handleDeleteSubcategory [shoes; hats] [runner; cap] (λ _, true)
         (mkView stock None None) (cat_id hats) (cat_name hats) "Caps").1
      = Issued updates
      ∧ items_after updates [runner; cap] ≠ [runner; cap].
Proof.
  destruct example_consistent as (Hids & _ & _ & Hitems & _).
  assert (hats ∈ [shoes; hats]) as Hin by (right; left).
  assert (cat_id hats ≠ "") as Hid by discriminate.
  assert ("Caps" ≠ "Default") as Hsub by discriminate.
  split; [exact Hids|]. split; [exact Hitems|].
  do 3 (split; [assumption|]).
  destruct (subcategory_in_use_iff_deletion_moves_products [shoes; hats]
              [runner; cap] (λ _, true) (mkView stock None None) hats "Caps"
              Hids Hitems Hin Hid Hsub) as (updates & Hout & Hiff & _).
  exists updates. split; [exact Hout|]. apply Hiff. reflexivity.
Defined.
